(** * KTU API server (server.js): a shallow embedding and its properties

    The server scrapes the KTU student portal.  It has four data routes
    (profile, public results, attendance, announcements), one retrying HTTP
    helper ([makeRequest]), one browser-automation login ([loginStudent]) and
    a process-wide TTL cache.

    The embedding follows the source top-down:
    - [JsString], [JsNumber]: the JavaScript string and Number operations the
      routes call ([trim], [substring], [indexOf], [parseInt], [parseFloat],
      [toFixed], [toString], ...).  Numbers are IEEE-754 binary64 values, taken
      from the Standard Library's [SpecFloat].
    - [JsValue]: the JSON values that reach the routes from outside (the
      fields of a request body, a response body that axios has parsed), with
      their conversions to a boolean and to a string.
    - [Dom]: the document tree that cheerio builds and the part of its
      selection API the routes use.
    - [Server]: the world (clock, cache, outside behaviour), the effect monad,
      [makeRequest], [loginStudent] and the four route handlers.
    - [Portal]: a small concrete portal, for runs on concrete inputs.
    - [ServerSpec], [ServerProofs]: the vocabulary of the properties, and the
      properties.
    - [Contract], [ContractProofs]: what each route promises to its callers
      (status codes, requests spent, what goes out, the shape of the records),
      and the proofs.

    Conventions.  A JavaScript string is modelled by a [string] whose
    characters are code units below 256.  A field of a request body and the
    body of a response are JSON values: a text, or what the JSON parser made
    of it; a request body may also be missing.  The route parameter and the
    query parameter of the results route are strings.  Console output is not
    modelled, nor are the routes [/] and [/health], which read no input and
    write nothing.  Requests are handled one at a time.  What lies outside
    the process (the portal's answers, the headless browser, the HTML parser)
    is a parameter of the model: a record [Env]. *)

From Stdlib Require Import ZArith List String Ascii Bool Lia DecimalString.
From Stdlib Require Import Floats.SpecFloat.
From stdpp Require Import gmap strings list.

Local Open Scope Z_scope.

(* ===================================================================== *)
(** * JavaScript strings *)
(* ===================================================================== *)

Module JsString.

Definition code (c : ascii) : Z := Z.of_N (N_of_ascii c).

Definition in_range (lo hi : Z) (c : ascii) : bool :=
  (lo <=? code c) && (code c <=? hi).

(** WhiteSpace and LineTerminator code units below 256:
    TAB, LF, VT, FF, CR, SP, NBSP. *)
Definition isWhiteSpace (c : ascii) : bool :=
  in_range 9 13 c || (code c =? 32) || (code c =? 160).

Definition isDigit (c : ascii) : bool := in_range 48 57 c.
Definition isUpper (c : ascii) : bool := in_range 65 90 c.
Definition isLower (c : ascii) : bool := in_range 97 122 c.
Definition isLetter (c : ascii) : bool := isUpper c || isLower c.

Definition of_code (z : Z) : ascii := ascii_of_N (Z.to_N z).

(** [String.prototype.toUpperCase], exact on ASCII.  The server applies it
    only to register numbers that passed [REGNO_RE], which are ASCII; other
    code units are left as they are. *)
Definition upper_char (c : ascii) : ascii :=
  if isLower c then of_code (code c - 32) else c.

(** [String.prototype.toLowerCase] on code units below 256. *)
Definition lower_char (c : ascii) : ascii :=
  if isUpper c || ((in_range 192 222 c) && negb (code c =? 215))
  then of_code (code c + 32) else c.

Fixpoint map_chars (f : ascii -> ascii) (s : string) : string :=
  match s with
  | EmptyString => EmptyString
  | String c s' => String (f c) (map_chars f s')
  end.

Definition toUpperCase : string -> string := map_chars upper_char.
Definition toLowerCase : string -> string := map_chars lower_char.

Fixpoint trimStart (s : string) : string :=
  match s with
  | EmptyString => EmptyString
  | String c s' => if isWhiteSpace c then trimStart s' else s
  end.

Fixpoint trimEnd (s : string) : string :=
  match s with
  | EmptyString => EmptyString
  | String c s' =>
      match trimEnd s' with
      | EmptyString => if isWhiteSpace c then EmptyString else String c EmptyString
      | t => String c t
      end
  end.

Definition trim (s : string) : string := trimEnd (trimStart s).

Definition startsWith (s p : string) : bool := String.prefix p s.

Fixpoint drop_chars (n : nat) (s : string) : string :=
  match n, s with
  | O, _ => s
  | S _, EmptyString => EmptyString
  | S n', String _ s' => drop_chars n' s'
  end.

Fixpoint take_chars (n : nat) (s : string) : string :=
  match n, s with
  | O, _ => EmptyString
  | S _, EmptyString => EmptyString
  | S n', String c s' => String c (take_chars n' s')
  end.

Definition len (s : string) : Z := Z.of_nat (String.length s).

Fixpoint indexOf_from (p s : string) (i : Z) : Z :=
  if String.prefix p s then i
  else match s with
       | EmptyString => -1
       | String _ s' => indexOf_from p s' (i + 1)
       end.

(** [s.indexOf(p)]: first position of [p] in [s], or -1. *)
Definition indexOf (s p : string) : Z := indexOf_from p s 0.

Fixpoint lastIndexOf_from (p s : string) (i best : Z) : Z :=
  let best' := if String.prefix p s then i else best in
  match s with
  | EmptyString => best'
  | String _ s' => lastIndexOf_from p s' (i + 1) best'
  end.

(** [s.lastIndexOf(p)]: last position of [p] in [s], or -1. *)
Definition lastIndexOf (s p : string) : Z := lastIndexOf_from p s 0 (-1).

Definition includes (s p : string) : bool := 0 <=? indexOf s p.

Definition clamp (n x : Z) : Z := Z.min (Z.max x 0) n.

(** [s.substring(a, b)]: both ends are clamped to [0, length] and swapped
    when [a > b]. *)
Definition substring (s : string) (a b : Z) : string :=
  let a' := clamp (len s) a in
  let b' := clamp (len s) b in
  let from := Z.min a' b' in
  let to := Z.max a' b' in
  take_chars (Z.to_nat (to - from)) (drop_chars (Z.to_nat from) s).

(** [s.substring(a)]. *)
Definition substring_from (s : string) (a : Z) : string :=
  substring s a (len s).

(** [s.replace(p, r)] for a string pattern [p]: the first occurrence only.
    The server always passes [r = ''], so replacement patterns play no
    part. *)
Fixpoint replace (s p r : string) : string :=
  if String.prefix p s then r +:+ drop_chars (String.length p) s
  else match s with
       | EmptyString => EmptyString
       | String c s' => String c (replace s' p r)
       end.

(** ** The regular expressions of the server

    A regular expression that is a sequence of character classes is a list
    of predicates. *)

Definition charclass := ascii -> bool.

Fixpoint match_here (cls : list charclass) (s : string) : option string :=
  match cls with
  | [] => Some s
  | k :: cls' =>
      match s with
      | EmptyString => None
      | String c s' => if k c then match_here cls' s' else None
      end
  end.

(** Anchored match: [/^...$/]. *)
Definition match_whole (cls : list charclass) (s : string) : bool :=
  match match_here cls s with
  | Some EmptyString => true
  | _ => false
  end.

(** Leftmost match of an unanchored sequence: the matched text. *)
Fixpoint match_first (cls : list charclass) (s : string) : option string :=
  match match_here cls s with
  | Some _ => Some (take_chars (List.length cls) s)
  | None =>
      match s with
      | EmptyString => None
      | String _ s' => match_first cls s'
      end
  end.

Definition is_char (a : ascii) : charclass := fun c => code c =? code a.

(** A letter of a pattern under the [i] flag. *)
Definition ci (a : ascii) : charclass :=
  fun c => (code (upper_char c) =? code (upper_char a)).

(** [/^[A-Z]{3}\d{2}[A-Z]{2}\d{3}$/i] *)
Definition REGNO_RE : list charclass :=
  [isLetter; isLetter; isLetter; isDigit; isDigit;
   isLetter; isLetter; isDigit; isDigit; isDigit].

Definition REGNO_RE_test (s : string) : bool := match_whole REGNO_RE s.

(** [/total/i] *)
Definition total_re : list charclass :=
  [ci "t"; ci "o"; ci "t"; ci "a"; ci "l"]%char.

Definition total_re_test (s : string) : bool :=
  match match_first total_re s with Some _ => true | None => false end.

(** [/[A-Z]{3}\d{3}/] *)
Definition course_code_re : list charclass :=
  [isUpper; isUpper; isUpper; isDigit; isDigit; isDigit].

(** [s.replace(/&nbsp;|-/g, ' ')] *)
Fixpoint replace_nbsp_hyphen (skip : nat) (s : string) : string :=
  match s with
  | EmptyString => EmptyString
  | String c s' =>
      match skip with
      | S k => replace_nbsp_hyphen k s'
      | O =>
          if String.prefix "&nbsp;" s then String " " (replace_nbsp_hyphen 5 s')
          else if is_char "-" c then String " " (replace_nbsp_hyphen 0 s')
          else String c (replace_nbsp_hyphen 0 s')
      end
  end.

(** Truthiness of a string: non-empty. *)
Definition truthy (s : string) : bool :=
  match s with EmptyString => false | _ => true end.

(** [a || b] on strings. *)
Definition or_else (a b : string) : string := if truthy a then a else b.

End JsString.

(* ===================================================================== *)
(** * JavaScript Numbers *)
(* ===================================================================== *)

(** A Number is an IEEE-754 binary64 value.  Every operation below rounds to
    nearest, ties to even, as ECMAScript prescribes. *)

Module JsNumber.
Import JsString.

Definition number : Type := spec_float.

Definition prec : Z := 53.
Definition emax : Z := 1024.

Definition NaN : number := S754_nan.
Definition of_Z (z : Z) : number := binary_normalize prec emax z 0 false.

Definition add : number -> number -> number := SFadd prec emax.
Definition sub : number -> number -> number := SFsub prec emax.
Definition mul : number -> number -> number := SFmul prec emax.
Definition div : number -> number -> number := SFdiv prec emax.

(** [x >= y] *)
Definition geb (x y : number) : bool := SFleb y x.

Definition isNaN (x : number) : bool :=
  match x with S754_nan => true | _ => false end.

Definition isFinite (x : number) : bool :=
  match x with S754_nan | S754_infinity _ => false | _ => true end.

(** Truthiness: NaN, +0 and -0 are falsy. *)
Definition truthy (x : number) : bool :=
  match x with S754_nan | S754_zero _ => false | _ => true end.

(** [a || b] on Numbers. *)
Definition or_else (a b : number) : number := if truthy a then a else b.

(** Same Number value (structural; the representation is canonical). *)
Definition same (a b : number) : bool :=
  match a, b with
  | S754_nan, S754_nan => true
  | S754_zero s, S754_zero t => Bool.eqb s t
  | S754_infinity s, S754_infinity t => Bool.eqb s t
  | S754_finite s m e, S754_finite t n f =>
      Bool.eqb s t && Pos.eqb m n && Z.eqb e f
  | _, _ => false
  end.

(** The Number value of the decimal [(-1)^neg * m * 10^e], [m >= 0]. *)
Definition of_decimal (neg : bool) (m e : Z) : number :=
  if m <=? 0 then S754_zero neg
  else if 0 <=? e then binary_round prec emax neg (Z.to_pos (m * 10 ^ e)) 0
  else
    let '(q, e', l) := SFdiv_core_binary prec emax m 0 (10 ^ (- e)) 0 in
    binary_round_aux prec emax neg q e' l.

Definition digit_value (radix : Z) (c : ascii) : option Z :=
  let v := if isDigit c then code c - 48
           else if isLower c then code c - 87
           else if isUpper c then code c - 55
           else radix in
  if v <? radix then Some v else None.

(** Longest prefix of digits of the radix: its value, its length, the
    rest of the string. *)
Fixpoint digits (radix : Z) (s : string) (acc n : Z) : Z * Z * string :=
  match s with
  | EmptyString => (acc, n, s)
  | String c s' =>
      match digit_value radix c with
      | Some v => digits radix s' (acc * radix + v) (n + 1)
      | None => (acc, n, s)
      end
  end.

Definition strip_sign (s : string) : bool * string :=
  match s with
  | String c s' =>
      if is_char "-" c then (true, s')
      else if is_char "+" c then (false, s')
      else (false, s)
  | EmptyString => (false, s)
  end.

(** [parseInt(s)] with no radix argument. *)
Definition parseInt (s : string) : number :=
  let '(neg, t) := strip_sign (trimStart s) in
  let '(radix, t') :=
    if String.prefix "0x" t || String.prefix "0X" t
    then (16, drop_chars 2 t) else (10, t) in
  let '(v, n, _) := digits radix t' 0 0 in
  if n =? 0 then NaN
  else if v =? 0 then S754_zero neg
  else binary_round prec emax neg (Z.to_pos v) 0.

(** The exponent part [e[+-]ddd] of a decimal literal, 0 when absent or
    incomplete. *)
Definition exponent_part (s : string) : Z :=
  match s with
  | String c s' =>
      if is_char "e" c || is_char "E" c then
        let '(neg, t) := strip_sign s' in
        let '(v, n, _) := digits 10 t 0 0 in
        if n =? 0 then 0 else if neg then - v else v
      else 0
  | EmptyString => 0
  end.

(** [parseFloat(s)]: the longest prefix of the trimmed string that is a
    StrDecimalLiteral, NaN when there is none. *)
Definition parseFloat (s : string) : number :=
  let '(neg, t) := strip_sign (trimStart s) in
  if String.prefix "Infinity" t then S754_infinity neg
  else
    let '(i, ni, r1) := digits 10 t 0 0 in
    let '(f, nf, r2) :=
      match r1 with
      | String c r =>
          if is_char "." c then digits 10 r 0 0 else (0, 0, r1)
      | EmptyString => (0, 0, r1)
      end in
    if ni + nf =? 0 then NaN
    else of_decimal neg (i * 10 ^ nf + f) (exponent_part r2 - nf).

Fixpoint zeros (n : nat) : string :=
  match n with O => EmptyString | S n' => String "0" (zeros n') end.

Definition digits_string (z : Z) : string :=
  NilZero.string_of_uint (N.to_uint (Z.to_N z)).

(** [p / q >= 10^k] *)
Definition ge_pow10 (p q k : Z) : bool :=
  if 0 <=? k then q * 10 ^ k <=? p else q <=? p * 10 ^ (- k).

Fixpoint find_exponent (fuel : nat) (p q k : Z) : Z :=
  match fuel with
  | O => k
  | S f => if ge_pow10 p q k then k else find_exponent f p q (k - 1)
  end.

(** The [n] with [10^(n-1) <= p/q < 10^n], for a positive binary64 value
    [p/q]. *)
Definition decimal_point (p q : Z) : Z := find_exponent 700 p q 310 + 1.

(** Numerator and denominator of [(p/q) / 10^(n-k)]. *)
Definition scaled (p q n k : Z) : Z * Z :=
  if n <=? k then (p * 10 ^ (k - n), q) else (p, q * 10 ^ (n - k)).

(** Does the decimal [s * 10^(n-k)] have Number value [x]? *)
Definition candidate (x : number) (n k s : Z) : bool :=
  same (of_decimal false s (n - k)) x.

(** The least number [k] of digits and the integer [s] of [k] digits with
    [s * 10^(n-k)] of Number value [x]; the closest to [x] when there are
    two, the even one on a tie (Number::toString, step 5). *)
Fixpoint shortest (fuel : nat) (x : number) (p q n k : Z) : Z * Z :=
  let '(num, den) := scaled p q n k in
  let lo := num / den in
  let hi := if num mod den =? 0 then lo else lo + 1 in
  let ok_lo := candidate x n k lo in
  let ok_hi := candidate x n k hi in
  let pick :=
    if ok_lo && ok_hi then
      match 2 * num ?= (lo + hi) * den with
      | Lt => lo
      | Gt => hi
      | Eq => if Z.even lo then lo else hi
      end
    else if ok_lo then lo else hi in
  match fuel with
  | O => (pick, k)
  | S f => if ok_lo || ok_hi then (pick, k) else shortest f x p q n (k + 1)
  end.

(** Number::toString of the positive finite value [x = m * 2^e]. *)
Definition toString_pos (x : number) (m : positive) (e : Z) : string :=
  let '(p, q) := if 0 <=? e then (Zpos m * 2 ^ e, 1) else (Zpos m, 2 ^ (- e)) in
  let n0 := decimal_point p q in
  let '(s0, k) := shortest 16 x p q n0 1 in
  let '(s, n) := if s0 =? 10 ^ k then (s0 / 10, n0 + 1) else (s0, n0) in
  let d := digits_string s in
  if (k <=? n) && (n <=? 21) then d +:+ zeros (Z.to_nat (n - k))
  else if (0 <? n) && (n <=? 21)
       then take_chars (Z.to_nat n) d +:+ "." +:+ drop_chars (Z.to_nat n) d
  else if (-6 <? n) && (n <=? 0)
       then "0." +:+ zeros (Z.to_nat (- n)) +:+ d
  else
    let ex := n - 1 in
    let es := (if 0 <=? ex then "+" else "-") +:+ digits_string (Z.abs ex) in
    if k =? 1 then d +:+ "e" +:+ es
    else take_chars 1 d +:+ "." +:+ drop_chars 1 d +:+ "e" +:+ es.

(** [x.toString()] *)
Definition toString (x : number) : string :=
  match x with
  | S754_nan => "NaN"
  | S754_zero _ => "0"
  | S754_infinity s => if s then "-Infinity" else "Infinity"
  | S754_finite s m e =>
      (if s then "-" else "") +:+ toString_pos (S754_finite false m e) m e
  end.

(** The integer nearest to [100 * m * 2^e], the larger one on a tie. *)
Definition hundredths (m : positive) (e : Z) : Z :=
  if 0 <=? e then Zpos m * 2 ^ e * 100
  else (200 * Zpos m + 2 ^ (- e)) / 2 ^ (1 - e).

(** The decimal rendering of [n / 100] with two fraction digits. *)
Definition two_decimals (n : Z) : string :=
  let d := digits_string n in
  let d' := zeros (3 - String.length d) +:+ d in
  let k := (String.length d' - 2)%nat in
  take_chars k d' +:+ "." +:+ drop_chars k d'.

(** [x.toFixed(2)] *)
Definition toFixed2 (x : number) : string :=
  match x with
  | S754_nan => "NaN"
  | S754_infinity s => if s then "-Infinity" else "Infinity"
  | S754_zero _ => "0.00"
  | S754_finite s m e =>
      let ax := S754_finite false m e in
      let sign := if s then "-" else "" in
      if geb ax (of_Z (10 ^ 21)) then sign +:+ toString ax
      else sign +:+ two_decimals (hundredths m e)
  end.

End JsNumber.

(* ===================================================================== *)
(** * JSON values *)
(* ===================================================================== *)

Module JsValue.

(** What [JSON.parse] gives: the fields of a request body as
    [express.json] leaves them, and the [data] of a response whose text axios
    could parse as JSON.  A text is a [JStr]. *)
#[warnings="-register-all"]
Inductive Json : Type :=
| JNull
| JBool (b : bool)
| JNum (n : JsNumber.number)
| JStr (s : string)
| JArr (items : list Json)
| JObj (fields : list (string * Json)).

(** [!!v] *)
Definition truthy (v : Json) : bool :=
  match v with
  | JNull => false
  | JBool b => b
  | JNum n => JsNumber.truthy n
  | JStr s => JsString.truthy s
  | JArr _ | JObj _ => true
  end.

(** [a || b] *)
Definition or_else (a b : Json) : Json := if truthy a then a else b.

(** [String(v)], or [None] when the conversion throws a TypeError.  An
    array is joined with commas, a [null] element reading as the empty text.
    An object reads [[object Object]], unless it has a field [toString] of
    its own: that field is no function, and the conversion throws. *)
Fixpoint toString (v : Json) : option string :=
  match v with
  | JNull => Some "null"
  | JBool b => Some (if b then "true" else "false")
  | JNum n => Some (JsNumber.toString n)
  | JStr s => Some s
  | JArr items =>
      (fix join (first : bool) (items : list Json) : option string :=
         match items with
         | [] => Some ""
         | x :: rest =>
             match match x with JNull => Some "" | _ => toString x end,
                   join false rest with
             | Some a, Some b => Some ((if first then "" else ",") +:+ a +:+ b)
             | _, _ => None
             end
         end) true items
  | JObj fields =>
      if existsb (fun kv => String.eqb (fst kv) "toString") fields then None
      else Some "[object Object]"
  end.

End JsValue.

(** A text is a JSON value. *)
Coercion JsValue.JStr : string >-> JsValue.Json.

(* ===================================================================== *)
(** * The document tree and the selection API of cheerio *)
(* ===================================================================== *)

Module Dom.

#[warnings="-register-all"]
Inductive node : Type :=
| Text (data : string)
| Comment (data : string)
| Element (tag : string) (attrs : list (string * string)) (children : list node).

(** A parsed document: the children of its root. *)
Definition document : Type := list node.

(** A node is named by the child indices leading to it from the root;
    a selection is a list of such paths. *)
Definition path : Type := list nat.
Definition selection : Type := list path.

Definition children (n : node) : list node :=
  match n with Element _ _ cs => cs | _ => [] end.

Definition is_element (n : node) : bool :=
  match n with Element _ _ _ => true | _ => false end.

(** [nodeType === 3] *)
Definition is_text (n : node) : bool :=
  match n with Text _ => true | _ => false end.

Definition attribute (n : node) (name : string) : option string :=
  match n with
  | Element _ attrs _ =>
      snd <$> List.find (fun kv => String.eqb (fst kv) name) attrs
  | _ => None
  end.

(** The text of a node, as [.text()] reads it: the data of all text nodes
    below it, in order. *)
Fixpoint textContent (n : node) : string :=
  match n with
  | Text d => d
  | Comment _ => ""
  | Element _ _ cs =>
      (fix go (cs : list node) : string :=
         match cs with
         | [] => ""
         | c :: cs' => textContent c +:+ go cs'
         end) cs
  end.

(** The text of a node as the [:contains] pseudo-class reads it: a [br]
    element counts as a line feed. *)
Fixpoint getText (n : node) : string :=
  match n with
  | Text d => d
  | Comment _ => ""
  | Element t _ cs =>
      if String.eqb t "br" then String (ascii_of_nat 10) EmptyString
      else (fix go (cs : list node) : string :=
              match cs with
              | [] => ""
              | c :: cs' => getText c +:+ go cs'
              end) cs
  end.

Fixpoint node_at (ns : list node) (p : path) {struct p} : option node :=
  match p with
  | [] => None
  | i :: p' =>
      match ns !! i with
      | None => None
      | Some n =>
          match p' with
          | [] => Some n
          | _ :: _ => node_at (children n) p'
          end
      end
  end.

(** ** Selectors *)

(** A compound selector: [tag#id.class[attr]:contains("text")]. *)
Record compound : Type := {
  sel_tag : option string;
  sel_id : option string;
  sel_classes : list string;
  sel_attrs : list string;
  sel_contains : option string;
}.

(** A complex selector is a chain of compounds joined by the descendant
    combinator, outermost first; a selector is a comma-separated list of
    them. *)
Definition complex : Type := list compound.
Definition selector : Type := list complex.

Definition tag (t : string) : compound :=
  {| sel_tag := Some t; sel_id := None; sel_classes := [];
     sel_attrs := []; sel_contains := None |}.
Definition cls (c : string) : compound :=
  {| sel_tag := None; sel_id := None; sel_classes := [c];
     sel_attrs := []; sel_contains := None |}.
Definition ident (i : string) : compound :=
  {| sel_tag := None; sel_id := Some i; sel_classes := [];
     sel_attrs := []; sel_contains := None |}.
Definition tag_cls (t c : string) : compound :=
  {| sel_tag := Some t; sel_id := None; sel_classes := [c];
     sel_attrs := []; sel_contains := None |}.
Definition tag_attr (t a : string) : compound :=
  {| sel_tag := Some t; sel_id := None; sel_classes := [];
     sel_attrs := [a]; sel_contains := None |}.
Definition tag_contains (t x : string) : compound :=
  {| sel_tag := Some t; sel_id := None; sel_classes := [];
     sel_attrs := []; sel_contains := Some x |}.
Definition tag_cls_contains (t c x : string) : compound :=
  {| sel_tag := Some t; sel_id := None; sel_classes := [c];
     sel_attrs := []; sel_contains := Some x |}.

(** The whitespace-separated tokens of a [class] attribute. *)
Fixpoint words_aux (s : string) (cur : string) : list string :=
  match s with
  | EmptyString => match cur with EmptyString => [] | _ => [cur] end
  | String c s' =>
      if JsString.isWhiteSpace c
      then match cur with
           | EmptyString => words_aux s' EmptyString
           | _ => cur :: words_aux s' EmptyString
           end
      else words_aux s' (cur +:+ String c EmptyString)
  end.

Definition words (s : string) : list string := words_aux s EmptyString.

Definition has_class (n : node) (c : string) : bool :=
  match attribute n "class" with
  | Some v => existsb (String.eqb c) (words v)
  | None => false
  end.

Definition opt_test {A} (o : option A) (p : A -> bool) : bool :=
  match o with None => true | Some a => p a end.

Definition match_compound (c : compound) (n : node) : bool :=
  match n with
  | Element t _ _ =>
      opt_test (sel_tag c) (String.eqb t)
      && opt_test (sel_id c)
           (fun i => match attribute n "id" with
                     | Some v => String.eqb v i
                     | None => false
                     end)
      && forallb (has_class n) (sel_classes c)
      && forallb (fun a => match attribute n a with
                           | Some _ => true
                           | None => false
                           end) (sel_attrs c)
      && opt_test (sel_contains c) (JsString.includes (getText n))
  | _ => false
  end.

(** The compounds left of the rightmost one, innermost first, against the
    ancestors of the node, nearest first. *)
Fixpoint match_ancestors (cs : list compound) (anc : list node) : bool :=
  match cs with
  | [] => true
  | c :: cs' =>
      (fix up (anc : list node) : bool :=
         match anc with
         | [] => false
         | a :: anc' =>
             if match_compound c a then match_ancestors cs' anc' else up anc'
         end) anc
  end.

Definition match_complex (cx : complex) (anc : list node) (n : node) : bool :=
  match rev cx with
  | [] => false
  | c :: outer => match_compound c n && match_ancestors outer anc
  end.

Definition matches (sel : selector) (anc : list node) (n : node) : bool :=
  existsb (fun cx => match_complex cx anc n) sel.

(** The elements below [n] (and [n] itself) that match, in document order.
    [anc] are the ancestors of [n] in scope, nearest first; [rpath] is the
    path of [n], reversed. *)
Fixpoint select_node (sel : selector) (anc : list node) (rpath : list nat)
         (n : node) : selection :=
  match n with
  | Element _ _ cs =>
      (if matches sel anc n then [rev rpath] else []) ++
      (fix go (i : nat) (cs : list node) : selection :=
         match cs with
         | [] => []
         | c :: cs' =>
             select_node sel (n :: anc) (i :: rpath) c ++ go (S i) cs'
         end) O cs
  | _ => []
  end.

Fixpoint select_nodes (sel : selector) (anc : list node) (rpath : list nat)
         (i : nat) (ns : list node) : selection :=
  match ns with
  | [] => []
  | c :: ns' =>
      select_node sel anc (i :: rpath) c ++ select_nodes sel anc rpath (S i) ns'
  end.

(** Without duplicates: the first occurrence of each path is kept. *)
Definition dedup (ps : selection) : selection :=
  fold_left (fun acc p => if bool_decide (p ∈ acc) then acc else acc ++ [p]) ps [].

(** [q] names a proper ancestor of the node that [p] names. *)
Definition above (q p : path) : bool :=
  (List.length q <? List.length p)%nat && bool_decide (take (List.length q) p = q).

(** The elements of a selection that lie inside no other one, once each. *)
Definition outermost (s : selection) : selection :=
  dedup (List.filter (fun p => negb (existsb (fun q => above q p) s)) s).

Section Cheerio.

(** The document loaded by [cheerio.load]. *)
Variable doc : document.

(** [$(selector)] *)
Definition query (sel : selector) : selection :=
  select_nodes sel [] [] O doc.

(** [.find(selector)]: the descendants of the elements of the selection
    that match, those of one element after those of the element before it.
    The selector is relative to the selection: its rightmost compound matches
    the descendant, the compounds left of it match ancestors of the
    descendant that are at or below the element searched. *)
Definition find (s : selection) (sel : selector) : selection :=
  concat (List.map
    (fun p => match node_at doc p with
              | Some n => select_nodes sel [n] (rev p) O (children n)
              | None => []
              end) (outermost s)).

(** [.text()] *)
Definition text (s : selection) : string :=
  fold_right
    (fun p acc =>
       match node_at doc p with
       | Some n => textContent n +:+ acc
       | None => acc
       end) "" s.

(** [.first()], [.last()], [.eq(i)], [s[i]] wrapped by [$( )] *)
Definition first (s : selection) : selection := take 1 s.
Definition last (s : selection) : selection :=
  match List.last (Some <$> s) None with Some p => [p] | None => [] end.
Definition eq_at (s : selection) (i : nat) : selection :=
  match s !! i with Some p => [p] | None => [] end.

(** [.parent()]: the parent element of each element, in the order of the
    selection and once each; the root of the document is none. *)
Definition parent (s : selection) : selection :=
  dedup
    (concat (List.map
       (fun p : path => match removelast p with [] => [] | q => [q] end) s)).

(** The next sibling of the node at [pre ++ [i]] that is an element. *)
Fixpoint next_element (sibs : list node) (j : nat) (skip : nat) : option nat :=
  match sibs with
  | [] => None
  | n :: sibs' =>
      match skip with
      | S k => next_element sibs' (S j) k
      | O => if is_element n then Some j else next_element sibs' (S j) O
      end
  end.

Definition siblings (p : path) : list node :=
  match removelast p with
  | [] => doc
  | q => match node_at doc q with Some n => children n | None => [] end
  end.

(** [.next()]: the next sibling element of each element, in the order of
    the selection. *)
Definition next (s : selection) : selection :=
  concat (List.map
    (fun p : path =>
       match List.last (Some <$> p) None with
       | Some i =>
           match next_element (siblings p) O (S i) with
           | Some j => [removelast p ++ [j]]
           | None => []
           end
       | None => []
       end) s).

(** [.contents()]: all child nodes. *)
Definition contents (s : selection) : selection :=
  concat (List.map
    (fun p : path =>
       match node_at doc p with
       | Some n => List.map (fun j => p ++ [j]) (seq O (List.length (children n)))
       | None => []
       end) s).

(** [.filter(function () { return this.nodeType === 3; })] *)
Definition filter_text (s : selection) : selection :=
  List.filter
    (fun p => match node_at doc p with Some n => is_text n | None => false end) s.

(** [.attr(name)] *)
Definition attr (s : selection) (name : string) : option string :=
  match s with
  | p :: _ => match node_at doc p with
              | Some n => attribute n name
              | None => None
              end
  | [] => None
  end.

End Cheerio.

End Dom.

(* ===================================================================== *)
(** * The server *)
(* ===================================================================== *)

Module Server.
Import JsValue JsString.

Definition number : Type := JsNumber.number.

(** ** The records the routes return

    One module per object shape, so that fields keep the names they have
    in the source. *)

Module Subject.
Record t : Type := mk {
  code : string; name : string; credits : string;
  grade : string; gradePoint : string }.
End Subject.

Module PersonalInfo.
Record t : Type := mk {
  name : string; admissionNo : string; gender : string; dob : string;
  branch : string; semester : string; batch : string; college : string }.
End PersonalInfo.

Module AcademicInfo.
Record t : Type := mk { cgpa : string; sgpa : string; percentage : string }.
End AcademicInfo.

Module Breakdown.
Record t : Type := mk { category : string; points : number }.
End Breakdown.

Module ActivityPoints.
Record t : Type := mk {
  total : string; required : string; status : string;
  breakdown : list Breakdown.t }.
End ActivityPoints.

Module Credits.
Record t : Type := mk {
  earned : string; required : string;
  courseCredits : string; activityCredits : string }.
End Credits.

Module SemesterResult.
Record t : Type := mk { semester : string; subjects : list Subject.t }.
End SemesterResult.

Module AttendanceSubject.
Record t : Type := mk {
  subject : string; attended : number; total : number; percentage : string }.
End AttendanceSubject.

(** [lastUpdated] is the instant (milliseconds) that the source renders
    with [toISOString]; the [attendance] object of a profile has none. *)
Module Attendance.
Record t : Type := mk {
  overall : string; subjects : list AttendanceSubject.t;
  lastUpdated : option Z }.
End Attendance.

Module Profile.
Record t : Type := mk {
  registerNo : string;
  personalInfo : PersonalInfo.t;
  academicInfo : AcademicInfo.t;
  attendance : Attendance.t;
  activityPoints : ActivityPoints.t;
  credits : Credits.t;
  semesterResults : list SemesterResult.t }.
End Profile.

Module Exam.
Record t : Type := mk {
  examName : string; examDate : string; sgpa : string; cgpa : string;
  subjects : list Subject.t }.
End Exam.

Module Results.
Record t : Type := mk {
  registerNo : string; studentName : string;
  results : list Exam.t; fetchedFrom : string }.
End Results.

Module Link.
Record t : Type := mk { title : string; url : string }.
End Link.

Module Announcement.
Record t : Type := mk {
  title : string; date : string; description : string;
  links : list Link.t }.
End Announcement.

Module Announcements.
Record t : Type := mk {
  announcements : list Announcement.t; count : nat; lastUpdated : Z }.
End Announcements.

(** A JSON object built by a route: what [res.json] sends and what the
    cache stores. *)
Inductive Value : Type :=
| VProfile (p : Profile.t)
| VResults (r : Results.t)
| VAttendance (a : Attendance.t)
| VAnnouncements (a : Announcements.t).

(** The body of an error answer: [{ error, message, expected, registerNo,
    studentName }], the last four optional. *)
Module ErrorBody.
Record t : Type := mk {
  error : string; message : option string; expected : option string;
  registerNo : option string; studentName : option string }.
End ErrorBody.

(** [BValue v false] is the object [v]; [BValue v true] is
    [{ ...v, cached: true }]. *)
Inductive Body : Type :=
| BValue (v : Value) (cached : bool)
| BError (e : ErrorBody.t).

Record Response : Type := mkResponse { res_status : Z; res_body : Body }.

(** [res.json(v)] and [res.status(n).json(e)] *)
Definition json (v : Value) : Response := mkResponse 200 (BValue v false).
Definition json_cached (v : Value) : Response := mkResponse 200 (BValue v true).
Definition status_json (n : Z) (e : ErrorBody.t) : Response :=
  mkResponse n (BError e).

Definition error_only (msg : string) : ErrorBody.t :=
  ErrorBody.mk msg None None None None.

(** ** The outside world *)

(** The configuration object given to [axiosInstance.request]. *)
Record AxiosRequest : Type := mkRequest {
  req_method : string;
  req_url : string;
  req_headers : gmap string string }.

(** [response.status] and [response.data].  The data is the text of the
    body, or the value of that text when axios could parse it as JSON. *)
Record AxiosResponse : Type := mkAxiosResponse {
  status : Z;
  data : Json }.

(** A thrown value: [err.name], [err.message], [err.response.status]. *)
Record JsError : Type := mkError {
  err_name : string;
  err_message : string;
  err_status : option Z }.

Inductive Outcome : Type :=
| Fulfilled (r : AxiosResponse)
| Rejected (e : JsError).

(** What the process does not decide.  [Browser] and [Page] are the
    states of puppeteer's objects; [None] is a rejected promise.
    - [axios n r]: outcome and duration (ms) of the [n]-th request issued
      by the process;
    - [cheerio_load]: the HTML parser, on a text: it never throws;
    - [cheerio_load_value]: what [cheerio.load] and the queries on its
      result make of a value that is no text: the document they see, or the
      error that one of them throws;
    - [pp_launch n]: the [n]-th browser launched, and how long its session
      lasts;
    - [pp_type selector v]: [page.type(selector, v)]; [v] is a text, unless
      the caller of the route sent another value;
    - [pp_cookies]: the cookie header the browser holds for the portal
      ([page.cookies()]); the server never reads it. *)
Record Env (Browser Page : Type) : Type := mkEnv {
  axios : nat -> AxiosRequest -> Outcome * N;
  cheerio_load : string -> Dom.document;
  cheerio_load_value : Json -> Dom.document + JsError;
  pp_launch : nat -> option Browser * N;
  pp_newPage : Browser -> option Page;
  pp_goto : string -> Page -> option Page;
  pp_eval_value : string -> Page -> option string;
  pp_type : string -> Json -> Page -> option Page;
  pp_submit : string -> Page -> option Page;
  pp_waitForNavigation : Page -> option Page;
  pp_content : Page -> option string;
  pp_cookies : Page -> string;
  pp_close : Browser -> option JsError;
}.

Arguments axios {Browser Page} _ _ _.
Arguments cheerio_load {Browser Page} _ _.
Arguments cheerio_load_value {Browser Page} _ _.
Arguments pp_launch {Browser Page} _ _.
Arguments pp_newPage {Browser Page} _ _.
Arguments pp_goto {Browser Page} _ _ _.
Arguments pp_eval_value {Browser Page} _ _ _.
Arguments pp_type {Browser Page} _ _ _ _.
Arguments pp_submit {Browser Page} _ _ _.
Arguments pp_waitForNavigation {Browser Page} _ _.
Arguments pp_content {Browser Page} _ _.
Arguments pp_cookies {Browser Page} _ _.
Arguments pp_close {Browser Page} _ _.

(** What the process does to the outside, in order. *)
Inductive BrowserCall : Type :=
| Launch
| NewPage
| Goto (url : string)
| EvalValue (selector : string)
| TypeText (selector : string) (text : Json)
| Submit (token : string)
| WaitForNavigation
| Content
| Close.

Inductive Event : Type :=
| EvRequest (r : AxiosRequest)
| EvSleep (ms : Z)
| EvCacheGet (key : string)
| EvCacheSet (key : string)
| EvBrowser (c : BrowserCall).

(** The state of the process and its history.
    - [clock]: [Date.now()];
    - [cache]: the data of the [NodeCache] instance, key to (expiry, value);
    - [requests], [launches]: how many requests and browsers so far;
    - [trace]: the events so far, oldest first. *)
Record World : Type := mkWorld {
  clock : Z;
  cache : gmap string (Z * Value);
  requests : nat;
  launches : nat;
  trace : list Event }.

Definition initial (now : Z) : World := mkWorld now ∅ O O [].

(** ** The effect monad: state and exceptions *)

Inductive Result (A : Type) : Type :=
| Return (a : A)
| Throw (e : JsError).
Arguments Return {A} a.
Arguments Throw {A} e.

Definition M (A : Type) : Type := World -> Result A * World.

Definition ret {A} (a : A) : M A := fun w => (Return a, w).
Definition throw {A} (e : JsError) : M A := fun w => (Throw e, w).

Definition bind {A B} (m : M A) (k : A -> M B) : M B :=
  fun w =>
    match m w with
    | (Return a, w') => k a w'
    | (Throw e, w') => (Throw e, w')
    end.

(** [try { m } catch (err) { h err }] *)
Definition try_catch {A} (m : M A) (h : JsError -> M A) : M A :=
  fun w =>
    match m w with
    | (Return a, w') => (Return a, w')
    | (Throw e, w') => h e w'
    end.

(** [try { m } finally { f }]: [f] runs on both exits; if it throws, its
    exception replaces the outcome of [m]. *)
Definition finally {A} (m : M A) (f : M unit) : M A :=
  fun w =>
    match m w with
    | (r, w') =>
        match f w' with
        | (Return _, w'') => (r, w'')
        | (Throw e, w'') => (Throw e, w'')
        end
    end.

Declare Scope js_scope.
Delimit Scope js_scope with js.
Notation "'let*' x ':=' m 'in' k" := (bind m (fun x => k))
  (at level 10, x name, m at level 100, k at level 200) : js_scope.
Notation "'let*' ' p ':=' m 'in' k" := (bind m (fun p => k))
  (at level 10, p pattern, m at level 100, k at level 200) : js_scope.
Notation "m ';;;' k" := (bind m (fun _ => k))
  (at level 100, k at level 200, right associativity) : js_scope.
Local Open Scope js_scope.

Definition log (e : Event) : M unit :=
  fun w => (Return tt,
            mkWorld (clock w) (cache w) (requests w) (launches w) (trace w ++ [e])).

Definition elapse (ms : Z) : M unit :=
  fun w => (Return tt,
            mkWorld (clock w + ms) (cache w) (requests w) (launches w) (trace w)).

(** [await new Promise(r => setTimeout(r, ms))] *)
Definition sleep (ms : Z) : M unit := log (EvSleep ms) ;;; elapse ms.

(** ** The cache: [new NodeCache({ stdTTL: 1800 })] *)

Definition stdTTL : Z := 1800.

Definition set_cache (c : gmap string (Z * Value)) : M unit :=
  fun w => (Return tt, mkWorld (clock w) c (requests w) (launches w) (trace w)).

(** An entry is dead once its expiry is in the past ([t = 0] would mean no
    expiry). *)
Definition expired (now : Z) (entry : Z * Value) : bool :=
  negb (fst entry =? 0) && (fst entry <? now).

(** [cache.get(key)]: an expired entry is deleted and reads as absent. *)
Definition cache_get (key : string) : M (option Value) :=
  log (EvCacheGet key) ;;;
  fun w =>
    match cache w !! key with
    | Some entry =>
        if expired (clock w) entry
        then (Return None, snd (set_cache (delete key (cache w)) w))
        else (Return (Some (snd entry)), w)
    | None => (Return None, w)
    end.

(** [cache.set(key, value)]: the entry expires [stdTTL] seconds from now. *)
Definition cache_set (key : string) (v : Value) : M unit :=
  log (EvCacheSet key) ;;;
  fun w => set_cache (<[key := (clock w + stdTTL * 1000, v)]> (cache w)) w.

(** The entry a [get] at time [now] would return. *)
Definition live (now : Z) (c : gmap string (Z * Value)) (key : string) : option Value :=
  match c !! key with
  | Some entry => if expired now entry then None else Some (snd entry)
  | None => None
  end.

(** ** Constants of the server *)

Definition dq : string := String (ascii_of_nat 34) EmptyString.

Definition defaultHeaders : gmap string string :=
  list_to_map
    [("User-Agent", "Mozilla/5.0 (Windows NT 10.0; Win64; x64) AppleWebKit/537.36");
     ("Accept", "text/html,application/xhtml+xml,application/xml;q=0.9,*/*;q=0.8");
     ("Accept-Language", "en-US,en;q=0.9");
     ("Referer", "https://app.ktu.edu.in/")].

Definition KTU_LOGIN_URL : string := "https://app.ktu.edu.in/login.jsp".
Definition KTU_STUDENT_HOME : string :=
  "https://app.ktu.edu.in/eu/stu/studentBasicProfile.htm".
Definition KTU_DETAILS_URL : string :=
  "https://app.ktu.edu.in/eu/stu/studentDetailsView.htm".
Definition KTU_ATTENDANCE_URL : string := "https://app.ktu.edu.in/attendance.htm".
Definition KTU_ANNOUNCEMENTS_URL : string :=
  "https://ktu.edu.in/eu/core/announcements.htm".

Definition csrf_selector : string :=
  "input[name=" +:+ dq +:+ "CSRF_TOKEN" +:+ dq +:+ "]".
Definition username_selector : string :=
  "input[name=" +:+ dq +:+ "username" +:+ dq +:+ "]".
Definition password_selector : string :=
  "input[name=" +:+ dq +:+ "password" +:+ dq +:+ "]".

(** The [options] argument of [makeRequest]: [{ method, headers }]. *)
Record Options : Type := mkOptions {
  opt_method : string;
  opt_headers : option (gmap string string) }.

(** The default value of the parameter [retries]. *)
Definition default_retries : nat := 3.

(** What a rejected puppeteer promise throws; [loginStudent] swallows it. *)
Definition puppeteer_error : JsError := mkError "Error" "" None.

Section WithEnv.

Context {Browser Page : Type}.
Variable env : Env Browser Page.

(** ** makeRequest *)

(** [await axiosInstance.request(opts)] *)
Definition axios_request (opts : AxiosRequest) : M AxiosResponse :=
  log (EvRequest opts) ;;;
  fun w =>
    let '(out, ms) := axios env (requests w) opts in
    let w' := mkWorld (clock w + Z.of_N ms) (cache w) (S (requests w))
                      (launches w) (trace w) in
    match out with
    | Fulfilled r => (Return r, w')
    | Rejected e => (Throw e, w')
    end.

(** The [for] loop of [makeRequest]: [i] is the loop counter, [todo] the
    number of iterations left ([retries - i]).  Falling out of the loop
    returns [undefined]. *)
Fixpoint makeRequest_loop (opts : AxiosRequest) (retries i todo : nat)
  : M (option AxiosResponse) :=
  match todo with
  | O => ret None
  | S todo' =>
      try_catch
        (let* response := axios_request opts in ret (Some response))
        (fun err =>
           if Nat.eqb i (retries - 1) then throw err
           else
             sleep (1000 * (Z.of_nat i + 1)) ;;;
             makeRequest_loop opts retries (S i) todo')
  end.

Definition merge_headers (options : Options) : gmap string string :=
  match opt_headers options with
  | Some h => h ∪ defaultHeaders
  | None => defaultHeaders
  end.

Definition makeRequest (url : string) (options : Options) (retries : nat)
  : M (option AxiosResponse) :=
  let opts := mkRequest (opt_method options) url (merge_headers options) in
  makeRequest_loop opts retries O retries.

(** ** loginStudent *)

Definition puppeteer_call {A} (c : BrowserCall) (r : option A) : M A :=
  log (EvBrowser c) ;;;
  match r with
  | Some a => ret a
  | None => throw puppeteer_error
  end.

(** [await puppeteer.launch(...)] *)
Definition launch : M Browser :=
  log (EvBrowser Launch) ;;;
  fun w =>
    let '(b, ms) := pp_launch env (launches w) in
    let w' := mkWorld (clock w + Z.of_N ms) (cache w) (requests w)
                      (S (launches w)) (trace w) in
    match b with
    | Some b => (Return b, w')
    | None => (Throw puppeteer_error, w')
    end.

(** [await browser.close()] *)
Definition close (browser : Browser) : M unit :=
  log (EvBrowser Close) ;;;
  match pp_close env browser with
  | Some e => throw e
  | None => ret tt
  end.

(** The body of the [try] block after the launch. *)
Definition login_session (browser : Browser) (registerNo password : Json)
  : M (option string) :=
  let* page := puppeteer_call NewPage (pp_newPage env browser) in
  let* page := puppeteer_call (Goto KTU_LOGIN_URL)
                 (pp_goto env KTU_LOGIN_URL page) in
  let* csrfToken := puppeteer_call (EvalValue csrf_selector)
                      (pp_eval_value env csrf_selector page) in
  let* page := puppeteer_call (TypeText username_selector registerNo)
                 (pp_type env username_selector registerNo page) in
  let* page := puppeteer_call (TypeText password_selector password)
                 (pp_type env password_selector password page) in
  let* page := puppeteer_call (Submit csrfToken) (pp_submit env csrfToken page) in
  let* page := puppeteer_call WaitForNavigation (pp_waitForNavigation env page) in
  let* page := puppeteer_call (Goto KTU_DETAILS_URL)
                 (pp_goto env KTU_DETAILS_URL page) in
  let* content := puppeteer_call Content (pp_content env page) in
  ret (Some content).

(** [loginStudent(registerNo, password)]: the page content, or [null]
    ([None]).  [browser] is still undefined in the [finally] block when the
    launch itself fails.  The two arguments are what the caller of the route
    sent: texts, in the documented use. *)
Definition loginStudent (registerNo password : Json) : M (option string) :=
  let* launched := try_catch (let* b := launch in ret (Some b))
                             (fun _ => ret None) in
  match launched with
  | None => ret None
  | Some browser =>
      finally
        (try_catch (login_session browser registerNo password)
                   (fun _ => ret None))
        (close browser)
  end.

End WithEnv.

(** ** Extraction: from a parsed document to the records *)

(** The selectors of the profile route. *)
Definition sel_profile_title : Dom.selector := [[Dom.cls "profile-title"]].
Definition sel_list_group_item : Dom.selector := [[Dom.cls "list-group-item"]].
Definition sel_view_badge : Dom.selector := [[Dom.cls "view-badge"]].
Definition sel_panel_title : Dom.selector := [[Dom.cls "panel-title"]].
(** [span.view-badge:contains("label")] *)
Definition sel_badge (label : string) : Dom.selector :=
  [[Dom.tag_cls_contains "span" "view-badge" label]].
(** [#curriculamTab_curriculam .panel-default table td[rowspan]] *)
Definition sel_sgpa_cells : Dom.selector :=
  [[Dom.ident "curriculamTab_curriculam"; Dom.cls "panel-default";
    Dom.tag "table"; Dom.tag_attr "td" "rowspan"]].
(** [#collapseSix table tbody tr] *)
Definition sel_activity_rows : Dom.selector :=
  [[Dom.ident "collapseSix"; Dom.tag "table"; Dom.tag "tbody"; Dom.tag "tr"]].
Definition sel_td : Dom.selector := [[Dom.tag "td"]].
(** [#curriculamTab_curriculam .panel-default table tbody tr] *)
Definition sel_curriculum_rows : Dom.selector :=
  [[Dom.ident "curriculamTab_curriculam"; Dom.cls "panel-default";
    Dom.tag "table"; Dom.tag "tbody"; Dom.tag "tr"]].
(** [#curriculamTab_curriculam .panel-group .panel-default] *)
Definition sel_semester_panels : Dom.selector :=
  [[Dom.ident "curriculamTab_curriculam"; Dom.cls "panel-group";
    Dom.cls "panel-default"]].
(** [.panel-title a] *)
Definition sel_panel_title_a : Dom.selector :=
  [[Dom.cls "panel-title"; Dom.tag "a"]].
(** [table tbody tr] *)
Definition sel_table_body_rows : Dom.selector :=
  [[Dom.tag "table"; Dom.tag "tbody"; Dom.tag "tr"]].

Section Extraction.

(** [const $ = cheerio.load(...)] *)
Variable doc : Dom.document.

(** [$(cells[i]).text().trim()]; the empty string when there is no such
    cell. *)
Definition cell_text (cells : Dom.selection) (i : nat) : string :=
  trim (Dom.text doc (Dom.eq_at cells i)).

(** *** Personal information *)

Definition nameAndAdmissionText : string :=
  trim (Dom.text doc (Dom.first (Dom.query doc sel_profile_title))).

Definition username : string :=
  trim (substring nameAndAdmissionText 0 (indexOf nameAndAdmissionText "(")).

Definition admissionNo : string :=
  trim (substring nameAndAdmissionText
          (indexOf nameAndAdmissionText "(" + 1)
          (indexOf nameAndAdmissionText ")")).

(** [$(this).contents().filter(function() { return this.nodeType === 3; })
    .text().trim()] *)
Definition own_text (item : Dom.path) : string :=
  trim (Dom.text doc (Dom.filter_text doc (Dom.contents doc [item]))).

(** The loop over [.list-group-item]: the state is [(gender, dob)]. *)
Definition gender_dob : string * string :=
  fold_left
    (fun '(gender, dob) item =>
       let badgeText := trim (Dom.text doc (Dom.find doc [item] sel_view_badge)) in
       let gender := if String.eqb badgeText "Gender" then own_text item else gender in
       let dob := if String.eqb badgeText "Date of Birth" then own_text item else dob in
       (gender, dob))
    (Dom.query doc sel_list_group_item) ("", "").

Definition college : string :=
  let panelTitle := trim (Dom.text doc (Dom.first (Dom.query doc sel_panel_title))) in
  substring panelTitle (lastIndexOf panelTitle "(" + 1) (lastIndexOf panelTitle ")").

(** The text of the parent of the badge that contains [label], without the
    text of the badges below that parent. *)
Definition without_badge (label : string) : string :=
  let parent := Dom.parent (Dom.query doc (sel_badge label)) in
  let badge := Dom.text doc (Dom.find doc parent sel_view_badge) in
  replace (Dom.text doc parent) badge "".

Definition personalInfo : PersonalInfo.t :=
  PersonalInfo.mk username admissionNo (fst gender_dob) (snd gender_dob)
    (trim (without_badge "Admitted Branch"))
    (trim (without_badge "Current Semester"))
    "" college.

(** *** Academic information *)

Definition cgpa : string := trim (replace (without_badge "CGPA") ":" "").

Definition sgpaText : string :=
  let sgpaAll :=
    List.map (fun el => trim (Dom.text doc [el])) (Dom.query doc sel_sgpa_cells) in
  match List.find (fun s => negb (JsNumber.isNaN (JsNumber.parseFloat s)))
                  (rev sgpaAll) with
  | Some s => or_else s ""
  | None => ""
  end.

(** [((cgpaNum * 10) - 2.5).toFixed(2) + '%'] *)
Definition percentage_text (cgpaNum : number) : string :=
  JsNumber.toFixed2
    (JsNumber.sub (JsNumber.mul cgpaNum (JsNumber.of_Z 10))
                  (JsNumber.of_decimal false 25 (-1))) +:+ "%".

Definition percentage_of (cgpa_field : string) : string :=
  let cgpaNum := JsNumber.parseFloat cgpa_field in
  if negb (JsNumber.isNaN cgpaNum) then percentage_text cgpaNum else "".

Definition academicInfo : AcademicInfo.t :=
  let cgpa_field := or_else cgpa "" in
  AcademicInfo.mk cgpa_field (or_else sgpaText "") (percentage_of cgpa_field).

(** *** Activity points *)

Definition activityRows : Dom.selection := Dom.query doc sel_activity_rows.

(** One turn of [activityRows.each]: [breakdown.push] when the row is a
    category/points pair. *)
Definition activity_row (breakdown : list Breakdown.t) (row : Dom.path)
  : list Breakdown.t :=
  let cells := Dom.find doc [row] sel_td in
  if (2 <=? List.length cells)%nat then
    let key := cell_text cells 0 in
    let val := cell_text cells 1 in
    if truthy key && truthy val && negb (total_re_test key)
    then breakdown ++
         [Breakdown.mk key (JsNumber.or_else (JsNumber.parseInt val) (JsNumber.of_Z 0))]
    else breakdown
  else breakdown.

Definition breakdown : list Breakdown.t :=
  fold_left activity_row activityRows [].

Definition totalPointsText : string :=
  trim (Dom.text doc (Dom.last (Dom.find doc (Dom.last activityRows) sel_td))).

(** [breakdown.reduce((s, b) => s + (b.points || 0), 0)] *)
Definition sum_points (bs : list Breakdown.t) : number :=
  fold_left
    (fun s b => JsNumber.add s (JsNumber.or_else (Breakdown.points b) (JsNumber.of_Z 0)))
    bs (JsNumber.of_Z 0).

Definition totalPoints : number :=
  JsNumber.or_else (JsNumber.parseInt totalPointsText) (sum_points breakdown).

Definition activityPoints : ActivityPoints.t :=
  ActivityPoints.mk
    (JsNumber.toString totalPoints)
    "100"
    (if JsNumber.geb totalPoints (JsNumber.of_Z 100) then "Completed" else "Pending")
    breakdown.

(** *** Credits *)

Definition earnedCredits : number :=
  fold_left
    (fun earned row =>
       let creditText := cell_text (Dom.find doc [row] sel_td) 8 in
       let credit := JsNumber.parseFloat creditText in
       if negb (JsNumber.isNaN credit) then JsNumber.add earned credit else earned)
    (Dom.query doc sel_curriculum_rows) (JsNumber.of_Z 0).

Definition credits : Credits.t :=
  Credits.mk (JsNumber.toString earnedCredits) "162" "160" "2".

(** *** Semester results *)

Definition course_subject (cells : Dom.selection) : Subject.t :=
  let courseText := cell_text cells 1 in
  let code := match match_first course_code_re courseText with
              | Some c => c
              | None => ""
              end in
  let name :=
    if truthy code
    then trim (replace_nbsp_hyphen 0
                 (substring_from courseText (indexOf courseText code + len code)))
    else courseText in
  Subject.mk code name (cell_text cells 2) (cell_text cells 7) "".

Definition semester_subjects (semesterPanel : Dom.path) : list Subject.t :=
  fold_left
    (fun subjects row =>
       let cells := Dom.find doc [row] sel_td in
       if (9 <=? List.length cells)%nat then
         let subject := course_subject cells in
         if truthy (Subject.code subject) && truthy (Subject.name subject)
         then subjects ++ [subject] else subjects
       else subjects)
    (Dom.find doc [semesterPanel] sel_table_body_rows) [].

Definition semesterResults : list SemesterResult.t :=
  fold_left
    (fun results semesterPanel =>
       let semesterName :=
         trim (Dom.text doc (Dom.first (Dom.find doc [semesterPanel] sel_panel_title_a))) in
       let subjects := semester_subjects semesterPanel in
       if (0 <? List.length subjects)%nat
       then results ++ [SemesterResult.mk semesterName subjects]
       else results)
    (Dom.query doc sel_semester_panels) [].

(** The profile object of [/api/profile]. *)
Definition profile_of (registerNo : string) : Profile.t :=
  Profile.mk (toUpperCase registerNo) personalInfo academicInfo
    (Attendance.mk "" [] None) activityPoints credits semesterResults.

End Extraction.

(** The selectors of the results, attendance and announcements routes. *)
(** [.student-name, #studentName] *)
Definition sel_student_name : Dom.selector :=
  [[Dom.cls "student-name"]; [Dom.ident "studentName"]].
Definition sel_span_name : Dom.selector := [[Dom.tag_contains "span" "Name:"]].
Definition sel_td_name : Dom.selector := [[Dom.tag_contains "td" "Name"]].
(** [.exam-result, .result-card, table.result] *)
Definition sel_exams : Dom.selector :=
  [[Dom.cls "exam-result"]; [Dom.cls "result-card"]; [Dom.tag_cls "table" "result"]].
(** [.exam-name, h3, h4, caption] *)
Definition sel_exam_name : Dom.selector :=
  [[Dom.cls "exam-name"]; [Dom.tag "h3"]; [Dom.tag "h4"]; [Dom.tag "caption"]].
(** [.exam-date, .date] *)
Definition sel_exam_date : Dom.selector := [[Dom.cls "exam-date"]; [Dom.cls "date"]].
(** [.sgpa, td:contains("SGPA")] and [.cgpa, td:contains("CGPA")] *)
Definition sel_sgpa : Dom.selector := [[Dom.cls "sgpa"]; [Dom.tag_contains "td" "SGPA"]].
Definition sel_cgpa : Dom.selector := [[Dom.cls "cgpa"]; [Dom.tag_contains "td" "CGPA"]].
(** [tbody tr, tr.subject-row, tr] *)
Definition sel_exam_rows : Dom.selector :=
  [[Dom.tag "tbody"; Dom.tag "tr"]; [Dom.tag_cls "tr" "subject-row"]; [Dom.tag "tr"]].
(** [table tr] *)
Definition sel_table_rows : Dom.selector := [[Dom.tag "table"; Dom.tag "tr"]].
(** [.announcement, .panel, article, .news-item] *)
Definition sel_announcements : Dom.selector :=
  [[Dom.cls "announcement"]; [Dom.cls "panel"]; [Dom.tag "article"]; [Dom.cls "news-item"]].
(** [h3, h4, .title] *)
Definition sel_title : Dom.selector := [[Dom.tag "h3"]; [Dom.tag "h4"]; [Dom.cls "title"]].
(** [.date, .posted-date, time] *)
Definition sel_date : Dom.selector :=
  [[Dom.cls "date"]; [Dom.cls "posted-date"]; [Dom.tag "time"]].
(** [p, .description] *)
Definition sel_description : Dom.selector := [[Dom.tag "p"]; [Dom.cls "description"]].
Definition sel_a : Dom.selector := [[Dom.tag "a"]].

Section MoreExtraction.

Variable doc : Dom.document.

(** *** Public results *)

Definition studentName : string :=
  or_else (trim (Dom.text doc (Dom.query doc sel_student_name)))
    (or_else (trim (Dom.text doc (Dom.next doc (Dom.query doc sel_span_name))))
       (or_else (trim (Dom.text doc (Dom.next doc (Dom.query doc sel_td_name))))
          "Name not available")).

(** One turn of the loop over the rows of an exam. *)
Definition exam_row (subjects : list Subject.t) (row : Dom.path) : list Subject.t :=
  let cells := Dom.find doc [row] sel_td in
  if (3 <=? List.length cells)%nat then
    let subject :=
      Subject.mk (cell_text doc cells 0) (cell_text doc cells 1)
        (or_else (cell_text doc cells 2) "")
        (or_else (cell_text doc cells 3) "")
        (or_else (cell_text doc cells 4) "") in
    if truthy (Subject.code subject) && truthy (Subject.name subject)
    then subjects ++ [subject] else subjects
  else subjects.

Definition exam_of (elem : Dom.path) : Exam.t :=
  Exam.mk
    (trim (Dom.text doc (Dom.first (Dom.find doc [elem] sel_exam_name))))
    (trim (Dom.text doc (Dom.find doc [elem] sel_exam_date)))
    (or_else (trim (Dom.text doc (Dom.next doc (Dom.find doc [elem] sel_sgpa)))) "N/A")
    (or_else (trim (Dom.text doc (Dom.next doc (Dom.find doc [elem] sel_cgpa)))) "N/A")
    (fold_left exam_row (Dom.find doc [elem] sel_exam_rows) []).

(** One turn of the loop over the exam elements: [results.results.push]. *)
Definition exam_elem (results : list Exam.t) (elem : Dom.path) : list Exam.t :=
  let exam := exam_of elem in
  if truthy (Exam.examName exam) && (0 <? List.length (Exam.subjects exam))%nat
  then results ++ [exam] else results.

Definition results_of (registerNo successUrl : string) : Results.t :=
  Results.mk (toUpperCase registerNo) studentName
    (fold_left exam_elem (Dom.query doc sel_exams) [])
    successUrl.

(** *** Attendance *)

(** [((a / b) * 100).toFixed(2) + '%'] *)
Definition ratio_text (a b : number) : string :=
  JsNumber.toFixed2 (JsNumber.mul (JsNumber.div a b) (JsNumber.of_Z 100)) +:+ "%".

(** [b ? ((a / b) * 100).toFixed(2) + '%' : '0%'] *)
Definition ratio_or_zero (a b : number) : string :=
  if JsNumber.truthy b then ratio_text a b else "0%".

(** One turn of [$('table tr').each((i, row) => ...)]. *)
Definition attendance_row (subjects : list AttendanceSubject.t)
  (i : nat) (row : Dom.path) : list AttendanceSubject.t :=
  let cells := Dom.find doc [row] sel_td in
  if (4 <=? List.length cells)%nat && (0 <? i)%nat then
    let subject := cell_text doc cells 0 in
    let attended := JsNumber.or_else (JsNumber.parseInt (cell_text doc cells 1))
                                     (JsNumber.of_Z 0) in
    let total := JsNumber.or_else (JsNumber.parseInt (cell_text doc cells 2))
                                  (JsNumber.of_Z 0) in
    let percentage := or_else (cell_text doc cells 3) (ratio_or_zero attended total) in
    subjects ++ [AttendanceSubject.mk subject attended total percentage]
  else subjects.

(** [each] with its index. *)
Fixpoint each_indexed {A} (f : A -> nat -> Dom.path -> A) (i : nat)
  (rows : Dom.selection) (acc : A) : A :=
  match rows with
  | [] => acc
  | row :: rows' => each_indexed f (S i) rows' (f acc i row)
  end.

Definition attendance_subjects : list AttendanceSubject.t :=
  each_indexed attendance_row O (Dom.query doc sel_table_rows) [].

(** [subjects.reduce((acc, s) => ({ attended: acc.attended + s.attended,
    total: acc.total + s.total }), { attended: 0, total: 0 })] *)
Definition totals (subjects : list AttendanceSubject.t) : number * number :=
  fold_left
    (fun acc s =>
       (JsNumber.add (fst acc) (AttendanceSubject.attended s),
        JsNumber.add (snd acc) (AttendanceSubject.total s)))
    subjects (JsNumber.of_Z 0, JsNumber.of_Z 0).

Definition overall_of (subjects : list AttendanceSubject.t) : string :=
  let t := totals subjects in ratio_or_zero (fst t) (snd t).

Definition attendance_of (now : Z) : Attendance.t :=
  Attendance.mk (overall_of attendance_subjects) attendance_subjects (Some now).

(** *** Announcements *)

Definition link_of (links : list Link.t) (link : Dom.path) : list Link.t :=
  let href := Dom.attr doc [link] "href" in
  let linkText := trim (Dom.text doc [link]) in
  match href with
  | Some h =>
      if truthy h && truthy linkText
         && negb (includes (toLowerCase linkText) "read more")
      then links ++
           [Link.mk linkText
              (if startsWith h "http" then h else "https://ktu.edu.in" +:+ h)]
      else links
  | None => links
  end.

Definition announcement_elem (announcements : list Announcement.t)
  (elem : Dom.path) : list Announcement.t :=
  let title := trim (Dom.text doc (Dom.first (Dom.find doc [elem] sel_title))) in
  let date := trim (Dom.text doc (Dom.find doc [elem] sel_date)) in
  let description :=
    trim (Dom.text doc (Dom.first (Dom.find doc [elem] sel_description))) in
  let links := fold_left link_of (Dom.find doc [elem] sel_a) [] in
  if truthy title
  then announcements ++ [Announcement.mk title date description links]
  else announcements.

Definition announcements_of (now : Z) : Announcements.t :=
  let announcements := fold_left announcement_elem (Dom.query doc sel_announcements) [] in
  Announcements.mk (take 20 announcements) (List.length announcements) now.

End MoreExtraction.

(** ** The routes *)

(** [req.body] as the body parsers leave it: the two fields that the routes
    read, each a JSON value or absent. *)
Record Fields : Type := mkFields {
  body_registerNo : option Json;
  body_password : option Json }.

(** A request to one of the four routes.  [PostProfile] and
    [PostAttendance] carry a body whose two fields are texts or absent, the
    documented use; [PostProfileBody] and [PostAttendanceBody] carry any
    body, or none ([None]: [req.body] is undefined, no parser has read a
    body).  The route parameter of the results route is always there, its
    query parameter may be absent. *)
Inductive Request : Type :=
| PostProfile (registerNo password : option string)
| GetResults (registerNo : string) (examId : option string)
| PostAttendance (registerNo password : option string)
| GetAnnouncements
| PostProfileBody (body : option Fields)
| PostAttendanceBody (body : option Fields).

Definition truthy_opt (o : option string) : bool :=
  match o with Some s => truthy s | None => false end.

(** [!!v] for a field that may be absent. *)
Definition truthy_field (v : option Json) : bool :=
  match v with Some j => JsValue.truthy j | None => false end.

(** The TypeErrors of the engine that the routes can run into, with the
    messages of V8. *)
Definition TypeError (message : string) : JsError :=
  mkError "TypeError" message None.

(** [const { registerNo, password } = req.body] when [req.body] is
    undefined. *)
Definition no_body_error : JsError :=
  TypeError "Cannot destructure property 'registerNo' of 'req.body' as it is undefined.".

(** [String(v)] for an object whose [toString] is no function. *)
Definition not_primitive_error : JsError :=
  TypeError "Cannot convert object to primitive value".

(** [registerNo.toUpperCase()] when [registerNo] is no string. *)
Definition no_toUpperCase_error : JsError :=
  TypeError "registerNo.toUpperCase is not a function".

(** [err?.message || String(err)] *)
Definition error_text (err : JsError) : string :=
  or_else (err_message err) (err_name err).

Definition internal_error (what : string) (err : JsError) : Response :=
  status_json 500 (ErrorBody.mk what (Some (error_text err)) None None None).

(** [examId || 'all'] *)
Definition exam_key (examId : option string) : string :=
  match examId with Some e => or_else e "all" | None => "all" end.

Definition profile_cacheKey (registerNo : string) : string :=
  "profile_" +:+ toUpperCase registerNo.

Definition results_cacheKey (registerNo : string) (examId : option string) : string :=
  "results_" +:+ toUpperCase registerNo +:+ "_" +:+ exam_key examId.

Definition announcements_cacheKey : string := "announcements".

Definition resultsUrls (registerNo : string) : list string :=
  ["https://app.ktu.edu.in/public/results?registerNo=" +:+ registerNo;
   "https://results.ktu.edu.in/results?registerNo=" +:+ registerNo;
   "https://app.ktu.edu.in/public/studentresults/" +:+ registerNo].

(** [examId ? `${url}&examId=${examId}` : url] *)
Definition with_examId (url : string) (examId : option string) : string :=
  match examId with
  | Some e => if truthy e then url +:+ "&examId=" +:+ e else url
  | None => url
  end.

(** [response && response.status === 200 && response.data] *)
Definition usable (response : option AxiosResponse) : bool :=
  match response with
  | Some r => (status r =? 200) && JsValue.truthy (data r)
  | None => false
  end.

(** [!response || !response.data] *)
Definition empty_response (response : option AxiosResponse) : bool :=
  match response with
  | Some r => negb (JsValue.truthy (data r))
  | None => true
  end.

Section Routes.

Context {Browser Page : Type}.
Variable env : Env Browser Page.

(** [Date.now()] *)
Definition now : M Z := fun w => (Return (clock w), w).

(** What [cheerio.load(content)] and the queries on its result see: the
    document of a text, and for another value what the library makes of
    it. *)
Definition parse (content : Json) : Dom.document + JsError :=
  match content with
  | JStr html => inl (cheerio_load env html)
  | _ => cheerio_load_value env content
  end.

(** [const $ = cheerio.load(content)], with the queries that follow: an
    error of theirs is thrown here. *)
Definition load (content : Json) : M Dom.document :=
  match parse content with
  | inl doc => ret doc
  | inr err => throw err
  end.

(** [REGNO_RE.test(v)]: the pattern is tried on [String(v)]. *)
Definition REGNO_RE_test_value (v : Json) : M bool :=
  match JsValue.toString v with
  | Some s => ret (REGNO_RE_test s)
  | None => throw not_primitive_error
  end.

(** *** POST /api/profile *)

(** The route from the cache key on (lines 137 to 280), for a register
    number that is a text and has passed the checks. *)
Definition profile_fetch (registerNo : string) (password : Json) : M Response :=
  let cacheKey := profile_cacheKey registerNo in
  let* cached := cache_get cacheKey in
  match cached with
  | Some v => ret (json_cached v)
  | None =>
      let* pageContent := loginStudent env registerNo password in
      if negb (truthy_opt pageContent) then
        ret (status_json 401 (error_only "Invalid credentials or login failed"))
      else
        let doc := cheerio_load env (default "" pageContent) in
        let profile := profile_of doc registerNo in
        cache_set cacheKey (VProfile profile) ;;;
        ret (json (VProfile profile))
  end.

(** The route on a body whose two fields are texts or absent. *)
Definition profile_route (registerNo password : option string) : M Response :=
  try_catch
    (if negb (truthy_opt registerNo) || negb (truthy_opt password) then
       ret (status_json 400 (error_only "Register number and password are required"))
     else
       let registerNo := default "" registerNo in
       let password := default "" password in
       if negb (REGNO_RE_test registerNo) then
         ret (status_json 400 (error_only "Invalid register number format"))
       else
         profile_fetch registerNo password)
    (fun err => ret (internal_error "Failed to fetch student profile" err)).

(** The route on any body.  Without a body the destructuring throws; the
    format check converts the register number to a string, which can throw;
    a register number that is no string has no [toUpperCase]. *)
Definition profile_handler (body : option Fields) : M Response :=
  try_catch
    (match body with
     | None => throw no_body_error
     | Some fields =>
         let registerNo := body_registerNo fields in
         let password := body_password fields in
         if negb (truthy_field registerNo) || negb (truthy_field password) then
           ret (status_json 400 (error_only "Register number and password are required"))
         else
           let registerNo := default JNull registerNo in
           let password := default JNull password in
           let* valid := REGNO_RE_test_value registerNo in
           if negb valid then
             ret (status_json 400 (error_only "Invalid register number format"))
           else
             match registerNo with
             | JStr registerNo => profile_fetch registerNo password
             | _ => throw no_toUpperCase_error
             end
     end)
    (fun err => ret (internal_error "Failed to fetch student profile" err)).

(** *** GET /api/results/:registerNo *)

(** The loop over [resultsUrls]: the state is [response]; the result is the
    final [response] and [successUrl].  An exception of [makeRequest] leaves
    [response] as it was. *)
Fixpoint try_urls (examId : option string) (urls : list string)
  (response : option AxiosResponse)
  : M (option AxiosResponse * option string) :=
  match urls with
  | [] => ret (response, None)
  | url :: urls' =>
      let* attempt :=
        try_catch
          (let* r := makeRequest env (with_examId url examId)
                       (mkOptions "GET" None) default_retries in
           ret (Some r))
          (fun _ => ret None) in
      match attempt with
      | Some r => if usable r then ret (r, Some url) else try_urls examId urls' r
      | None => try_urls examId urls' response
      end
  end.

Definition results_route (registerNo : string) (examId : option string) : M Response :=
  try_catch
    (if negb (truthy registerNo) || negb (REGNO_RE_test registerNo) then
       ret (status_json 400
              (ErrorBody.mk "Invalid register number format" None
                 (Some "Format: ABC20CS001") None None))
     else
       let cacheKey := results_cacheKey registerNo examId in
       let* cached := cache_get cacheKey in
       match cached with
       | Some v => ret (json_cached v)
       | None =>
           let* '(response, successUrl) := try_urls examId (resultsUrls registerNo) None in
           match response, successUrl with
           | Some response, Some successUrl =>
               let* doc := load (JsValue.or_else (data response) "") in
               let results := results_of doc registerNo successUrl in
               if negb (0 <? List.length (Results.results results))%nat then
                 ret (status_json 404
                        (ErrorBody.mk "No results found" None None
                           (Some (toUpperCase registerNo))
                           (Some (Results.studentName results))))
               else
                 cache_set cacheKey (VResults results) ;;;
                 ret (json (VResults results))
           | _, _ =>
               ret (status_json 404
                      (ErrorBody.mk "Could not fetch results from KTU portal" None None
                         (Some (toUpperCase registerNo)) None))
           end
       end)
    (fun err => ret (internal_error "Failed to fetch results" err)).

(** *** POST /api/attendance *)

(** The route from the login on (lines 364 to 387).  The register number
    is what the caller sent: this route never calls [toUpperCase]. *)
Definition attendance_fetch (registerNo password : Json) : M Response :=
  let* sessionCookie := loginStudent env registerNo password in
  if negb (truthy_opt sessionCookie) then
    ret (status_json 401 (error_only "Invalid credentials"))
  else
    let* response :=
      makeRequest env KTU_ATTENDANCE_URL
        (mkOptions "GET" (Some {[ "Cookie" := default "" sessionCookie ]}))
        default_retries in
    if empty_response response then
      ret (status_json 502 (error_only "Empty response from KTU attendance"))
    else
      let* doc := load (JsValue.or_else (default JNull (data <$> response)) "") in
      let* lastUpdated := now in
      ret (json (VAttendance (attendance_of doc lastUpdated))).

(** The route on a body whose two fields are texts or absent. *)
Definition attendance_route (registerNo password : option string) : M Response :=
  try_catch
    (if negb (truthy_opt registerNo) || negb (truthy_opt password) then
       ret (status_json 400 (error_only "Register number and password required"))
     else
       let registerNo := default "" registerNo in
       let password := default "" password in
       if negb (REGNO_RE_test registerNo) then
         ret (status_json 400 (error_only "Invalid register number format"))
       else
         attendance_fetch registerNo password)
    (fun err => ret (internal_error "Failed to fetch attendance" err)).

(** The route on any body. *)
Definition attendance_handler (body : option Fields) : M Response :=
  try_catch
    (match body with
     | None => throw no_body_error
     | Some fields =>
         let registerNo := body_registerNo fields in
         let password := body_password fields in
         if negb (truthy_field registerNo) || negb (truthy_field password) then
           ret (status_json 400 (error_only "Register number and password required"))
         else
           let registerNo := default JNull registerNo in
           let password := default JNull password in
           let* valid := REGNO_RE_test_value registerNo in
           if negb valid then
             ret (status_json 400 (error_only "Invalid register number format"))
           else
             attendance_fetch registerNo password
     end)
    (fun err => ret (internal_error "Failed to fetch attendance" err)).

(** *** GET /api/announcements *)

Definition announcements_route : M Response :=
  try_catch
    (let cacheKey := announcements_cacheKey in
     let* cached := cache_get cacheKey in
     match cached with
     | Some v => ret (json_cached v)
     | None =>
         let* response :=
           makeRequest env KTU_ANNOUNCEMENTS_URL (mkOptions "GET" None)
             default_retries in
         if empty_response response then
           ret (status_json 502 (error_only "Empty response from KTU announcements"))
         else
           let* doc := load (JsValue.or_else (default JNull (data <$> response)) "") in
           let* lastUpdated := now in
           let result := announcements_of doc lastUpdated in
           cache_set cacheKey (VAnnouncements result) ;;;
           ret (json (VAnnouncements result))
     end)
    (fun err => ret (internal_error "Failed to fetch announcements" err)).

(** The four routes. *)
Definition handle (req : Request) : M Response :=
  match req with
  | PostProfile registerNo password => profile_route registerNo password
  | GetResults registerNo examId => results_route registerNo examId
  | PostAttendance registerNo password => attendance_route registerNo password
  | GetAnnouncements => announcements_route
  | PostProfileBody body => profile_handler body
  | PostAttendanceBody body => attendance_handler body
  end.

(** What is sent back: the answer of the route, or, were the route to let
    an exception out, the answer of the error middleware (lines 438 to
    441). *)
Definition respond (req : Request) (w : World) : Response * World :=
  match handle req w with
  | (Return r, w') => (r, w')
  | (Throw err, w') => (internal_error "Internal server error" err, w')
  end.

(** *** Runs of the server

    Requests are handled one at a time.  Between two requests time may pass
    and the cache may drop entries that have expired (its periodic check). *)

Definition tick (d : Z) (w : World) : World :=
  mkWorld (clock w + d) (cache w) (requests w) (launches w) (trace w).

Definition sweep (w : World) : World :=
  mkWorld (clock w)
    (filter (fun kv => expired (clock w) (snd kv) = false) (cache w))
    (requests w) (launches w) (trace w).

Inductive step : World -> World -> Prop :=
| step_request (req : Request) (w : World) : step w (snd (respond req w))
| step_tick (d : Z) (w : World) : 0 <= d -> step w (tick d w)
| step_sweep (w : World) : step w (sweep w).

Inductive reachable : World -> Prop :=
| reach_initial (t : Z) : reachable (initial t)
| reach_step (w w' : World) : reachable w -> step w w' -> reachable w'.

End Routes.

End Server.

(* ===================================================================== *)
(** * A small portal, for concrete runs *)
(* ===================================================================== *)

(** A concrete outside world: a portal that serves fixed pages.  The browser
    state is the number of the session, the page state is the current URL.
    The pages are given as documents; the parser maps each HTML text to its
    document.  Only a text can be typed into a field of the login form. *)

Module Portal.
Import JsValue Server.

Definition el (t : string) (attrs : list (string * string)) (cs : list Dom.node)
  : Dom.node := Dom.Element t attrs cs.
Definition td (s : string) : Dom.node := el "td" [] [Dom.Text s].
Definition th (s : string) : Dom.node := el "th" [] [Dom.Text s].
Definition tr (cs : list Dom.node) : Dom.node := el "tr" [] cs.
Definition page (body : list Dom.node) : Dom.document :=
  [el "html" [] [el "head" [] []; el "body" [] body]].

(** The profile page: a title, the CGPA badge and the activity table. *)
Definition profile_page (title cgpa_text : string)
  (activity : list (list string)) : Dom.document :=
  page
    [el "h3" [("class", "profile-title")] [Dom.Text title];
     el "li" [("class", "list-group-item")]
       [el "span" [("class", "view-badge")] [Dom.Text "CGPA"];
        Dom.Text cgpa_text];
     el "div" [("id", "collapseSix")]
       [el "table" []
          [el "tbody" [] (List.map (fun cells => tr (List.map td cells)) activity)]]].

(** The attendance page: a header row and one row per subject. *)
Definition attendance_page (rows : list (list string)) : Dom.document :=
  page
    [el "table" []
       (tr [th "Subject"; th "Attended"; th "Total"; th "Percentage"]
        :: List.map (fun cells => tr (List.map td cells)) rows)].

(** A results page with one exam of one subject. *)
Definition results_page : Dom.document :=
  page
    [el "span" [("class", "student-name")] [Dom.Text "Asha"];
     el "div" [("class", "exam-result")]
       [el "h3" [] [Dom.Text "B.Tech S1"];
        el "table" []
          [tr [td "MAT101"; td "Calculus"; td "4"; td "A"; td "9"]]]].

(** A page without any result. *)
Definition empty_page : Dom.document := page [].

Definition profile_html : string := "<html><!-- profile --></html>".
Definition plain_title_html : string := "<html><!-- profile, plain title --></html>".
Definition results_html : string := "<html><!-- results --></html>".
Definition attendance_html : string := "<html><!-- attendance --></html>".
Definition session_cookie : string := "JSESSIONID=4F2A9C".

Definition activity_example : list (list string) :=
  [["NSS"; "60"]; ["Tech"; "35"]; ["Total"; "n/a"]].

Definition attendance_example : list (list string) :=
  [["Maths"; "34"; "40"; ""]; ["Physics"; "30"; "35"; ""]].

Definition load (html : string) : Dom.document :=
  if String.eqb html profile_html
  then profile_page "Asha Nair (KTU123)" " : 8.50" activity_example
  else if String.eqb html plain_title_html
  then profile_page "Asha Nair" " : 8.50" activity_example
  else if String.eqb html results_html then results_page
  else if String.eqb html attendance_html then attendance_page attendance_example
  else empty_page.

(** What [cheerio.load] makes of a value that is no text.  Linking the
    nodes of the tree throws on a number, a boolean or a string
    ([node.prev = ...]), and on [null] ([node.parent]); an array is taken
    for a list of nodes, and fails at its first element of these kinds; an
    object is taken for a node of no known kind, which no selector
    matches. *)
Definition link_error (v : Json) : option JsError :=
  let on := fun what => Some (TypeError ("Cannot create property 'prev' on " +:+ what)) in
  match v with
  | JNum n => on ("number '" +:+ JsNumber.toString n +:+ "'")
  | JBool b => on ("boolean '" +:+ (if b then "true" else "false") +:+ "'")
  | JStr s => on ("string '" +:+ s +:+ "'")
  | JNull => Some (TypeError "Cannot read properties of null (reading 'parent')")
  | JArr _ | JObj _ => None
  end.

Definition load_value (v : Json) : Dom.document + JsError :=
  let nodes := match v with JArr items => items | _ => [v] end in
  match List.find (fun x => match link_error x with Some _ => true | None => false end)
                  nodes with
  | Some x => match link_error x with Some err => inr err | None => inl [] end
  | None => inl []
  end.

(** Every request is answered with status 200 and the given body, after
    [ms] milliseconds. *)
Definition serve (body : Json) (ms : N) : nat -> AxiosRequest -> Outcome * N :=
  fun _ _ => (Fulfilled (mkAxiosResponse 200 body), ms).

(** The first [n] requests fail with the given status, the later ones are
    answered. *)
Definition fail_first (n : nat) (st : Z) (body : Json)
  : nat -> AxiosRequest -> Outcome * N :=
  fun k _ =>
    if (k <? n)%nat
    then (Rejected (mkError "AxiosError" "Request failed" (Some st)), 30%N)
    else (Fulfilled (mkAxiosResponse 200 body), 30%N).

(** The portal: the login succeeds when [login_ok]; the details page reads
    [details]. *)
Definition env (net : nat -> AxiosRequest -> Outcome * N) (login_ok : bool)
  (details : string) : Env nat string :=
  mkEnv nat string net load load_value
    (fun n => (Some n, 2500%N))
    (fun _ => Some "about:blank")
    (fun url _ => Some url)
    (fun _ p => if String.eqb p KTU_LOGIN_URL then Some "csrf-81d3" else None)
    (fun _ text p => match text with JStr _ => Some p | _ => None end)
    (fun _ p => Some p)
    (fun p => if login_ok then Some KTU_STUDENT_HOME else None)
    (fun p => if String.eqb p KTU_DETAILS_URL then Some details else Some "")
    (fun _ => session_cookie)
    (fun _ => None).

End Portal.


(* ===================================================================== *)
(** * The vocabulary of the properties *)
(* ===================================================================== *)

Module ServerSpec.
Import JsValue JsString Server.

(** The trimmed texts of the [td] cells of a row. *)
Definition cells_of (doc : Dom.document) (row : Dom.path) : list string :=
  List.map (fun c => trim (Dom.text doc [c])) (Dom.find doc [row] sel_td).

(** The [i]-th cell of a row of texts, empty when there is none. *)
Definition cell (cells : list string) (i : nat) : string := nth i cells "".

Definition has_char (c : ascii) (s : string) : Prop :=
  In c (list_ascii_of_string s).

(** The title text has neither an opening nor a closing parenthesis. *)
Definition no_parenthesis (s : string) : Prop :=
  ~ has_char "("%char s /\ ~ has_char ")"%char s.

(** Events other than cache reads and writes: requests, waits, browser
    calls. *)
Definition is_fetch (e : Event) : Prop :=
  match e with
  | EvCacheGet _ | EvCacheSet _ => False
  | _ => True
  end.

(** [w'] comes after [w] in a run that did not touch the cache: the cache is
    the same and the trace grew by fetch events. *)
Definition extends (w w' : World) : Prop :=
  cache w' = cache w /\
  exists evs, trace w' = trace w ++ evs /\ Forall is_fetch evs.

Definition quiet {A : Type} (m : M A) : Prop :=
  forall w, extends w (snd (m w)).

(** The world after [cache.get(key)]: the read is logged, and an expired
    entry under [key] is dropped. *)
Definition after_get (key : string) (w : World) : World :=
  mkWorld (clock w)
    (match cache w !! key with
     | Some entry => if expired (clock w) entry then delete key (cache w) else cache w
     | None => cache w
     end)
    (requests w) (launches w) (trace w ++ [EvCacheGet key]).

(** The world after [cache.set(key, v)]. *)
Definition after_set (key : string) (v : Value) (w : World) : World :=
  mkWorld (clock w) (<[key := (clock w + stdTTL * 1000, v)]> (cache w))
    (requests w) (launches w) (trace w ++ [EvCacheSet key]).

Definition is_error (resp : Response) : Prop :=
  exists e, res_body resp = BError e.

(** An error body without a [registerNo] field. *)
Definition plain_error (resp : Response) : Prop :=
  exists e, res_body resp = BError e /\ ErrorBody.registerNo e = None.

(** The events of [k] failed attempts, the first with loop counter [i]:
    each request is followed by its wait of [1000 * (i + 1)] ms. *)
Fixpoint backoff (opts : AxiosRequest) (i k : nat) : list Event :=
  match k with
  | O => []
  | S k' =>
      EvRequest opts :: EvSleep (1000 * (Z.of_nat i + 1)) :: backoff opts (S i) k'
  end.

Definition logged (e : Event) (w : World) : World := snd (log e w).

(** A results record worth answering with: at least one exam, and every
    exam has at least one subject. *)
Definition good_results (r : Results.t) : Prop :=
  Results.results r <> [] /\
  Forall (fun e => Exam.subjects e <> []) (Results.results r).

(** The key under which a value may sit: a profile under
    [profile_<its registerNo>], a results record under
    [results_<its registerNo>_<exam>], the announcements under their fixed
    key; an attendance record is never stored. *)
Definition well_keyed (key : string) (v : Value) : Prop :=
  match v with
  | VProfile p => key = "profile_" +:+ Profile.registerNo p
  | VResults r =>
      (exists ek, key = "results_" +:+ Results.registerNo r +:+ "_" +:+ ek) /\
      String.length (Results.registerNo r) = 10%nat /\
      good_results r
  | VAnnouncements _ => key = announcements_cacheKey
  | VAttendance _ => False
  end.

Definition cache_ok (c : gmap string (Z * Value)) : Prop :=
  forall key entry, c !! key = Some entry -> well_keyed key (snd entry).

(** The routes that use the cache: all but attendance. *)
Definition uses_cache (req : Request) : Prop :=
  match req with
  | PostAttendance _ _ | PostAttendanceBody _ => False
  | _ => True
  end.

(** Every fetch event (request, wait, browser call) of [evs] comes after a
    read of the cache. *)
Definition cache_checked_first (evs : list Event) : Prop :=
  forall pre e post,
    evs = pre ++ e :: post -> is_fetch e -> exists key, In (EvCacheGet key) pre.

(** The cache of [w'] is that of [w], except that entries already expired at
    the time of [w] may be gone. *)
Definition only_pruned (w w' : World) : Prop :=
  forall k,
    cache w' !! k = cache w !! k \/
    (cache w' !! k = None /\
     exists e, cache w !! k = Some e /\ expired (clock w) e = true).

(** The runs of a route that uses the cache. *)
Inductive cached_flow (w : World) (resp : Response) (w' : World) : Prop :=
| flow_refused :
    w' = w -> res_status resp <> 200 -> cached_flow w resp w'
| flow_hit (key : string) (v : Value) :
    live (clock w) (cache w) key = Some v ->
    resp = json_cached v -> w' = after_get key w -> cached_flow w resp w'
| flow_failed (key : string) :
    extends (after_get key w) w' -> res_status resp <> 200 ->
    cached_flow w resp w'
| flow_fresh (key : string) (v : Value) (w1 : World) :
    extends (after_get key w) w1 ->
    resp = json v -> w' = after_set key v w1 -> cached_flow w resp w'.

(** The register number of a request, when it carries one as a text. *)
Definition request_registerNo (req : Request) : option string :=
  match req with
  | PostProfile r _ | PostAttendance r _ => r
  | GetResults r _ => Some r
  | GetAnnouncements => None
  | PostProfileBody body | PostAttendanceBody body =>
      match body ≫= body_registerNo with
      | Some (JStr r) => Some r
      | _ => None
      end
  end.

(** The [registerNo] field of an answer, when it has one. *)
Definition registerNo_field (resp : Response) : option string :=
  match res_body resp with
  | BValue (VProfile p) _ => Some (Profile.registerNo p)
  | BValue (VResults r) _ => Some (Results.registerNo r)
  | BValue _ _ => None
  | BError e => ErrorBody.registerNo e
  end.

(** The cache keys a request may use, from the upper-case form [U] of its
    register number. *)
Definition keys_for (req : Request) (U : string) : list string :=
  match req with
  | PostProfile _ _ | PostProfileBody _ => ["profile_" +:+ U]
  | GetResults _ examId => ["results_" +:+ U +:+ "_" +:+ exam_key examId]
  | _ => []
  end.

Definition is_cache_event (key : string) (e : Event) : Prop :=
  e = EvCacheGet key \/ e = EvCacheSet key.

(** No code unit of the string is a lower-case ASCII letter. *)
Definition no_lower (s : string) : Prop :=
  Forall (fun c => isLower c = false) (list_ascii_of_string s).

(** The claim's "formatted to 2 decimals": the sign, the digits of the
    integer part, a point and two digits, for a finite value. *)
Definition two_decimal_text (x : number) : string :=
  match x with
  | S754_finite s m e =>
      (if s then "-" else "") +:+ JsNumber.two_decimals (JsNumber.hundredths m e)
  | S754_zero _ => "0.00"
  | _ => ""
  end.

(** The percentage as the claim states it: computed when the CGPA text
    parses as a finite number, empty otherwise. *)
Definition stated_percentage (cgpa_field : string) : string :=
  let c := JsNumber.parseFloat cgpa_field in
  if JsNumber.isFinite c
  then two_decimal_text
         (JsNumber.sub (JsNumber.mul c (JsNumber.of_Z 10))
                       (JsNumber.of_decimal false 25 (-1))) +:+ "%"
  else "".

Definition percentage_as_stated (doc : Dom.document) : Prop :=
  AcademicInfo.percentage (academicInfo doc)
  = stated_percentage (AcademicInfo.cgpa (academicInfo doc)).

(** [c * 10 - 2.5] *)
Definition scaled_cgpa (c : number) : number :=
  JsNumber.sub (JsNumber.mul c (JsNumber.of_Z 10)) (JsNumber.of_decimal false 25 (-1)).

(** [|x| < 10^21] for a finite [x]: the range where [toFixed] writes
    decimals. *)
Definition below_1e21 (x : number) : bool :=
  JsNumber.isFinite x && negb (JsNumber.geb (SFabs x) (JsNumber.of_Z (10 ^ 21))).

(** Two profile pages: on the first the CGPA text reads Infinity, on the
    second 1e21. *)
Definition infinite_cgpa_page : Dom.document :=
  Portal.profile_page "Asha Nair (KTU123)" " : Infinity" [].
Definition huge_cgpa_page : Dom.document :=
  Portal.profile_page "Asha Nair (KTU123)" " : 1e21" [].

(** The activity table as rows of cell texts, in document order. *)
Definition activity_table (doc : Dom.document) : list (list string) :=
  List.map (cells_of doc) (activityRows doc).

(** A row of the breakdown: at least two cells, the first two not empty,
    the first not a total label. *)
Definition is_category_row (cells : list string) : bool :=
  (2 <=? List.length cells)%nat
  && truthy (cell cells 0) && truthy (cell cells 1)
  && negb (total_re_test (cell cells 0)).

(** Its entry: the category and the points as an integer, 0 when the text
    is no integer. *)
Definition category_points (cells : list string) : Breakdown.t :=
  Breakdown.mk (cell cells 0)
    (JsNumber.or_else (JsNumber.parseInt (cell cells 1)) (JsNumber.of_Z 0)).

Definition stated_breakdown (table : list (list string)) : list Breakdown.t :=
  List.map category_points (List.filter is_category_row table).

(** The last cell of the last row. *)
Definition last_cell (table : list (list string)) : string :=
  List.last (List.last table []) "".

(** The total as the claim states it: the sum of the breakdown exactly when
    the last cell is no integer. *)
Definition stated_total (table : list (list string)) : number :=
  let t := JsNumber.parseInt (last_cell table) in
  if JsNumber.isNaN t then sum_points (stated_breakdown table) else t.

(** The total as the code computes it: the sum of the breakdown when the
    last cell is no integer or is zero. *)
Definition amended_total (table : list (list string)) : number :=
  let t := JsNumber.parseInt (last_cell table) in
  if JsNumber.truthy t then t else sum_points (stated_breakdown table).

Definition activity_with (total : number) (table : list (list string))
  : ActivityPoints.t :=
  ActivityPoints.mk (JsNumber.toString total) "100"
    (if JsNumber.geb total (JsNumber.of_Z 100) then "Completed" else "Pending")
    (stated_breakdown table).

Definition activity_as_stated (doc : Dom.document) : Prop :=
  activityPoints doc
  = activity_with (stated_total (activity_table doc)) (activity_table doc).

(** A profile page whose activity table ends with a total of 0. *)
Definition zero_total_page : Dom.document :=
  Portal.profile_page "Asha Nair (KTU123)" " : 8.50" [["NSS"; "60"]; ["Total"; "0"]].

(** The rows of all tables of the attendance page as cell texts, in document
    order, each with its index. *)
Definition attendance_table (doc : Dom.document) : list (nat * list string) :=
  let rows := Dom.query doc sel_table_rows in
  combine (seq 0 (List.length rows)) (List.map (cells_of doc) rows).

(** A subject row: not the first row, and at least four cells. *)
Definition is_subject_row (row : nat * list string) : bool :=
  (4 <=? List.length (snd row))%nat && (0 <? fst row)%nat.

Definition count_of (s : string) : number :=
  JsNumber.or_else (JsNumber.parseInt s) (JsNumber.of_Z 0).

(** The subject of a row as the claim states it. *)
Definition stated_subject (row : nat * list string) : AttendanceSubject.t :=
  let cells := snd row in
  AttendanceSubject.mk (cell cells 0) (count_of (cell cells 1)) (count_of (cell cells 2))
    (or_else (cell cells 3)
       (ratio_text (count_of (cell cells 1)) (count_of (cell cells 2)))).

(** The subject of a row as the code builds it: the computed percentage is
    0% when the total is 0. *)
Definition amended_subject (row : nat * list string) : AttendanceSubject.t :=
  let cells := snd row in
  AttendanceSubject.mk (cell cells 0) (count_of (cell cells 1)) (count_of (cell cells 2))
    (or_else (cell cells 3)
       (ratio_or_zero (count_of (cell cells 1)) (count_of (cell cells 2)))).

Definition sum_of (f : AttendanceSubject.t -> number)
  (subjects : list AttendanceSubject.t) : number :=
  fold_left (fun acc s => JsNumber.add acc (f s)) subjects (JsNumber.of_Z 0).

Definition attendance_as_stated (doc : Dom.document) : Prop :=
  attendance_subjects doc
  = List.map stated_subject (List.filter is_subject_row (attendance_table doc)) /\
  overall_of (attendance_subjects doc)
  = ratio_text (sum_of AttendanceSubject.attended (attendance_subjects doc))
               (sum_of AttendanceSubject.total (attendance_subjects doc)).

(** An attendance page with one subject for which no class was held yet:
    attended 0 of 0, and an empty percentage cell. *)
Definition zero_total_attendance : Dom.document :=
  Portal.attendance_page [["Maths"; "0"; "0"; ""]].

(** The portal answers every request with the results page. *)
Definition portal : Env nat string :=
  Portal.env (Portal.serve Portal.results_html 40) true Portal.profile_html.

(** The portal answers every request with the attendance page. *)
Definition attendance_portal : Env nat string :=
  Portal.env (Portal.serve Portal.attendance_html 40) true Portal.profile_html.

(** The title of the profile page has no parenthesis. *)
Definition plain_portal : Env nat string :=
  Portal.env (Portal.serve Portal.results_html 40) true Portal.plain_title_html.

(** The first two requests fail with status 503. *)
Definition flaky_portal : Env nat string :=
  Portal.env (Portal.fail_first 2 503 Portal.results_html) true Portal.profile_html.

(** The portal never answers. *)
Definition dead_portal : Env nat string :=
  Portal.env (Portal.fail_first 10 503 Portal.results_html) true Portal.profile_html.

(** The portal answers every request with the JSON text [123], which axios
    hands over as a number. *)
Definition number_portal : Env nat string :=
  Portal.env (Portal.serve (JNum (JsNumber.of_Z 123)) 40) true Portal.profile_html.

(** The world after one results request for abc20cs001. *)
Definition after_results : World :=
  snd (respond portal (GetResults "abc20cs001" None) (initial 0)).

(** The outbound uses of the register number [reg], were they upper-case:
    the URLs requested are those of the upper-case form, and so is the text
    typed into the user name field. *)
Definition outbound_upper (reg : string) (e : Event) : Prop :=
  match e with
  | EvRequest r => In (req_url r) (resultsUrls (toUpperCase reg))
  | EvBrowser (TypeText sel t) => sel = username_selector -> t = toUpperCase reg
  | _ => True
  end.

(** The title of an announcement element, and the entry made of the
    element. *)
Definition title_of (doc : Dom.document) (elem : Dom.path) : string :=
  trim (Dom.text doc (Dom.first (Dom.find doc [elem] sel_title))).

Definition announcement_of (doc : Dom.document) (elem : Dom.path) : Announcement.t :=
  Announcement.mk (title_of doc elem)
    (trim (Dom.text doc (Dom.find doc [elem] sel_date)))
    (trim (Dom.text doc (Dom.first (Dom.find doc [elem] sel_description))))
    (fold_left (link_of doc) (Dom.find doc [elem] sel_a) []).

(** All the announcements of a page: the entries of the elements that have
    a title, in document order. *)
Definition parsed_announcements (doc : Dom.document) : list Announcement.t :=
  List.map (announcement_of doc)
    (List.filter (fun elem => truthy (title_of doc elem))
       (Dom.query doc sel_announcements)).

(** A call made on the page during a login session: any browser call but
    the launch and the close. *)
Definition session_call (e : Event) : Prop :=
  exists c, e = EvBrowser c /\ c <> Launch /\ c <> Close.

Section RunShapes.

Context {Browser Page : Type}.
Variable env : Env Browser Page.

(** The runs of [POST /api/profile] on a body with the fields [registerNo]
    and [password]: answered at once, by a failed check (400) or by an
    exception at the head of the route (500); answered from the cache;
    failed after a cache miss; fetched, stored and answered. *)
Inductive profile_run (registerNo password : option Json) (w : World)
  : Response -> World -> Prop :=
| profile_invalid (resp : Response) :
    res_status resp = 400 \/ res_status resp = 500 -> plain_error resp ->
    profile_run registerNo password w resp w
| profile_hit (reg : string) (v : Value) :
    registerNo = Some (JStr reg) -> REGNO_RE_test reg = true ->
    live (clock w) (cache w) (profile_cacheKey reg) = Some v ->
    profile_run registerNo password w (json_cached v)
      (after_get (profile_cacheKey reg) w)
| profile_failed (reg : string) (resp : Response) (w1 : World) :
    registerNo = Some (JStr reg) -> REGNO_RE_test reg = true ->
    live (clock w) (cache w) (profile_cacheKey reg) = None ->
    extends (after_get (profile_cacheKey reg) w) w1 ->
    res_status resp = 401 \/ res_status resp = 500 -> plain_error resp ->
    profile_run registerNo password w resp w1
| profile_fresh (reg : string) (pw : Json) (content : string) (w1 : World) :
    registerNo = Some (JStr reg) -> password = Some pw -> REGNO_RE_test reg = true ->
    live (clock w) (cache w) (profile_cacheKey reg) = None ->
    loginStudent env reg pw (after_get (profile_cacheKey reg) w)
      = (Return (Some content), w1) ->
    truthy content = true ->
    profile_run registerNo password w
      (json (VProfile (profile_of (cheerio_load env content) reg)))
      (after_set (profile_cacheKey reg)
         (VProfile (profile_of (cheerio_load env content) reg)) w1).

(** The runs of [GET /api/results/:registerNo]. *)
Inductive results_run (registerNo : string) (examId : option string) (w : World)
  : Response -> World -> Prop :=
| results_invalid (resp : Response) :
    REGNO_RE_test registerNo = false ->
    res_status resp = 400 -> plain_error resp ->
    results_run registerNo examId w resp w
| results_hit (v : Value) :
    REGNO_RE_test registerNo = true ->
    live (clock w) (cache w) (results_cacheKey registerNo examId) = Some v ->
    results_run registerNo examId w (json_cached v)
      (after_get (results_cacheKey registerNo examId) w)
| results_not_found (e : ErrorBody.t) (w1 : World) :
    REGNO_RE_test registerNo = true ->
    live (clock w) (cache w) (results_cacheKey registerNo examId) = None ->
    extends (after_get (results_cacheKey registerNo examId) w) w1 ->
    ErrorBody.registerNo e = Some (toUpperCase registerNo) ->
    results_run registerNo examId w (status_json 404 e) w1
| results_unreadable (response : AxiosResponse) (err : JsError) (w1 : World) :
    REGNO_RE_test registerNo = true ->
    live (clock w) (cache w) (results_cacheKey registerNo examId) = None ->
    extends (after_get (results_cacheKey registerNo examId) w) w1 ->
    usable (Some response) = true ->
    (exists (n : nat) (r : AxiosRequest), fst (axios env n r) = Fulfilled response) ->
    parse env (data response) = inr err ->
    results_run registerNo examId w (internal_error "Failed to fetch results" err) w1
| results_fresh (response : AxiosResponse) (successUrl : string)
    (doc : Dom.document) (w1 : World) :
    REGNO_RE_test registerNo = true ->
    live (clock w) (cache w) (results_cacheKey registerNo examId) = None ->
    try_urls env examId (resultsUrls registerNo) None
      (after_get (results_cacheKey registerNo examId) w)
      = (Return (Some response, Some successUrl), w1) ->
    In successUrl (resultsUrls registerNo) ->
    parse env (data response) = inl doc ->
    let results := results_of doc registerNo successUrl in
    (0 <? List.length (Results.results results))%nat = true ->
    results_run registerNo examId w (json (VResults results))
      (after_set (results_cacheKey registerNo examId) (VResults results) w1).

(** The runs of [POST /api/attendance]: the cache plays no part. *)
Inductive attendance_run (registerNo password : option Json) (w : World)
  : Response -> World -> Prop :=
| attendance_invalid (resp : Response) :
    res_status resp = 400 \/ res_status resp = 500 -> plain_error resp ->
    attendance_run registerNo password w resp w
| attendance_failed (resp : Response) (w1 : World) :
    extends w w1 ->
    res_status resp = 401 \/ res_status resp = 502 \/ res_status resp = 500 ->
    plain_error resp ->
    attendance_run registerNo password w resp w1
| attendance_fresh (reg pw : Json) (sessionCookie : string)
    (response : AxiosResponse) (doc : Dom.document) (w1 w2 : World) :
    registerNo = Some reg -> password = Some pw ->
    loginStudent env reg pw w = (Return (Some sessionCookie), w1) ->
    truthy sessionCookie = true ->
    makeRequest env KTU_ATTENDANCE_URL
      (mkOptions "GET" (Some {[ "Cookie" := sessionCookie ]})) default_retries w1
      = (Return (Some response), w2) ->
    JsValue.truthy (data response) = true ->
    parse env (data response) = inl doc ->
    extends w w2 ->
    attendance_run registerNo password w
      (json (VAttendance (attendance_of doc (clock w2)))) w2.

(** The runs of [GET /api/announcements]. *)
Inductive announcements_run (w : World) : Response -> World -> Prop :=
| announcements_hit (v : Value) :
    live (clock w) (cache w) announcements_cacheKey = Some v ->
    announcements_run w (json_cached v) (after_get announcements_cacheKey w)
| announcements_failed (resp : Response) (w1 : World) :
    live (clock w) (cache w) announcements_cacheKey = None ->
    extends (after_get announcements_cacheKey w) w1 ->
    res_status resp = 502 \/ res_status resp = 500 -> plain_error resp ->
    announcements_run w resp w1
| announcements_fresh (response : AxiosResponse) (doc : Dom.document) (w1 : World) :
    live (clock w) (cache w) announcements_cacheKey = None ->
    makeRequest env KTU_ANNOUNCEMENTS_URL (mkOptions "GET" None) default_retries
      (after_get announcements_cacheKey w) = (Return (Some response), w1) ->
    JsValue.truthy (data response) = true ->
    parse env (data response) = inl doc ->
    let result := announcements_of doc (clock w1) in
    announcements_run w (json (VAnnouncements result))
      (after_set announcements_cacheKey (VAnnouncements result) w1).

(** The two documented answers of the results route: a record with at
    least one exam, each with a subject, or a not-found error. *)
Definition record_or_not_found (resp : Response) : Prop :=
  (res_status resp = 200 /\
   exists r cached, res_body resp = BValue (VResults r) cached /\ good_results r)
  \/ (res_status resp = 404 /\ is_error resp).

(** The response is the outcome of a request. *)
Definition served (response : AxiosResponse) : Prop :=
  exists (n : nat) (r : AxiosRequest), fst (axios env n r) = Fulfilled response.

(** The third answer: the portal has sent, with status 200, a body that is
    no text, and the parser has thrown on it. *)
Definition unreadable_body (resp : Response) : Prop :=
  exists (response : AxiosResponse) (err : JsError),
    served response /\
    status response = 200 /\ JsValue.truthy (data response) = true /\
    (forall html : string, data response <> JStr html) /\
    cheerio_load_value env (data response) = inr err /\
    resp = internal_error "Failed to fetch results" err.

End RunShapes.

End ServerSpec.

(* ===================================================================== *)
(** * What the routes promise: the vocabulary *)
(* ===================================================================== *)

Module Contract.
Import JsValue JsString Server ServerSpec.

(** ** Validation and status codes *)

(** [/^[A-Z]{3}\d{2}[A-Z]{2}\d{3}$/]: [REGNO_RE] without its [i] flag. *)
Definition REGNO_UPPER : list charclass :=
  [isUpper; isUpper; isUpper; isDigit; isDigit;
   isUpper; isUpper; isDigit; isDigit; isDigit].

(** Every code unit of the string is an ASCII character. *)
Definition ascii_only (s : string) : Prop :=
  Forall (fun c => code c < 128) (list_ascii_of_string s).

(** What the head of a route makes of a request: the request passes; it is
    refused, a field being absent or falsy or the register number not of the
    format of [REGNO_RE]; or the head breaks on it. *)
Inductive Verdict : Type := Passes | Refused | Breaks.

(** The head of the two routes that read a body.  It breaks when there is
    no body, and when the register number cannot be made a string; the
    profile route, which goes on with [registerNo.toUpperCase()], also breaks
    on a register number that has the format as a string but is no string
    (an array around one). *)
Definition body_verdict (needs_string : bool) (body : option Fields) : Verdict :=
  match body with
  | None => Breaks
  | Some fields =>
      if truthy_field (body_registerNo fields) && truthy_field (body_password fields)
      then
        let registerNo := default JNull (body_registerNo fields) in
        match JsValue.toString registerNo with
        | None => Breaks
        | Some s =>
            if REGNO_RE_test s
            then match registerNo with
                 | JStr _ => Passes
                 | _ => if needs_string then Breaks else Passes
                 end
            else Refused
        end
      else Refused
  end.

(** The body of a request of the documented kind. *)
Definition fields_of (registerNo password : option string) : option Fields :=
  Some (mkFields (JStr <$> registerNo) (JStr <$> password)).

Definition verdict (req : Request) : Verdict :=
  match req with
  | PostProfile registerNo password => body_verdict true (fields_of registerNo password)
  | PostAttendance registerNo password =>
      body_verdict false (fields_of registerNo password)
  | GetResults registerNo _ => if REGNO_RE_test registerNo then Passes else Refused
  | GetAnnouncements => Passes
  | PostProfileBody body => body_verdict true body
  | PostAttendanceBody body => body_verdict false body
  end.

(** The status of the answer to a request that does not pass. *)
Definition early_status (v : Verdict) : Z :=
  match v with Refused => 400 | _ => 500 end.

(** The status codes each route can answer with. *)
Definition statuses (req : Request) : list Z :=
  match req with
  | PostProfile _ _ | PostProfileBody _ => [200; 400; 401; 500]
  | GetResults _ _ => [200; 400; 404; 500]
  | PostAttendance _ _ | PostAttendanceBody _ => [200; 400; 401; 500; 502]
  | GetAnnouncements => [200; 500; 502]
  end.

(** The requests to the profile route. *)
Definition to_profile (req : Request) : Prop :=
  match req with
  | PostProfile _ _ | PostProfileBody _ => True
  | _ => False
  end.

(** ** What a call may spend *)

(** [m] issues at most [r] requests and launches at most [l] browsers; the
    counters and the clock never go back. *)
Definition spends {A : Type} (r l : nat) (m : M A) : Prop :=
  forall w,
    (requests w <= requests (snd (m w)) <= requests w + r)%nat /\
    (launches w <= launches (snd (m w)) <= launches w + l)%nat /\
    clock w <= clock (snd (m w)).

(** The requests and the browsers each route may use for one call: three
    attempts for each URL it fetches, one browser for each login. *)
Definition max_requests (req : Request) : nat :=
  match req with
  | PostProfile _ _ | PostProfileBody _ => 0
  | GetResults _ _ => 9
  | PostAttendance _ _ | PostAttendanceBody _ => 3
  | GetAnnouncements => 3
  end.

Definition max_launches (req : Request) : nat :=
  match req with
  | GetResults _ _ | GetAnnouncements => 0
  | _ => 1
  end.

(** ** What a call may send out *)

(** Every event that [m] adds to the trace satisfies [P]. *)
Definition emits {A : Type} (P : Event -> Prop) (m : M A) : Prop :=
  forall w, exists evs, trace (snd (m w)) = trace w ++ evs /\ Forall P evs.

(** The URLs each route may request. *)
Definition urls_of (req : Request) : list string :=
  match req with
  | PostProfile _ _ | PostProfileBody _ => []
  | GetResults registerNo examId =>
      List.map (fun url => with_examId url examId) (resultsUrls registerNo)
  | PostAttendance _ _ | PostAttendanceBody _ => [KTU_ATTENDANCE_URL]
  | GetAnnouncements => [KTU_ANNOUNCEMENTS_URL]
  end.

(** The headers of its requests: the default ones, and for attendance a
    [Cookie] header besides. *)
Definition headers_of (req : Request) (h : gmap string string) : Prop :=
  match req with
  | PostAttendance _ _ | PostAttendanceBody _ =>
      exists cookie, h = {[ "Cookie" := cookie ]} ∪ defaultHeaders
  | _ => h = defaultHeaders
  end.

(** The routes that drive a browser. *)
Definition logs_in (req : Request) : Prop :=
  match req with
  | GetResults _ _ | GetAnnouncements => False
  | _ => True
  end.

(** What a call of a route may do to the outside: GET requests to its own
    URLs with its own headers, waits of one or two seconds, and browser calls
    when the route logs in. *)
Definition outbound (req : Request) (e : Event) : Prop :=
  match e with
  | EvRequest r =>
      req_method r = "GET" /\ In (req_url r) (urls_of req) /\
      headers_of req (req_headers r)
  | EvSleep ms => ms = 1000 \/ ms = 2000
  | EvBrowser _ => logs_in req
  | EvCacheGet _ | EvCacheSet _ => True
  end.

(** ** Time spent waiting *)

(** The waits among the events, added up (ms). *)
Fixpoint slept (evs : list Event) : Z :=
  match evs with
  | [] => 0
  | EvSleep ms :: evs' => ms + slept evs'
  | _ :: evs' => slept evs'
  end.

(** All the waits of [m] together take [bound] ms at most. *)
Definition waits {A : Type} (bound : Z) (m : M A) : Prop :=
  forall w, exists evs, trace (snd (m w)) = trace w ++ evs /\ 0 <= slept evs <= bound.

(** The waits of the loop of [makeRequest] when every attempt fails, from
    the turn with counter [i], with [todo] turns left: none after the last
    attempt. *)
Fixpoint loop_wait (i todo : nat) : Z :=
  match todo with
  | O => 0
  | S todo' =>
      match todo' with
      | O => 0
      | S _ => 1000 * (Z.of_nat i + 1) + loop_wait (S i) todo'
      end
  end.

(** One second for each request the route may make: three seconds (1 s and
    2 s) for each URL it fetches. *)
Definition max_wait (req : Request) : Z := 1000 * Z.of_nat (max_requests req).

Definition no_wait (e : Event) : Prop :=
  match e with EvSleep _ => False | _ => True end.

(** ** The login script *)

(** The calls that [loginStudent] makes on the page, in order; [token] is
    the value read from the CSRF field of the login form. *)
Definition login_script (registerNo password : Json) (token : string)
  : list BrowserCall :=
  [NewPage; Goto KTU_LOGIN_URL; EvalValue csrf_selector;
   TypeText username_selector registerNo; TypeText password_selector password;
   Submit token; WaitForNavigation; Goto KTU_DETAILS_URL; Content].

Section Script.

Context {Browser Page : Type}.
Variable env : Env Browser Page.
Variable browser : Browser.

(** One call of the script, on the page that the calls before it have
    left: the page after the call, or [None] when the call fails.  The first
    call opens the page; reading a value or the content leaves the page as it
    is. *)
Definition perform (c : BrowserCall) (page : option Page) : option Page :=
  match c, page with
  | NewPage, _ => pp_newPage env browser
  | Goto url, Some p => pp_goto env url p
  | EvalValue selector, Some p =>
      match pp_eval_value env selector p with Some _ => Some p | None => None end
  | TypeText selector text, Some p => pp_type env selector text p
  | Submit token, Some p => pp_submit env token p
  | WaitForNavigation, Some p => pp_waitForNavigation env p
  | Content, Some p =>
      match pp_content env p with Some _ => Some p | None => None end
  | _, _ => None
  end.

(** The calls made when a script is run: each call in turn, up to and
    including the first one that fails. *)
Fixpoint made (script : list BrowserCall) (page : option Page) : list BrowserCall :=
  match script with
  | [] => []
  | c :: rest =>
      c :: match perform c page with
           | Some page' => made rest (Some page')
           | None => []
           end
  end.

(** The page on which a script ends, when none of its calls fails. *)
Fixpoint final_page (script : list BrowserCall) (page : option Page)
  : option (option Page) :=
  match script with
  | [] => Some page
  | c :: rest =>
      match perform c page with
      | Some page' => final_page rest (Some page')
      | None => None
      end
  end.

(** The token that a session reads: the value of the CSRF field on the
    login page, when the page opens and loads. *)
Definition token_read : option string :=
  match pp_newPage env browser with
  | Some p1 =>
      match pp_goto env KTU_LOGIN_URL p1 with
      | Some p2 => pp_eval_value env csrf_selector p2
      | None => None
      end
  | None => None
  end.

End Script.

(** The events of one call of [makeRequest] for [url] when its three
    attempts fail: request, wait of 1 s, request, wait of 2 s, request. *)
Definition failed_probe (examId : option string) (url : string) : list Event :=
  let r := mkRequest "GET" (with_examId url examId) defaultHeaders in
  backoff r 0 2 ++ [EvRequest r].

(** The outside world [e], except that closing a browser fails with
    [err]. *)
Definition with_failing_close (e : Env nat string) (err : JsError) : Env nat string :=
  mkEnv nat string (axios e) (cheerio_load e) (cheerio_load_value e)
    (pp_launch e) (pp_newPage e)
    (pp_goto e) (pp_eval_value e) (pp_type e) (pp_submit e)
    (pp_waitForNavigation e) (pp_content e) (pp_cookies e) (fun _ => Some err).

Definition target_closed : JsError := mkError "Error" "Target closed" None.

(** ** The records the routes build *)

(** A subject of a results record has a code and a name. *)
Definition subject_named (s : Subject.t) : Prop :=
  Subject.code s <> "" /\ Subject.name s <> "".

(** An exam of a results record: a name, the two averages (or their
    placeholder), and at least one subject. *)
Definition exam_complete (e : Exam.t) : Prop :=
  Exam.examName e <> "" /\ Exam.sgpa e <> "" /\ Exam.cgpa e <> "" /\
  Exam.subjects e <> [] /\ Forall subject_named (Exam.subjects e).

(** A subject of the curriculum: its code is three capital letters and
    three digits, its name is not empty and has no hyphen, and it has no
    grade point. *)
Definition course_listed (s : Subject.t) : Prop :=
  match_whole course_code_re (Subject.code s) = true /\
  Subject.name s <> "" /\ ~ has_char "-"%char (Subject.name s) /\
  Subject.gradePoint s = "".

Definition semester_listed (r : SemesterResult.t) : Prop :=
  SemesterResult.subjects r <> [] /\
  Forall course_listed (SemesterResult.subjects r).

(** A link of an announcement: a text that is not a read-more label, and
    an absolute URL. *)
Definition link_kept (l : Link.t) : Prop :=
  Link.title l <> "" /\
  includes (toLowerCase (Link.title l)) "read more" = false /\
  startsWith (Link.url l) "http" = true.

Definition announcement_kept (a : Announcement.t) : Prop :=
  Announcement.title a <> "" /\ Forall link_kept (Announcement.links a).

(** A subject of an attendance record: both counts are numbers, and the
    percentage is not empty. *)
Definition subject_counted (s : AttendanceSubject.t) : Prop :=
  JsNumber.isNaN (AttendanceSubject.attended s) = false /\
  JsNumber.isNaN (AttendanceSubject.total s) = false /\
  AttendanceSubject.percentage s <> "".

(** The text parses as a number. *)
Definition numeric (s : string) : bool :=
  negb (JsNumber.isNaN (JsNumber.parseFloat s)).

(** The trimmed texts of the [td] cells with a [rowspan] in the curriculum
    tab, in document order. *)
Definition rowspan_texts (doc : Dom.document) : list string :=
  List.map (fun el => trim (Dom.text doc [el])) (Dom.query doc sel_sgpa_cells).

(** The own texts of the list items whose badge reads [label], in document
    order. *)
Definition labelled_texts (doc : Dom.document) (label : string) : list string :=
  List.map (own_text doc)
    (List.filter
       (fun item =>
          String.eqb (trim (Dom.text doc (Dom.find doc [item] sel_view_badge))) label)
       (Dom.query doc sel_list_group_item)).

(** The trimmed text of the first [.panel-title] element. *)
Definition panelTitle (doc : Dom.document) : string :=
  trim (Dom.text doc (Dom.first (Dom.query doc sel_panel_title))).

(** A profile page with a panel title. *)
Definition college_page : Dom.document :=
  Portal.page
    [Portal.el "h3" [("class", "profile-title")] [Dom.Text "Asha Nair (KTU123)"];
     Portal.el "h4" [("class", "panel-title")]
       [Dom.Text "B.Tech (2020) (ABC College of Engineering)"]].

(** ** A page without the expected markup *)

(** The selectors that the profile route applies to the whole page. *)
Definition profile_selectors : list Dom.selector :=
  [sel_profile_title; sel_list_group_item; sel_panel_title;
   sel_badge "Admitted Branch"; sel_badge "Current Semester"; sel_badge "CGPA";
   sel_sgpa_cells; sel_activity_rows; sel_curriculum_rows; sel_semester_panels].

(** The profile with nothing in it. *)
Definition blank_profile (registerNo : string) : Profile.t :=
  Profile.mk (toUpperCase registerNo)
    (PersonalInfo.mk "" "" "" "" "" "" "" "")
    (AcademicInfo.mk "" "" "")
    (Attendance.mk "" [] None)
    (ActivityPoints.mk "0" "100" "Pending" [])
    (Credits.mk "0" "162" "160" "2")
    [].

(** ** The URL that answered *)


(** The portal rejects every login: no page follows the submission of the
    form. *)
Definition closed_portal : Env nat string :=
  Portal.env (Portal.serve Portal.results_html 40) false Portal.profile_html.

End Contract.

(* ===================================================================== *)
(** * Properties *)
(* ===================================================================== *)

Module ServerProofs.
Import JsValue JsString Server ServerSpec.

(** ** Lists built by [push] in a loop *)

Lemma fold_left_push {A B : Type} (keep : B -> bool) (f : B -> A)
  (l : list B) (init : list A) :
  fold_left (fun acc x => if keep x then acc ++ [f x] else acc) l init
  = init ++ List.map f (List.filter keep l).
Proof.
  revert init. induction l as [|x l IH]; intros init; simpl.
  - by rewrite app_nil_r.
  - rewrite IH. destruct (keep x); simpl; [by rewrite <- app_assoc | done].
Qed.

Lemma fold_left_ext {A B : Type} (f g : A -> B -> A) (l : list B) (a : A) :
  (forall acc x, f acc x = g acc x) -> fold_left f l a = fold_left g l a.
Proof.
  intros E. revert a. induction l as [|x l IH]; intros a; simpl; [done|].
  by rewrite E, IH.
Qed.

Lemma map_filter_map {A B C : Type} (g : A -> B) (keep : B -> bool) (f : B -> C)
  (l : list A) :
  List.map (fun x => f (g x)) (List.filter (fun x => keep (g x)) l)
  = List.map f (List.filter keep (List.map g l)).
Proof.
  induction l as [|x l IH]; simpl; [done|].
  destruct (keep (g x)); simpl; by rewrite IH.
Qed.

(** ** Selections *)

Lemma find_nil (doc : Dom.document) (sel : Dom.selector) : Dom.find doc [] sel = [].
Proof. reflexivity. Qed.

Lemma last_cons_cons {A : Type} (x y : A) (l : list A) (d : A) :
  List.last (x :: y :: l) d = List.last (y :: l) d.
Proof. reflexivity. Qed.

Lemma dom_last_spec (s : Dom.selection) :
  Dom.last s = match s with [] => [] | _ :: _ => [List.last s []] end.
Proof.
  unfold Dom.last. destruct s as [|p s]; [done|].
  revert p. induction s as [|q s IH]; intros p; [done|].
  change (Some <$> p :: q :: s) with (Some p :: (Some <$> q :: s)).
  change (List.last (Some p :: (Some <$> q :: s)) None)
    with (List.last (Some <$> q :: s) None).
  rewrite (IH q). reflexivity.
Qed.

Lemma last_map_nonempty {A B : Type} (f : A -> B) (x : A) (l : list A) (d : A) (d' : B) :
  List.last (List.map f (x :: l)) d' = f (List.last (x :: l) d).
Proof.
  revert x. induction l as [|y l IH]; intros x; [done|].
  change (List.map f (x :: y :: l)) with (f x :: List.map f (y :: l)).
  rewrite !last_cons_cons. apply IH.
Qed.

(** ** The cells of a table row, as texts *)

Lemma cell_text_nth (doc : Dom.document) (cells : Dom.selection) (i : nat) :
  cell_text doc cells i
  = cell (List.map (fun c => trim (Dom.text doc [c])) cells) i.
Proof.
  unfold cell_text, cell, Dom.eq_at. revert i.
  induction cells as [|c cells IH]; intros [|i]; simpl; try reflexivity.
  apply IH.
Qed.

Lemma cells_of_length (doc : Dom.document) (row : Dom.path) :
  List.length (cells_of doc row) = List.length (Dom.find doc [row] sel_td).
Proof. unfold cells_of. apply length_map. Qed.

(** ** Characters of a string *)

Lemma indexOf_from_absent (c : ascii) (s : string) (i : Z) :
  ~ has_char c s -> indexOf_from (String c EmptyString) s i = -1.
Proof.
  unfold has_char. revert i. induction s as [|a s IH]; intros i H; simpl in *.
  - reflexivity.
  - destruct (ascii_dec c a) as [->|Hne]; [exfalso; apply H; by left|].
    apply IH. intros Hin. apply H. by right.
Qed.

Lemma indexOf_absent (c : ascii) (s : string) :
  ~ has_char c s -> indexOf s (String c EmptyString) = -1.
Proof. apply indexOf_from_absent. Qed.

Lemma has_char_trimStart (c : ascii) (s : string) :
  has_char c (trimStart s) -> has_char c s.
Proof.
  unfold has_char. induction s as [|a s IH]; simpl; [done|].
  destruct (isWhiteSpace a); simpl; [by right; apply IH | done].
Qed.

Lemma has_char_trimEnd (c : ascii) (s : string) :
  has_char c (trimEnd s) -> has_char c s.
Proof.
  unfold has_char. induction s as [|a s IH]; simpl; [done|].
  destruct (trimEnd s) as [|b t] eqn:E.
  - destruct (isWhiteSpace a); simpl; [done|]. intros [->|[]]. by left.
  - simpl. intros [->|H]; [by left|]. right. apply IH. exact H.
Qed.

Lemma has_char_trim (c : ascii) (s : string) : has_char c (trim s) -> has_char c s.
Proof. intros H. by apply has_char_trimStart, has_char_trimEnd. Qed.

Lemma len_nonneg (s : string) : 0 <= len s.
Proof. unfold len. lia. Qed.

Lemma substring_empty_range (s : string) : substring s 0 (-1) = "".
Proof.
  unfold substring, clamp. pose proof (len_nonneg s).
  rewrite (Z.max_l 0 0) by lia. rewrite (Z.max_r (-1) 0) by lia.
  rewrite (Z.min_l 0 (len s)) by lia. rewrite Z.min_id, Z.max_id. reflexivity.
Qed.

Lemma username_without_parenthesis (doc : Dom.document) :
  no_parenthesis (Dom.text doc (Dom.first (Dom.query doc sel_profile_title))) ->
  username doc = "" /\ admissionNo doc = "".
Proof.
  intros [Ho Hc]. unfold username, admissionNo.
  assert (indexOf (nameAndAdmissionText doc) "(" = -1) as ->.
  { apply indexOf_absent. intros H. apply Ho. by apply has_char_trim. }
  assert (indexOf (nameAndAdmissionText doc) ")" = -1) as ->.
  { apply indexOf_absent. intros H. apply Hc. by apply has_char_trim. }
  change (-1 + 1) with 0. rewrite substring_empty_range. by split.
Qed.

(** ** Runs that leave the cache alone *)

Lemma extends_refl (w : World) : extends w w.
Proof. split; [done|]. exists []. by rewrite app_nil_r. Qed.

Lemma extends_frame (w w' : World) :
  cache w' = cache w -> trace w' = trace w -> extends w w'.
Proof. intros C T. split; [done|]. exists []. by rewrite app_nil_r. Qed.

Lemma extends_trans (w1 w2 w3 : World) :
  extends w1 w2 -> extends w2 w3 -> extends w1 w3.
Proof.
  intros [C1 (e1 & T1 & F1)] [C2 (e2 & T2 & F2)]. split; [congruence|].
  exists (e1 ++ e2). split; [by rewrite T2, T1, app_assoc | by apply Forall_app].
Qed.

Lemma quiet_ret {A : Type} (a : A) : quiet (ret a).
Proof. intros w. apply extends_refl. Qed.

Lemma quiet_throw {A : Type} (e : JsError) : quiet (@throw A e).
Proof. intros w. apply extends_refl. Qed.

Lemma quiet_bind {A B : Type} (m : M A) (k : A -> M B) :
  quiet m -> (forall a, quiet (k a)) -> quiet (bind m k).
Proof.
  intros Hm Hk w. unfold bind. specialize (Hm w).
  destruct (m w) as [[a|e] w1]; simpl in *; [|done].
  eapply extends_trans; [exact Hm | apply Hk].
Qed.

Lemma quiet_try_catch {A : Type} (m : M A) (h : JsError -> M A) :
  quiet m -> (forall e, quiet (h e)) -> quiet (try_catch m h).
Proof.
  intros Hm Hh w. unfold try_catch. specialize (Hm w).
  destruct (m w) as [[a|e] w1]; simpl in *; [done|].
  eapply extends_trans; [exact Hm | apply Hh].
Qed.

Lemma quiet_finally {A : Type} (m : M A) (f : M unit) :
  quiet m -> quiet f -> quiet (finally m f).
Proof.
  intros Hm Hf w. unfold finally. specialize (Hm w).
  destruct (m w) as [r w1]. specialize (Hf w1).
  destruct (f w1) as [[u|e] w2]; simpl in *; by eapply extends_trans.
Qed.

Lemma quiet_log (e : Event) : is_fetch e -> quiet (log e).
Proof.
  intros He w. split; [done|]. exists [e]. split; [done|]. by constructor.
Qed.

Lemma quiet_elapse (ms : Z) : quiet (elapse ms).
Proof. intros w. by apply extends_frame. Qed.

Lemma quiet_now : quiet now.
Proof. intros w. apply extends_refl. Qed.

Create HintDb quiet.
#[local] Hint Resolve quiet_ret quiet_throw quiet_elapse quiet_now : quiet.
#[local] Hint Extern 1 (quiet (log _)) => apply quiet_log; exact I : quiet.
#[local] Hint Extern 2 (quiet (bind _ _)) => apply quiet_bind; [|intros ?] : quiet.
#[local] Hint Extern 2 (quiet (try_catch _ _)) =>
  apply quiet_try_catch; [|intros ?] : quiet.
#[local] Hint Extern 2 (quiet (finally _ _)) => apply quiet_finally : quiet.

Lemma quiet_sleep (ms : Z) : quiet (sleep ms).
Proof. unfold sleep. auto with quiet. Qed.
#[local] Hint Resolve quiet_sleep : quiet.

Section Runs.

Context {Browser Page : Type}.
Variable env : Env Browser Page.

Lemma quiet_axios_request (opts : AxiosRequest) : quiet (axios_request env opts).
Proof.
  unfold axios_request. apply quiet_bind; [auto with quiet|]. intros _ w.
  destruct (axios env (requests w) opts) as [[r|e] ms]; by apply extends_frame.
Qed.
#[local] Hint Resolve quiet_axios_request : quiet.

Lemma quiet_makeRequest_loop (opts : AxiosRequest) (retries todo i : nat) :
  quiet (makeRequest_loop env opts retries i todo).
Proof.
  revert i. induction todo as [|todo IH]; intros i; simpl; [auto with quiet|].
  apply quiet_try_catch; [auto with quiet|]. intros e.
  destruct (Nat.eqb i (retries - 1)); auto with quiet.
Qed.

Lemma quiet_makeRequest (url : string) (options : Options) (retries : nat) :
  quiet (makeRequest env url options retries).
Proof. apply quiet_makeRequest_loop. Qed.
#[local] Hint Resolve quiet_makeRequest : quiet.

Lemma quiet_puppeteer_call {A : Type} (c : BrowserCall) (r : option A) :
  quiet (puppeteer_call c r).
Proof. unfold puppeteer_call. destruct r; auto with quiet. Qed.
#[local] Hint Resolve quiet_puppeteer_call : quiet.

Lemma quiet_launch : quiet (launch env).
Proof.
  unfold launch. apply quiet_bind; [auto with quiet|]. intros _ w.
  destruct (pp_launch env (launches w)) as [[b|] ms]; by apply extends_frame.
Qed.

Lemma quiet_close (b : Browser) : quiet (close env b).
Proof. unfold close. destruct (pp_close env b); auto with quiet. Qed.
#[local] Hint Resolve quiet_launch quiet_close : quiet.

Lemma quiet_login_session (b : Browser) (registerNo password : Json) :
  quiet (login_session env b registerNo password).
Proof. unfold login_session. auto 20 with quiet. Qed.
#[local] Hint Resolve quiet_login_session : quiet.

Lemma quiet_loginStudent (registerNo password : Json) :
  quiet (loginStudent env registerNo password).
Proof.
  unfold loginStudent. apply quiet_bind; [auto with quiet|].
  intros [b|]; auto with quiet.
Qed.

Lemma quiet_try_urls (examId : option string) (urls : list string)
  (response : option AxiosResponse) :
  quiet (try_urls env examId urls response).
Proof.
  revert response. induction urls as [|url urls IH]; intros response; simpl;
    [auto with quiet|].
  apply quiet_bind; [auto with quiet|]. intros [r|]; [|apply IH].
  destruct (usable r); [auto with quiet | apply IH].
Qed.

(** ** Reads and writes of the cache *)

Lemma cache_get_run (key : string) (w : World) :
  cache_get key w = (Return (live (clock w) (cache w) key), after_get key w).
Proof.
  unfold cache_get, bind, log, live, after_get. simpl.
  destruct (cache w !! key) as [entry|]; [|done].
  by destruct (expired (clock w) entry).
Qed.

Lemma cache_set_run (key : string) (v : Value) (w : World) :
  cache_set key v w = (Return tt, after_set key v w).
Proof. reflexivity. Qed.

Lemma bind_run {A B : Type} (m : M A) (k : A -> M B) (w : World) :
  bind m k w = match m w with
               | (Return a, w') => k a w'
               | (Throw e, w') => (Throw e, w')
               end.
Proof. reflexivity. Qed.

(** ** Loading a body *)

Lemma load_run (content : Json) (w : World) :
  load env content w
  = match parse env content with
    | inl doc => (Return doc, w)
    | inr err => (Throw err, w)
    end.
Proof. unfold load. by destruct (parse env content). Qed.

Lemma quiet_load (content : Json) : quiet (load env content).
Proof. intros w. rewrite load_run. destruct (parse env content); apply extends_refl. Qed.

Lemma or_else_truthy (v : Json) : JsValue.truthy v = true -> JsValue.or_else v "" = v.
Proof. unfold JsValue.or_else. by intros ->. Qed.

(** A body on which the parser throws is no text. *)
Lemma parse_throws (content : Json) (err : JsError) :
  parse env content = inr err ->
  (forall html : string, content <> JStr html) /\
  cheerio_load_value env content = inr err.
Proof.
  destruct content; cbn [parse]; intros H; try (split; [intros html E; discriminate E | exact H]).
  discriminate H.
Qed.

(** ** The shape of the runs of each route *)

Lemma profile_fetch_runs (reg : string) (pw : Json) (w : World) :
  REGNO_RE_test reg = true ->
  exists resp w',
    try_catch (profile_fetch env reg pw)
      (fun err => ret (internal_error "Failed to fetch student profile" err)) w
    = (Return resp, w') /\
    profile_run env (Some (JStr reg)) (Some pw) w resp w'.
Proof.
  intros Hre. unfold profile_fetch, try_catch.
  rewrite bind_run, cache_get_run.
  destruct (live (clock w) (cache w) (profile_cacheKey reg)) as [v|] eqn:Hlive.
  { eexists _, _. split; [reflexivity|]. by eapply profile_hit. }
  rewrite bind_run.
  pose proof (quiet_loginStudent reg pw (after_get (profile_cacheKey reg) w)) as Hq.
  destruct (loginStudent env reg pw (after_get (profile_cacheKey reg) w))
    as [[content|err] w1] eqn:Hlogin; simpl in Hq.
  2:{ eexists _, _. split; [reflexivity|].
      eapply profile_failed; eauto. by eexists. }
  destruct (truthy_opt content) eqn:Hc; cbn [negb].
  2:{ eexists _, _. split; [reflexivity|].
      eapply profile_failed; eauto. by eexists. }
  destruct content as [content|]; [|done]. simpl in Hc. cbn [from_option id].
  rewrite bind_run, cache_set_run.
  eexists _, _. split; [reflexivity|]. by eapply profile_fresh.
Qed.

Lemma profile_route_runs (registerNo password : option string) (w : World) :
  exists resp w',
    profile_route env registerNo password w = (Return resp, w') /\
    profile_run env (JStr <$> registerNo) (JStr <$> password) w resp w'.
Proof.
  unfold profile_route.
  destruct (negb (truthy_opt registerNo) || negb (truthy_opt password)) eqn:Hv.
  { eexists _, _. split; [reflexivity|]. apply profile_invalid; [by left | by eexists]. }
  apply orb_false_elim in Hv as [Hr Hp].
  destruct registerNo as [reg|]; [|done]. destruct password as [pw|]; [|done].
  cbn [from_option id].
  destruct (REGNO_RE_test reg) eqn:Hre; cbn [negb].
  2:{ eexists _, _. split; [reflexivity|]. apply profile_invalid; [by left | by eexists]. }
  exact (profile_fetch_runs reg pw w Hre).
Qed.

Lemma profile_handler_runs (body : option Fields) (w : World) :
  exists resp w',
    profile_handler env body w = (Return resp, w') /\
    profile_run env (body ≫= body_registerNo) (body ≫= body_password) w resp w'.
Proof.
  unfold profile_handler.
  destruct body as [[r p]|]; cbn [body_registerNo body_password mbind option_bind].
  2:{ eexists _, _. split; [reflexivity|]. apply profile_invalid; [by right | by eexists]. }
  destruct (negb (truthy_field r) || negb (truthy_field p)) eqn:Hv.
  { eexists _, _. split; [reflexivity|]. apply profile_invalid; [by left | by eexists]. }
  apply orb_false_elim in Hv as [Hr Hp].
  destruct r as [r|]; [|done]. destruct p as [p|]; [|done].
  cbn [from_option id]. unfold REGNO_RE_test_value.
  destruct (JsValue.toString r) as [s|] eqn:Hs.
  2:{ eexists _, _. split; [reflexivity|]. apply profile_invalid; [by right | by eexists]. }
  destruct (REGNO_RE_test s) eqn:Hre.
  2:{ eexists _, _. split; [reflexivity|].
      apply profile_invalid; [by left | by eexists]. }
  destruct r as [|b|n|reg|items|fields];
    try (eexists _, _;
         (split; [reflexivity|]);
         apply profile_invalid; [by right | eexists; split; reflexivity]).
  cbn [JsValue.toString] in Hs. injection Hs as <-.
  destruct (profile_fetch_runs reg p w Hre) as (resp & w' & Hrun & Hshape).
  exists resp, w'. split; [|exact Hshape].
  exact Hrun.
Qed.

(** A response that [makeRequest] returns is the outcome of one of its
    requests. *)
Lemma makeRequest_loop_served (opts : AxiosRequest) (retries : nat)
  (response : AxiosResponse) :
  forall (todo i : nat) (w w' : World),
    makeRequest_loop env opts retries i todo w = (Return (Some response), w') ->
    served env response.
Proof.
  induction todo as [|todo IH]; intros i w w'; cbn [makeRequest_loop].
  { intros H. discriminate H. }
  unfold try_catch. rewrite bind_run. unfold axios_request at 1. rewrite bind_run.
  cbn [log].
  destruct (axios env _ opts) as [[r|e] ms] eqn:Hax; cbn [ret].
  - intros [= -> _]. eexists _, opts. by rewrite Hax.
  - destruct (Nat.eqb i (retries - 1)); [intros H; discriminate H|].
    rewrite bind_run. unfold sleep. rewrite bind_run. cbn [log elapse]. apply IH.
Qed.

(** The loop over the candidate URLs never throws; a [successUrl] is one of
    the candidates, and comes with a usable response, which one of the
    requests of the loop has received. *)
Lemma try_urls_returns (examId : option string) (urls : list string)
  (response : option AxiosResponse) (w : World) :
  exists r s w1,
    try_urls env examId urls response w = (Return (r, s), w1) /\
    (s = None \/
     exists url resp, s = Some url /\ r = Some resp /\ In url urls /\
                      usable (Some resp) = true /\ served env resp).
Proof.
  revert response w. induction urls as [|url urls IH]; intros response w.
  { eexists _, _, _. split; [reflexivity | by left]. }
  cbn [try_urls]. rewrite bind_run. unfold try_catch at 1. rewrite bind_run.
  destruct (makeRequest env (with_examId url examId) (mkOptions "GET" None)
              default_retries w) as [[r|e] w1] eqn:Hreq; cbn [ret].
  - destruct (usable r) eqn:Hu.
    + eexists _, _, _. split; [reflexivity|]. right.
      destruct r as [resp|]; [|done]. exists url, resp.
      repeat split; auto; [by left|]. by eapply makeRequest_loop_served.
    + destruct (IH r w1) as (r' & s & w2 & E & H). rewrite E.
      eexists _, _, _. split; [reflexivity|].
      destruct H as [H|(u & resp & ? & ? & ? & ? & ?)]; [by left|].
      right. exists u, resp. repeat split; auto. by right.
  - destruct (IH response w1) as (r' & s & w2 & E & H). rewrite E.
    eexists _, _, _. split; [reflexivity|].
    destruct H as [H|(u & resp & ? & ? & ? & ? & ?)]; [by left|].
    right. exists u, resp. repeat split; auto. by right.
Qed.

Lemma usable_truthy (resp : AxiosResponse) :
  usable (Some resp) = true -> JsValue.truthy (data resp) = true.
Proof. cbn [usable]. intros H. by apply andb_true_iff in H as [_ H]. Qed.

Lemma results_route_runs (registerNo : string) (examId : option string) (w : World) :
  exists resp w',
    results_route env registerNo examId w = (Return resp, w') /\
    results_run env registerNo examId w resp w'.
Proof.
  unfold results_route, try_catch.
  destruct (REGNO_RE_test registerNo) eqn:Hre.
  2:{ rewrite orb_true_r. eexists _, _. split; [reflexivity|].
      apply results_invalid; [done | done | by eexists]. }
  assert (truthy registerNo = true) as ->.
  { by destruct registerNo. }
  cbn [negb orb]. rewrite bind_run, cache_get_run.
  destruct (live (clock w) (cache w) (results_cacheKey registerNo examId))
    as [v|] eqn:Hlive.
  { eexists _, _. split; [reflexivity|]. by eapply results_hit. }
  rewrite bind_run.
  pose proof (quiet_try_urls examId (resultsUrls registerNo) None
                (after_get (results_cacheKey registerNo examId) w)) as Hq.
  destruct (try_urls_returns examId (resultsUrls registerNo) None
              (after_get (results_cacheKey registerNo examId) w))
    as (r & s & w1 & E & Hs).
  rewrite E in Hq |- *. simpl in Hq.
  destruct Hs as [->|(url & resp & -> & -> & Hin & Hu & Hserved)].
  { destruct r; eexists _, _; (split; [reflexivity|]);
      by eapply results_not_found. }
  rewrite bind_run, load_run, (or_else_truthy _ (usable_truthy _ Hu)).
  destruct (parse env (data resp)) as [doc|err] eqn:Hparse.
  2:{ eexists _, _. split; [reflexivity|]. by eapply results_unreadable. }
  destruct (0 <? List.length
              (Results.results (results_of doc registerNo url)))%nat eqn:Hn; cbn [negb].
  - rewrite bind_run, cache_set_run.
    eexists _, _. split; [reflexivity|]. by eapply results_fresh.
  - eexists _, _. split; [reflexivity|]. by eapply results_not_found.
Qed.

Lemma attendance_fetch_runs (reg pw : Json) (w : World) :
  exists resp w',
    try_catch (attendance_fetch env reg pw)
      (fun err => ret (internal_error "Failed to fetch attendance" err)) w
    = (Return resp, w') /\
    attendance_run env (Some reg) (Some pw) w resp w'.
Proof.
  unfold attendance_fetch, try_catch.
  rewrite bind_run.
  pose proof (quiet_loginStudent reg pw w) as Hq.
  destruct (loginStudent env reg pw w) as [[content|err] w1] eqn:Hlogin; simpl in Hq.
  2:{ eexists _, _. split; [reflexivity|].
      eapply attendance_failed; eauto. by eexists. }
  destruct (truthy_opt content) eqn:Hc; cbn [negb].
  2:{ eexists _, _. split; [reflexivity|].
      eapply attendance_failed; eauto. by eexists. }
  destruct content as [content|]; [|done]. simpl in Hc. cbn [from_option id].
  rewrite bind_run.
  pose proof (quiet_makeRequest KTU_ATTENDANCE_URL
                (mkOptions "GET" (Some {[ "Cookie" := content ]}))
                default_retries w1) as Hq2.
  destruct (makeRequest env KTU_ATTENDANCE_URL
              (mkOptions "GET" (Some {[ "Cookie" := content ]}))
              default_retries w1) as [[response|err] w2] eqn:Hreq; simpl in Hq2.
  2:{ eexists _, _. split; [reflexivity|].
      eapply attendance_failed; [by eapply extends_trans | auto | by eexists]. }
  destruct (empty_response response) eqn:He.
  { eexists _, _. split; [reflexivity|].
    eapply attendance_failed; [by eapply extends_trans | auto | by eexists]. }
  destruct response as [response|]; [|done]. simpl in He.
  apply negb_false_iff in He.
  rewrite bind_run. cbn [fmap option_fmap option_map from_option id].
  rewrite load_run, (or_else_truthy _ He).
  destruct (parse env (data response)) as [doc|err] eqn:Hparse.
  2:{ eexists _, _. split; [reflexivity|].
      eapply attendance_failed; [by eapply extends_trans | auto | by eexists]. }
  rewrite bind_run. cbn [now].
  eexists _, _. split; [reflexivity|].
  eapply attendance_fresh; eauto. by eapply extends_trans.
Qed.

Lemma attendance_route_runs (registerNo password : option string) (w : World) :
  exists resp w',
    attendance_route env registerNo password w = (Return resp, w') /\
    attendance_run env (JStr <$> registerNo) (JStr <$> password) w resp w'.
Proof.
  unfold attendance_route.
  destruct (negb (truthy_opt registerNo) || negb (truthy_opt password)) eqn:Hv.
  { eexists _, _. split; [reflexivity|].
    apply attendance_invalid; [by left | by eexists]. }
  apply orb_false_elim in Hv as [Hr Hp].
  destruct registerNo as [reg|]; [|done]. destruct password as [pw|]; [|done].
  cbn [from_option id].
  destruct (REGNO_RE_test reg) eqn:Hre; cbn [negb].
  2:{ eexists _, _. split; [reflexivity|].
      apply attendance_invalid; [by left | by eexists]. }
  exact (attendance_fetch_runs reg pw w).
Qed.

Lemma attendance_handler_runs (body : option Fields) (w : World) :
  exists resp w',
    attendance_handler env body w = (Return resp, w') /\
    attendance_run env (body ≫= body_registerNo) (body ≫= body_password) w resp w'.
Proof.
  unfold attendance_handler.
  destruct body as [[r p]|]; cbn [body_registerNo body_password mbind option_bind].
  2:{ eexists _, _. split; [reflexivity|].
      apply attendance_invalid; [by right | by eexists]. }
  destruct (negb (truthy_field r) || negb (truthy_field p)) eqn:Hv.
  { eexists _, _. split; [reflexivity|].
    apply attendance_invalid; [by left | by eexists]. }
  apply orb_false_elim in Hv as [Hr Hp].
  destruct r as [r|]; [|done]. destruct p as [p|]; [|done].
  cbn [from_option id]. unfold REGNO_RE_test_value.
  destruct (JsValue.toString r) as [s|] eqn:Hs.
  2:{ eexists _, _. split; [reflexivity|].
      apply attendance_invalid; [by right | by eexists]. }
  destruct (REGNO_RE_test s) eqn:Hre.
  2:{ eexists _, _. split; [reflexivity|].
      apply attendance_invalid; [by left | by eexists]. }
  destruct (attendance_fetch_runs r p w) as (resp & w' & Hrun & Hshape).
  exists resp, w'. split; [|exact Hshape].
  exact Hrun.
Qed.

Lemma announcements_route_runs (w : World) :
  exists resp w',
    announcements_route env w = (Return resp, w') /\ announcements_run env w resp w'.
Proof.
  unfold announcements_route, try_catch.
  rewrite bind_run, cache_get_run.
  destruct (live (clock w) (cache w) announcements_cacheKey) as [v|] eqn:Hlive.
  { eexists _, _. split; [reflexivity|]. by eapply announcements_hit. }
  rewrite bind_run.
  pose proof (quiet_makeRequest KTU_ANNOUNCEMENTS_URL (mkOptions "GET" None)
                default_retries (after_get announcements_cacheKey w)) as Hq.
  destruct (makeRequest env KTU_ANNOUNCEMENTS_URL (mkOptions "GET" None)
              default_retries (after_get announcements_cacheKey w))
    as [[response|err] w1] eqn:Hreq; simpl in Hq.
  2:{ eexists _, _. split; [reflexivity|].
      eapply announcements_failed; eauto. by eexists. }
  destruct (empty_response response) eqn:He.
  { eexists _, _. split; [reflexivity|].
    eapply announcements_failed; eauto. by eexists. }
  destruct response as [response|]; [|done]. simpl in He.
  apply negb_false_iff in He.
  rewrite bind_run. cbn [fmap option_fmap option_map from_option id].
  rewrite load_run, (or_else_truthy _ He).
  destruct (parse env (data response)) as [doc|err] eqn:Hparse.
  2:{ eexists _, _. split; [reflexivity|].
      eapply announcements_failed; eauto. by eexists. }
  rewrite bind_run. cbn [now].
  rewrite bind_run, cache_set_run.
  eexists _, _. split; [reflexivity|]. by eapply announcements_fresh.
Qed.

(** ** makeRequest: attempts and waits *)



(** ** loginStudent: what it returns *)

Lemma puppeteer_call_some {A : Type} (c : BrowserCall) (a : A) (w : World) :
  puppeteer_call c (Some a) w = (Return a, logged (EvBrowser c) w).
Proof. reflexivity. Qed.

Lemma puppeteer_call_none {A : Type} (c : BrowserCall) (w : World) :
  puppeteer_call c (@None A) w = (Throw puppeteer_error, logged (EvBrowser c) w).
Proof. reflexivity. Qed.

Ltac session_step H :=
  rewrite bind_run in H;
  match type of H with
  | context [puppeteer_call ?c ?r] =>
      let E := fresh "E" in
      destruct r eqn:E;
      [rewrite puppeteer_call_some in H | rewrite puppeteer_call_none in H];
      cbv beta iota in H; [|discriminate H]
  end.

(** What a successful login session returns is the value of
    [page.content()]. *)
Lemma login_session_content (b : Browser) (registerNo password c : string)
  (w w' : World) :
  login_session env b registerNo password w = (Return (Some c), w') ->
  exists page, pp_content env page = Some c.
Proof.
  unfold login_session. intros H.
  do 9 session_step H.
  injection H as -> _. eauto.
Qed.

Lemma loginStudent_content (registerNo password c : string) (w w' : World) :
  loginStudent env registerNo password w = (Return (Some c), w') ->
  exists page, pp_content env page = Some c.
Proof.
  unfold loginStudent. rewrite bind_run. unfold try_catch at 1. rewrite bind_run.
  destruct (launch env w) as [[b|e] w0]; cbn [ret]; [|discriminate].
  unfold finally.
  destruct (try_catch (login_session env b registerNo password) (fun _ => ret None) w0)
    as [r w1] eqn:Hs.
  destruct (close env b w1) as [[u|e] w2]; [|discriminate].
  intros [= -> _]. unfold try_catch in Hs.
  destruct (login_session env b registerNo password w0) as [[x|e] w3] eqn:Hl;
    [|discriminate].
  injection Hs as -> _. by eapply login_session_content.
Qed.

(** The first event of a call of [makeRequest] with at least one attempt is
    the request itself. *)
Lemma makeRequest_first_event (url : string) (options : Options) (retries : nat)
  (w : World) :
  (0 < retries)%nat ->
  exists evs,
    trace (snd (makeRequest env url options retries w))
    = trace w ++
      EvRequest (mkRequest (opt_method options) url (merge_headers options)) :: evs.
Proof.
  intros Hr. unfold makeRequest.
  set (opts := mkRequest (opt_method options) url (merge_headers options)).
  destruct retries as [|n]; [lia|]. cbn [makeRequest_loop].
  unfold try_catch. rewrite bind_run. unfold axios_request at 1. rewrite bind_run.
  cbn [log].
  destruct (axios env _ opts) as [[r|e] ms]; cbn [ret snd trace].
  - by exists [].
  - destruct (Nat.eqb 0 (S n - 1)).
    + by exists [].
    + pose proof (quiet_bind (sleep (1000 * (Z.of_nat 0 + 1)))
                    (fun _ => makeRequest_loop env opts (S n) 1 n)
                    (quiet_sleep _)
                    (fun _ => quiet_makeRequest_loop opts (S n) n 1)) as Hq.
      match goal with |- context [bind ?m ?k ?w0] => specialize (Hq w0) end.
      destruct Hq as [_ (evs & Hq & _)]. rewrite Hq. cbn [trace].
      rewrite <- app_assoc. by exists evs.
Qed.

(** C7.  In the attendance flow, when the login returns [content], the
    request for the attendance page carries [content] as its [Cookie] header:
    the page text that [page.content()] gave, not the cookie the browser
    holds. *)
Theorem attendance_cookie_is_page_content (reg pw content : string) (w w1 : World) :
  truthy reg = true -> truthy pw = true -> REGNO_RE_test reg = true ->
  loginStudent env reg pw w = (Return (Some content), w1) ->
  truthy content = true ->
  (exists page, pp_content env page = Some content) /\
  exists r evs,
    trace (snd (attendance_route env (Some reg) (Some pw) w))
    = trace w1 ++ EvRequest r :: evs /\
    req_url r = KTU_ATTENDANCE_URL /\
    req_headers r !! "Cookie" = Some content.
Proof.
  intros Hr Hp Hre Hlogin Hc. split; [by eapply loginStudent_content|].
  unfold attendance_route, try_catch. cbn [truthy_opt]. rewrite Hr, Hp.
  cbn [negb orb from_option id]. rewrite Hre. cbn [negb]. unfold attendance_fetch.
  rewrite bind_run, Hlogin. cbn [truthy_opt]. rewrite Hc. cbn [negb from_option id].
  rewrite bind_run.
  destruct (makeRequest_first_event KTU_ATTENDANCE_URL
              (mkOptions "GET" (Some {[ "Cookie" := content ]})) default_retries w1)
    as (evs & Hev); [unfold default_retries; lia|].
  destruct (makeRequest env KTU_ATTENDANCE_URL
              (mkOptions "GET" (Some {[ "Cookie" := content ]})) default_retries w1)
    as [[response|err] w2]; cbn [snd] in Hev.
  - exists (mkRequest "GET" KTU_ATTENDANCE_URL
              (merge_headers (mkOptions "GET" (Some {[ "Cookie" := content ]})))), evs.
    split; [|split; [reflexivity|]].
    + destruct (empty_response response); [exact Hev|].
      rewrite bind_run, load_run.
      destruct (parse env _); [rewrite bind_run|]; exact Hev.
    + cbn [req_headers merge_headers opt_headers].
      apply lookup_union_Some_l. apply lookup_singleton_eq.
  - exists (mkRequest "GET" KTU_ATTENDANCE_URL
              (merge_headers (mkOptions "GET" (Some {[ "Cookie" := content ]})))), evs.
    split; [exact Hev|split; [reflexivity|]].
    cbn [req_headers merge_headers opt_headers].
    apply lookup_union_Some_l. apply lookup_singleton_eq.
Qed.

(** ** loginStudent: the browser is closed *)

Lemma session_call_intro (c : BrowserCall) :
  c <> Launch -> c <> Close -> session_call (EvBrowser c).
Proof. intros. by exists c. Qed.

(** The events of a login session are calls on the page. *)
Lemma login_session_events (b : Browser) (registerNo password : string) (w : World) :
  exists evs,
    trace (snd (login_session env b registerNo password w)) = trace w ++ evs /\
    Forall session_call evs.
Proof.
  unfold login_session.
  repeat (rewrite bind_run;
          match goal with
          | |- context [puppeteer_call ?c ?r] =>
              destruct r;
              [rewrite puppeteer_call_some | rewrite puppeteer_call_none];
              cbv beta iota
          end).
  all: unfold logged; cbn [log snd trace ret]; rewrite <- ?app_assoc; cbn [app];
       eexists; (split; [reflexivity|]);
       repeat (constructor; [by apply session_call_intro|]); constructor.
Qed.

(** On every exit of [loginStudent] after a successful launch, the last
    event is the close of the browser, and it is the only close. *)
Theorem loginStudent_closes_browser (registerNo password : string) (w : World)
  (b : Browser) (ms : N) :
  pp_launch env (launches w) = (Some b, ms) ->
  exists evs,
    trace (snd (loginStudent env registerNo password w))
    = trace w ++ EvBrowser Launch :: evs ++ [EvBrowser Close] /\
    Forall session_call evs.
Proof.
  intros Hlaunch. unfold loginStudent. rewrite bind_run. unfold try_catch at 1.
  rewrite bind_run. unfold launch. rewrite bind_run. cbn [log launches].
  rewrite Hlaunch. cbn [ret]. unfold finally.
  match goal with |- context [try_catch _ _ ?w0] => set (w1 := w0) end.
  destruct (login_session_events b registerNo password w1) as (evs & Ht & HF).
  assert (trace (snd (try_catch (login_session env b registerNo password)
                        (fun _ => ret None) w1)) = trace w1 ++ evs) as Ht'.
  { unfold try_catch.
    destruct (login_session env b registerNo password w1) as [[x|e] w2]; exact Ht. }
  destruct (try_catch (login_session env b registerNo password) (fun _ => ret None) w1)
    as [r w2]. cbn [snd] in Ht'.
  exists evs. split; [|exact HF].
  unfold close. rewrite bind_run. cbn [log].
  destruct (pp_close env b); cbn [snd throw ret trace]; rewrite Ht'; subst w1;
    cbn [trace]; by rewrite <- !app_assoc.
Qed.

(** ** What the cache holds *)

Lemma cache_ok_empty : cache_ok ∅.
Proof. intros key entry H. by rewrite lookup_empty in H. Qed.

Lemma cache_ok_after_get (key : string) (w : World) :
  cache_ok (cache w) -> cache_ok (cache (after_get key w)).
Proof.
  intros Hok k entry. cbn [after_get cache].
  destruct (cache w !! key) as [e|]; [|apply Hok].
  destruct (expired (clock w) e); [|apply Hok].
  intros H. apply lookup_delete_Some in H as [_ H]. by apply Hok.
Qed.

Lemma cache_ok_extends (w w' : World) :
  extends w w' -> cache_ok (cache w) -> cache_ok (cache w').
Proof. intros [-> _]. done. Qed.

Lemma cache_ok_after_set (key : string) (v : Value) (w : World) :
  well_keyed key v -> cache_ok (cache w) -> cache_ok (cache (after_set key v w)).
Proof.
  intros Hv Hok k entry. cbn [after_set cache]. intros H.
  apply lookup_insert_Some in H as [[<- <-]|[_ H]]; [exact Hv | by apply Hok].
Qed.

Lemma exam_elems_spec (doc : Dom.document) (elems : Dom.selection) :
  fold_left (exam_elem doc) elems []
  = List.map (exam_of doc)
      (List.filter
         (fun elem => truthy (Exam.examName (exam_of doc elem))
                      && (0 <? List.length (Exam.subjects (exam_of doc elem)))%nat)
         elems).
Proof.
  unfold exam_elem.
  rewrite (fold_left_push
             (fun elem => truthy (Exam.examName (exam_of doc elem))
                          && (0 <? List.length (Exam.subjects (exam_of doc elem)))%nat)
             (exam_of doc)).
  reflexivity.
Qed.

Lemma results_of_good (doc : Dom.document) (registerNo successUrl : string) :
  (0 <? List.length (Results.results (results_of doc registerNo successUrl)))%nat = true ->
  good_results (results_of doc registerNo successUrl).
Proof.
  intros Hn. split.
  - intros E. rewrite E in Hn. discriminate.
  - cbn [results_of Results.results]. rewrite exam_elems_spec.
    apply List.Forall_forall. intros e He. apply in_map_iff in He as (elem & <- & Hin).
    apply filter_In in Hin as [_ Hk]. apply andb_true_iff in Hk as [_ Hk].
    intros E. rewrite E in Hk. discriminate.
Qed.

Lemma toUpperCase_length (s : string) :
  String.length (toUpperCase s) = String.length s.
Proof.
  unfold toUpperCase. induction s as [|c s IH]; simpl; [done | by rewrite IH].
Qed.

Lemma match_here_length (cls : list charclass) (s rest : string) :
  match_here cls s = Some rest ->
  String.length s = (List.length cls + String.length rest)%nat.
Proof.
  revert s. induction cls as [|k cls IH]; intros s; simpl.
  - by intros [= ->].
  - destruct s as [|c s]; [discriminate|]. destruct (k c); [|discriminate].
    intros H. apply IH in H. simpl. lia.
Qed.

Lemma REGNO_RE_length (s : string) :
  REGNO_RE_test s = true -> String.length s = 10%nat.
Proof.
  unfold REGNO_RE_test, match_whole.
  destruct (match_here REGNO_RE s) as [[|c r]|] eqn:E; try discriminate.
  intros _. apply match_here_length in E. exact E.
Qed.

Lemma profile_run_cache_ok (registerNo password : option Json) (w w' : World)
  (resp : Response) :
  profile_run env registerNo password w resp w' ->
  cache_ok (cache w) -> cache_ok (cache w').
Proof.
  intros [resp' ? ?|reg v ? ? ?|reg resp' w1 ? ? ? Hext ? ?
         |reg pw content w1 ? ? ? ? Hlogin ?] Hok.
  - exact Hok.
  - by apply cache_ok_after_get.
  - eapply cache_ok_extends; [exact Hext|]. by apply cache_ok_after_get.
  - apply cache_ok_after_set; [reflexivity|].
    pose proof (quiet_loginStudent reg pw (after_get (profile_cacheKey reg) w)) as Hq.
    rewrite Hlogin in Hq. eapply cache_ok_extends; [exact Hq|].
    by apply cache_ok_after_get.
Qed.

Lemma results_run_cache_ok (registerNo : string) (examId : option string)
  (w w' : World) (resp : Response) :
  results_run env registerNo examId w resp w' ->
  cache_ok (cache w) -> cache_ok (cache w').
Proof.
  intros [resp' ? ? ?|v ? ?|e w1 ? ? Hext ?|response err w1 ? ? Hext ? ? ?
         |response successUrl doc w1 Hre ? Htry ? ? results Hn] Hok.
  - exact Hok.
  - by apply cache_ok_after_get.
  - eapply cache_ok_extends; [exact Hext|]. by apply cache_ok_after_get.
  - eapply cache_ok_extends; [exact Hext|]. by apply cache_ok_after_get.
  - apply cache_ok_after_set.
    + split; [|split].
      * by exists (exam_key examId).
      * cbn [results results_of Results.registerNo].
        rewrite toUpperCase_length. by apply REGNO_RE_length.
      * by apply results_of_good.
    + pose proof (quiet_try_urls examId (resultsUrls registerNo) None
                    (after_get (results_cacheKey registerNo examId) w)) as Hq.
      rewrite Htry in Hq. eapply cache_ok_extends; [exact Hq|].
      by apply cache_ok_after_get.
Qed.

Lemma attendance_run_extends (registerNo password : option Json) (w w' : World)
  (resp : Response) :
  attendance_run env registerNo password w resp w' -> extends w w'.
Proof. intros [| |]; auto using extends_refl. Qed.

Lemma announcements_run_cache_ok (w w' : World) (resp : Response) :
  announcements_run env w resp w' -> cache_ok (cache w) -> cache_ok (cache w').
Proof.
  intros [v ?|resp' w1 ? Hext ? ?|response doc w1 ? Hreq ? ? result] Hok.
  - by apply cache_ok_after_get.
  - eapply cache_ok_extends; [exact Hext|]. by apply cache_ok_after_get.
  - apply cache_ok_after_set; [reflexivity|].
    pose proof (quiet_makeRequest KTU_ANNOUNCEMENTS_URL (mkOptions "GET" None)
                  default_retries (after_get announcements_cacheKey w)) as Hq.
    rewrite Hreq in Hq. eapply cache_ok_extends; [exact Hq|].
    by apply cache_ok_after_get.
Qed.

(** [respond] is the route's own answer: no route lets an exception out. *)
Lemma respond_handle (req : Request) (w : World) :
  exists resp w',
    handle env req w = (Return resp, w') /\ respond env req w = (resp, w').
Proof.
  unfold respond.
  destruct req as [r p|r e|r p| |body|body]; cbn [handle].
  - destruct (profile_route_runs r p w) as (resp & w' & -> & _). by eexists _, _.
  - destruct (results_route_runs r e w) as (resp & w' & -> & _). by eexists _, _.
  - destruct (attendance_route_runs r p w) as (resp & w' & -> & _). by eexists _, _.
  - destruct (announcements_route_runs w) as (resp & w' & -> & _). by eexists _, _.
  - destruct (profile_handler_runs body w) as (resp & w' & -> & _). by eexists _, _.
  - destruct (attendance_handler_runs body w) as (resp & w' & -> & _). by eexists _, _.
Qed.

Lemma respond_cache_ok (req : Request) (w : World) :
  cache_ok (cache w) -> cache_ok (cache (snd (respond env req w))).
Proof.
  intros Hok. unfold respond.
  destruct req as [r p|r e|r p| |body|body]; cbn [handle].
  - destruct (profile_route_runs r p w) as (resp & w' & -> & Hrun).
    by eapply profile_run_cache_ok.
  - destruct (results_route_runs r e w) as (resp & w' & -> & Hrun).
    by eapply results_run_cache_ok.
  - destruct (attendance_route_runs r p w) as (resp & w' & -> & Hrun).
    eapply cache_ok_extends; [|exact Hok]. by eapply attendance_run_extends.
  - destruct (announcements_route_runs w) as (resp & w' & -> & Hrun).
    by eapply announcements_run_cache_ok.
  - destruct (profile_handler_runs body w) as (resp & w' & -> & Hrun).
    by eapply profile_run_cache_ok.
  - destruct (attendance_handler_runs body w) as (resp & w' & -> & Hrun).
    eapply cache_ok_extends; [|exact Hok]. by eapply attendance_run_extends.
Qed.

(** The invariant of the cache, along every run of the server. *)
Lemma reachable_cache_ok (w : World) : reachable env w -> cache_ok (cache w).
Proof.
  induction 1 as [t|w w' Hreach IH Hstep].
  - apply cache_ok_empty.
  - destruct Hstep as [req w|d w Hd|w].
    + by apply respond_cache_ok.
    + exact IH.
    + intros key entry. cbn [sweep cache]. intros H.
      apply map_lookup_filter_Some in H as [H _]. by apply IH.
Qed.

Lemma live_lookup (t : Z) (c : gmap string (Z * Value)) (key : string) (v : Value) :
  live t c key = Some v ->
  exists entry, c !! key = Some entry /\ snd entry = v /\ expired t entry = false.
Proof.
  unfold live. destruct (c !! key) as [entry|]; [|discriminate].
  destruct (expired t entry) eqn:E; [discriminate|]. intros [= <-]. by exists entry.
Qed.

(** What sits under a results key is a results record. *)
Lemma results_key_value (c : gmap string (Z * Value)) (t : Z)
  (registerNo : string) (examId : option string) (v : Value) :
  cache_ok c ->
  live t c (results_cacheKey registerNo examId) = Some v ->
  exists r, v = VResults r /\ good_results r /\
            (exists ek, results_cacheKey registerNo examId
                        = "results_" +:+ Results.registerNo r +:+ "_" +:+ ek) /\
            String.length (Results.registerNo r) = 10%nat.
Proof.
  intros Hok Hlive. apply live_lookup in Hlive as (entry & Hl & <- & _).
  apply Hok in Hl. destruct (snd entry) as [p|r|a|a]; cbn [well_keyed] in Hl.
  - unfold results_cacheKey in Hl. cbn in Hl. discriminate.
  - destruct Hl as (Hk & Hlen & Hg). by exists r.
  - done.
  - unfold results_cacheKey, announcements_cacheKey in Hl. cbn in Hl. discriminate.
Qed.

(** C1 (as amended).  For a register number of the right format and a
    world the server can be in, the public-results route answers with status
    200 and a results record that has at least one exam, every exam with at
    least one subject, or with status 404 and an error body, or -- when the
    portal has answered 200 with a body that is no text and on which the
    parser throws -- with status 500 and the message of that error.  It never
    answers 200 with an empty list. *)
Theorem results_never_empty (registerNo : string) (examId : option string) (w : World) :
  reachable env w ->
  REGNO_RE_test registerNo = true ->
  exists resp w',
    results_route env registerNo examId w = (Return resp, w') /\
    (record_or_not_found resp \/ (res_status resp = 500 /\ unreadable_body env resp)) /\
    (forall r cached, res_body resp = BValue (VResults r) cached -> Results.results r <> []).
Proof.
  intros Hreach Hre.
  destruct (results_route_runs registerNo examId w) as (resp & w' & Hrun & Hshape).
  exists resp, w'. split; [exact Hrun|].
  assert (record_or_not_found resp \/ (res_status resp = 500 /\ unreadable_body env resp))
    as Hout.
  { destruct Hshape as [resp' Hbad ? ?|v ? Hlive|e w1 ? ? ? ?
                       |response err w1 ? ? ? Hu Hserved Hp
                       |response successUrl doc w1 ? ? ? ? ? results Hn].
    - congruence.
    - left. left. split; [reflexivity|].
      destruct (results_key_value _ _ _ _ _ (reachable_cache_ok w Hreach) Hlive)
        as (r & -> & Hg & _).
      by exists r, true.
    - left. right. split; [reflexivity | by eexists].
    - right. split; [reflexivity|].
      destruct (parse_throws _ _ Hp) as [Htext Hload].
      exists response, err. cbn [usable] in Hu.
      apply andb_true_iff in Hu as [Hs Ht]. apply Z.eqb_eq in Hs.
      by repeat split.
    - left. left. split; [reflexivity|]. exists results, false.
      split; [reflexivity | by apply results_of_good]. }
  split; [exact Hout|].
  intros r cached Hbody.
  destruct Hout as [[(_ & r' & c' & Hb & [Hne _])|(_ & e & He)]
                   |(_ & _ & err & _ & _ & _ & _ & _ & ->)].
  - rewrite Hbody in Hb. by injection Hb as -> _.
  - rewrite Hbody in He. discriminate He.
  - discriminate Hbody.
Qed.

(** ** A second call inside the TTL window *)

Lemma profile_route_hit (reg pw : string) (v : Value) (w : World) :
  truthy pw = true -> REGNO_RE_test reg = true ->
  live (clock w) (cache w) (profile_cacheKey reg) = Some v ->
  profile_route env (Some reg) (Some pw) w
  = (Return (json_cached v), after_get (profile_cacheKey reg) w).
Proof.
  intros Hp Hre Hlive. unfold profile_route, profile_fetch, try_catch. cbn [truthy_opt].
  assert (truthy reg = true) as -> by (by destruct reg).
  rewrite Hp. cbn [negb orb from_option id]. rewrite Hre. cbn [negb].
  rewrite bind_run, cache_get_run, Hlive. reflexivity.
Qed.

Lemma after_get_live (key : string) (v : Value) (w : World) :
  live (clock w) (cache w) key = Some v -> cache (after_get key w) = cache w.
Proof.
  intros H. apply live_lookup in H as (entry & Hl & _ & He).
  cbn [after_get cache]. by rewrite Hl, He.
Qed.

(** C3.  When a profile call has fetched and answered a profile [v] (no
    [cached] marker), a second call for a register number with the same
    upper-case form, at most [stdTTL] seconds later, answers the same [v] with
    the marker [cached: true]; it only reads the cache, which stays as it
    was. *)
Theorem profile_cache_idempotent (reg pw reg' pw' : string) (v : Value)
  (w w1 : World) (d : Z) :
  profile_route env (Some reg) (Some pw) w
    = (Return (mkResponse 200 (BValue v false)), w1) ->
  REGNO_RE_test reg' = true -> truthy pw' = true ->
  toUpperCase reg' = toUpperCase reg ->
  0 <= d <= stdTTL * 1000 ->
  let run := profile_route env (Some reg') (Some pw') (tick d w1) in
  fst run = Return (mkResponse 200 (BValue v true)) /\
  cache (snd run) = cache w1 /\
  trace (snd run) = trace w1 ++ [EvCacheGet (profile_cacheKey reg)].
Proof.
  intros Hfirst Hre' Hp' Hup Hd run.
  destruct (profile_route_runs (Some reg) (Some pw) w) as (resp & w' & Hrun & Hshape).
  rewrite Hfirst in Hrun. injection Hrun as <- <-.
  assert (cache w1 !! profile_cacheKey reg = Some (clock w1 + stdTTL * 1000, v))
    as Hstored.
  { inversion Hshape as [resp' Hst He|reg0 v0 ? ? ?|reg0 resp' w0 ? ? ? ? ? He
                        |reg0 pw0 content w0 Hreg ? ? ? ? ?]; subst.
    - cbn in Hst. destruct Hst; discriminate.
    - destruct He as (e & He & _). cbn in He. discriminate.
    - injection Hreg as <-. cbn [after_set cache clock]. apply lookup_insert_eq. }
  assert (profile_cacheKey reg' = profile_cacheKey reg) as Hkey.
  { unfold profile_cacheKey. by rewrite Hup. }
  assert (live (clock (tick d w1)) (cache (tick d w1)) (profile_cacheKey reg') = Some v)
    as Hlive.
  { unfold live. cbn [tick cache clock]. rewrite Hkey, Hstored.
    unfold expired. cbn [fst snd].
    replace (clock w1 + stdTTL * 1000 <? clock w1 + d) with false
      by (symmetry; apply Z.ltb_ge; lia).
    by rewrite andb_false_r. }
  subst run. rewrite (profile_route_hit reg' pw' v (tick d w1) Hp' Hre' Hlive).
  split; [reflexivity|]. split.
  - cbn [snd]. by rewrite (after_get_live _ _ _ Hlive).
  - cbn [snd after_get trace tick]. by rewrite Hkey.
Qed.

(** ** A title without a parenthesis *)

(** C10.  When the title of the profile page (the text of the first
    [.profile-title] element) has no parenthesis, the profile route answers
    with status 200 and a profile whose [name] and [admissionNo] are both
    empty: the title text is dropped, and nothing is thrown. *)
Theorem profile_title_without_parenthesis (reg pw content : string) (w w1 : World) :
  truthy pw = true -> REGNO_RE_test reg = true ->
  live (clock w) (cache w) (profile_cacheKey reg) = None ->
  loginStudent env reg pw (after_get (profile_cacheKey reg) w)
    = (Return (Some content), w1) ->
  truthy content = true ->
  no_parenthesis
    (Dom.text (cheerio_load env content)
       (Dom.first (Dom.query (cheerio_load env content) sel_profile_title))) ->
  exists p w',
    profile_route env (Some reg) (Some pw) w = (Return (json (VProfile p)), w') /\
    PersonalInfo.name (Profile.personalInfo p) = "" /\
    PersonalInfo.admissionNo (Profile.personalInfo p) = "".
Proof.
  intros Hp Hre Hlive Hlogin Hc Htitle.
  exists (profile_of (cheerio_load env content) reg). eexists.
  split.
  - unfold profile_route, profile_fetch, try_catch. cbn [truthy_opt].
    assert (truthy reg = true) as -> by (by destruct reg).
    rewrite Hp. cbn [negb orb from_option id]. rewrite Hre. cbn [negb].
    rewrite bind_run, cache_get_run, Hlive.
    rewrite bind_run, Hlogin. cbn [truthy_opt]. rewrite Hc. cbn [negb from_option id].
    rewrite bind_run, cache_set_run. reflexivity.
  - cbn [profile_of Profile.personalInfo personalInfo PersonalInfo.name
         PersonalInfo.admissionNo].
    by apply username_without_parenthesis.
Qed.

(** ** The read-through pattern *)

Lemma profile_run_flow (registerNo password : option Json) (w w' : World)
  (resp : Response) :
  profile_run env registerNo password w resp w' -> cached_flow w resp w'.
Proof.
  intros [resp' Hst ?|reg v ? ? ?|reg resp' w1 ? ? ? Hext Hst ?
         |reg pw content w1 ? ? ? ? Hlogin ?].
  - apply flow_refused; [done | lia].
  - by eapply flow_hit.
  - eapply flow_failed; [exact Hext | lia].
  - eapply flow_fresh; [|reflexivity|reflexivity].
    pose proof (quiet_loginStudent reg pw (after_get (profile_cacheKey reg) w)) as Hq.
    by rewrite Hlogin in Hq.
Qed.

Lemma respond_flow (req : Request) (w : World) :
  match req with
  | PostAttendance _ _ | PostAttendanceBody _ => extends w (snd (respond env req w))
  | _ => cached_flow w (fst (respond env req w)) (snd (respond env req w))
  end.
Proof.
  unfold respond. destruct req as [r p|r e|r p| |body|body]; cbn [handle].
  - destruct (profile_route_runs r p w) as (resp & w' & -> & Hrun). cbn [fst snd].
    by eapply profile_run_flow.
  - destruct (results_route_runs r e w) as (resp & w' & -> & Hrun). cbn [fst snd].
    destruct Hrun as [resp' ? Hst ?|v ? ?|eb w1 ? ? Hext ?|response err w1 ? ? Hext ? ? ?
                     |response successUrl doc w1 ? ? Htry ? ? results ?].
    + apply flow_refused; [done | lia].
    + by eapply flow_hit.
    + eapply flow_failed; [exact Hext | cbn; lia].
    + eapply flow_failed; [exact Hext | cbn; lia].
    + eapply flow_fresh; [|reflexivity|reflexivity].
      pose proof (quiet_try_urls e (resultsUrls r) None
                    (after_get (results_cacheKey r e) w)) as Hq.
      by rewrite Htry in Hq.
  - destruct (attendance_route_runs r p w) as (resp & w' & -> & Hrun). cbn [snd].
    by eapply attendance_run_extends.
  - destruct (announcements_route_runs w) as (resp & w' & -> & Hrun). cbn [fst snd].
    destruct Hrun as [v ?|resp' w1 ? Hext Hst ?|response doc w1 ? Hreq ? ? result].
    + by eapply flow_hit.
    + eapply flow_failed; [exact Hext | lia].
    + eapply flow_fresh; [|reflexivity|reflexivity].
      pose proof (quiet_makeRequest KTU_ANNOUNCEMENTS_URL (mkOptions "GET" None)
                    default_retries (after_get announcements_cacheKey w)) as Hq.
      by rewrite Hreq in Hq.
  - destruct (profile_handler_runs body w) as (resp & w' & -> & Hrun). cbn [fst snd].
    by eapply profile_run_flow.
  - destruct (attendance_handler_runs body w) as (resp & w' & -> & Hrun). cbn [snd].
    by eapply attendance_run_extends.
Qed.

Lemma only_pruned_refl (w : World) : only_pruned w w.
Proof. intros k. by left. Qed.

Lemma only_pruned_after_get (key : string) (w w' : World) :
  cache w' = cache (after_get key w) -> only_pruned w w'.
Proof.
  intros H k. rewrite H. cbn [after_get cache].
  destruct (cache w !! key) as [e|] eqn:E; [|by left].
  destruct (expired (clock w) e) eqn:Hx; [|by left].
  destruct (decide (key = k)) as [<-|Hne].
  - right. rewrite lookup_delete_eq. split; [done|]. by exists e.
  - left. by rewrite lookup_delete_ne.
Qed.

Lemma fetch_not_set (evs : list Event) (key : string) :
  Forall is_fetch evs -> ~ In (EvCacheSet key) evs.
Proof.
  intros HF Hin. rewrite List.Forall_forall in HF. by apply (HF _ Hin).
Qed.

Lemma checked_after_get (key : string) (rest : list Event) :
  cache_checked_first (EvCacheGet key :: rest).
Proof.
  intros pre e post E He. destruct pre as [|x pre]; cbn in E.
  - injection E as <- _. destruct He.
  - injection E as <- _. exists key. by left.
Qed.

(** C8 (as amended).  Profile, results and announcements read the cache before any
    request, wait or browser call; attendance neither reads nor writes it.
    A write happens only as the last step of a call that answers 200 with a
    freshly built record, and stores that record.  A call that answers with
    another status writes nothing: the cache is as it was, except that the
    read may have dropped an entry that had already expired. *)
Theorem cache_read_through (req : Request) (w : World) :
  let run := respond env req w in
  exists evs,
    trace (snd run) = trace w ++ evs /\
    (uses_cache req -> cache_checked_first evs) /\
    (~ uses_cache req -> Forall is_fetch evs /\ cache (snd run) = cache w) /\
    (forall key, In (EvCacheSet key) evs ->
       exists v pre,
         fst run = json v /\ evs = pre ++ [EvCacheSet key] /\
         ~ In (EvCacheSet key) pre /\
         cache (snd run) !! key = Some (clock (snd run) + stdTTL * 1000, v)) /\
    (res_status (fst run) <> 200 ->
       (forall key, ~ In (EvCacheSet key) evs) /\ only_pruned w (snd run)).
Proof.
  intros run. subst run. pose proof (respond_flow req w) as Hflow.
  destruct (respond env req w) as [resp w'] eqn:Hrun. cbn [fst snd] in *.
  destruct req as [r p|r e|r p| |body|body].
  3,6: destruct Hflow as [Hc (evs & Ht & HF)]; exists evs;
       (split; [exact Ht|]); (split; [intros []|]); (split; [done|]);
       (split; [intros key Hin; by destruct (fetch_not_set _ key HF)|]);
       intros _; (split; [intros key; by apply fetch_not_set|]);
       intros k; left; by rewrite Hc.
  all: destruct Hflow as [-> Hst|key v Hlive -> ->|key [Hc (evs & Ht & HF)] Hst
                         |key v w1 [Hc (evs & Ht & HF)] -> ->].
  all: try (exists []; rewrite app_nil_r;
            split; [reflexivity|]; split; [intros _ pre e0 post E; by destruct pre|];
            split; [intros H; by destruct H|]; split; [intros key []|];
            intros _; split; [intros key []|apply only_pruned_refl]).
  all: try (exists [EvCacheGet key]; split; [reflexivity|];
            split; [intros _; apply checked_after_get|];
            split; [intros H; by destruct H|];
            split; [intros k [?|[]]; discriminate|];
            intros Hne; by destruct Hne).
  all: try (exists (EvCacheGet key :: evs);
            split; [rewrite Ht; cbn [after_get trace]; by rewrite <- app_assoc|];
            split; [intros _; apply checked_after_get|];
            split; [intros H; by destruct H|];
            split; [intros k [?|Hin]; [discriminate|by destruct (fetch_not_set _ k HF)]|];
            intros _; split;
            [intros k [?|Hin]; [discriminate|by destruct (fetch_not_set _ k HF)]
            |by apply only_pruned_after_get with key]).
  all: exists (EvCacheGet key :: evs ++ [EvCacheSet key]);
       (split; [cbn [after_set trace]; rewrite Ht; cbn [after_get trace];
                by rewrite <- !app_assoc|]);
       (split; [intros _; apply checked_after_get|]);
       (split; [intros H; by destruct H|]);
       (split; [|intros Hne; by destruct Hne]);
       intros k [?|Hin]; [discriminate|];
       apply in_app_or in Hin as [Hin|[[= <-]|[]]];
       [by destruct (fetch_not_set _ k HF)|];
       exists v, (EvCacheGet key :: evs); split; [reflexivity|];
       (split; [reflexivity|]);
       (split; [intros [?|Hin]; [discriminate|by destruct (fetch_not_set _ key HF)]|]);
       cbn [after_set cache clock]; apply lookup_insert_eq.
Qed.

(** ** The upper-case form of the register number *)

Lemma upper_char_not_lower (c : ascii) : isLower (upper_char c) = false.
Proof. destruct c as [[] [] [] [] [] [] [] []]; reflexivity. Qed.

Lemma toUpperCase_no_lower (s : string) : no_lower (toUpperCase s).
Proof.
  unfold no_lower, toUpperCase. induction s as [|c s IH]; simpl.
  - constructor.
  - constructor; [apply upper_char_not_lower | exact IH].
Qed.

Lemma append_inj_l (p a b : string) : p +:+ a = p +:+ b -> a = b.
Proof. induction p as [|c p IH]; simpl; [done|]. intros [= H]. by apply IH. Qed.

Lemma append_same_length (a1 a2 b1 b2 : string) :
  a1 +:+ b1 = a2 +:+ b2 -> String.length a1 = String.length a2 -> a1 = a2.
Proof.
  revert a2. induction a1 as [|c a1 IH]; intros [|d a2]; simpl; try done.
  intros [= -> H] [= Hl]. f_equal. by apply IH.
Qed.

(** What sits under a profile key is a profile with that register number. *)
Lemma profile_key_value (c : gmap string (Z * Value)) (t : Z) (reg : string) (v : Value) :
  cache_ok c ->
  live t c (profile_cacheKey reg) = Some v ->
  exists p, v = VProfile p /\ Profile.registerNo p = toUpperCase reg.
Proof.
  intros Hok Hlive. apply live_lookup in Hlive as (entry & Hl & <- & _).
  apply Hok in Hl. destruct (snd entry) as [p|r|a|a]; cbn [well_keyed] in Hl.
  - exists p. split; [done|]. unfold profile_cacheKey in Hl.
    symmetry. by apply append_inj_l in Hl.
  - destruct Hl as ((ek & Hk) & _). unfold profile_cacheKey in Hk. cbn in Hk.
    discriminate.
  - done.
  - unfold profile_cacheKey, announcements_cacheKey in Hl. cbn in Hl. discriminate.
Qed.

Lemma results_key_registerNo (c : gmap string (Z * Value)) (t : Z)
  (reg : string) (examId : option string) (v : Value) :
  cache_ok c -> REGNO_RE_test reg = true ->
  live t c (results_cacheKey reg examId) = Some v ->
  exists r, v = VResults r /\ Results.registerNo r = toUpperCase reg.
Proof.
  intros Hok Hre Hlive.
  destruct (results_key_value _ _ _ _ _ Hok Hlive) as (r & -> & _ & (ek & Hk) & Hlen).
  exists r. split; [done|]. unfold results_cacheKey in Hk.
  apply append_inj_l in Hk. symmetry.
  eapply append_same_length; [exact Hk|].
  rewrite toUpperCase_length, Hlen. by apply REGNO_RE_length.
Qed.

Lemma plain_error_field (resp : Response) :
  plain_error resp -> registerNo_field resp = None.
Proof. intros (e & He & Hn). unfold registerNo_field. by rewrite He. Qed.

Lemma fetch_not_cache_event (evs : list Event) (key : string) (e : Event) :
  Forall is_fetch evs -> In e evs -> ~ is_cache_event key e.
Proof.
  intros HF Hin [-> | ->]; rewrite List.Forall_forall in HF; by apply (HF _ Hin).
Qed.

(** The keys and the [registerNo] field of a run of the profile route. *)
Lemma profile_run_upper (reg : string) (password : option Json) (w w' : World)
  (resp : Response) :
  cache_ok (cache w) ->
  profile_run env (Some (JStr reg)) password w resp w' ->
  (exists evs,
     trace w' = trace w ++ evs /\
     forall key e, In e evs -> is_cache_event key e ->
                   In key ["profile_" +:+ toUpperCase reg]) /\
  (forall r, registerNo_field resp = Some r -> r = toUpperCase reg).
Proof.
  intros Hok Hrun.
  destruct Hrun as [resp' Hst Hpl|reg0 v [= <-] ? Hlive
                   |reg0 resp' w1 [= <-] ? ? [Hc (evs & Ht & HF)] Hst Hpl
                   |reg0 pw content w1 [= <-] ? ? ? Hlogin ?].
  - split; [exists []; split; [by rewrite app_nil_r | intros ? ? []]|].
    rewrite (plain_error_field _ Hpl). discriminate.
  - split.
    + exists [EvCacheGet (profile_cacheKey reg)]. split; [reflexivity|].
      intros key e0 [<-|[]] [[= <-]|?]; [by left|discriminate].
    + destruct (profile_key_value _ _ _ _ Hok Hlive) as (pr & -> & Hp).
      cbn. by intros r [= <-].
  - split.
    + exists (EvCacheGet (profile_cacheKey reg) :: evs).
      split; [rewrite Ht; cbn [after_get trace]; by rewrite <- app_assoc|].
      intros key e0 [<-|Hin] Hce.
      * destruct Hce as [[= <-]|?]; [by left|discriminate].
      * by destruct (fetch_not_cache_event _ key _ HF Hin).
    + rewrite (plain_error_field _ Hpl). discriminate.
  - pose proof (quiet_loginStudent reg pw (after_get (profile_cacheKey reg) w)) as Hq.
    rewrite Hlogin in Hq. destruct Hq as [Hc (evs & Ht & HF)]. split.
    + exists (EvCacheGet (profile_cacheKey reg) :: evs
              ++ [EvCacheSet (profile_cacheKey reg)]).
      split; [cbn [after_set trace]; cbn [snd] in Ht; rewrite Ht;
              cbn [after_get trace]; by rewrite <- !app_assoc|].
      intros key e0 [<-|Hin] Hce.
      * destruct Hce as [[= <-]|?]; [by left|discriminate].
      * apply in_app_or in Hin as [Hin|[<-|[]]].
        -- by destruct (fetch_not_cache_event _ key _ HF Hin).
        -- destruct Hce as [?|[= <-]]; [discriminate|by left].
    + cbn. by intros r [= <-].
Qed.

(** A run of the attendance route names no key and answers without a
    [registerNo] field. *)
Lemma attendance_run_upper (registerNo password : option Json) (w w' : World)
  (resp : Response) :
  attendance_run env registerNo password w resp w' ->
  (exists evs,
     trace w' = trace w ++ evs /\
     forall key e, In e evs -> is_cache_event key e -> In key []) /\
  registerNo_field resp = None.
Proof.
  intros Hrun.
  pose proof (attendance_run_extends _ _ _ _ _ Hrun) as [Hc (evs & Ht & HF)].
  split.
  - exists evs. split; [exact Ht|].
    intros key e0 Hin Hce. by destruct (fetch_not_cache_event _ key _ HF Hin).
  - destruct Hrun as [resp' ? Hpl|resp' w1 ? ? Hpl|]; cbn;
      rewrite ?(plain_error_field _ Hpl); reflexivity.
Qed.

Lemma body_registerNo_text (body : option Fields) (reg : string) :
  match body ≫= body_registerNo with
  | Some (JStr r) => Some r
  | _ => None
  end = Some reg ->
  body ≫= body_registerNo = Some (JStr reg).
Proof.
  destruct (body ≫= body_registerNo) as [[| | |r| |]|]; try discriminate.
  by intros [= ->].
Qed.

(** C9.  For a request whose register number [reg] passes the format
    check, in any world the server can be in: the upper-case form of [reg]
    has no lower-case letter; every cache key the call reads or writes is
    built from that form; and the [registerNo] field of the answer, when
    there is one, is that form. *)
Theorem registerNo_upper_in_keys_and_fields (req : Request) (reg : string) (w : World) :
  reachable env w ->
  request_registerNo req = Some reg ->
  REGNO_RE_test reg = true ->
  let run := respond env req w in
  let U := toUpperCase reg in
  no_lower U /\
  (exists evs,
     trace (snd run) = trace w ++ evs /\
     forall key e, In e evs -> is_cache_event key e -> In key (keys_for req U)) /\
  (forall r, registerNo_field (fst run) = Some r -> r = U).
Proof.
  intros Hreach Hreq Hre run U. subst run U.
  split; [apply toUpperCase_no_lower|].
  pose proof (reachable_cache_ok w Hreach) as Hok.
  unfold respond.
  destruct req as [r p|r e|r p| |body|body]; cbn [handle request_registerNo keys_for] in *;
    [| injection Hreq as -> | |discriminate| |].
  - subst r.
    destruct (profile_route_runs (Some reg) p w) as (resp & w' & -> & Hrun).
    cbn [fst snd]. by eapply profile_run_upper.
  - destruct (results_route_runs reg e w) as (resp & w' & -> & Hrun).
    cbn [fst snd].
    destruct Hrun as [resp' Hbad ? Hpl|v ? Hlive|eb w1 ? ? [Hc (evs & Ht & HF)] Hf
                     |response err w1 ? ? [Hc (evs & Ht & HF)] ? ? ?
                     |response successUrl doc w1 ? ? Htry ? ? results ?].
    + congruence.
    + split.
      * exists [EvCacheGet (results_cacheKey reg e)]. split; [reflexivity|].
        intros key e0 [<-|[]] [[= <-]|?]; [by left|discriminate].
      * destruct (results_key_registerNo _ _ _ _ _ Hok Hre Hlive) as (rr & -> & Hp).
        cbn. by intros r [= <-].
    + split.
      * exists (EvCacheGet (results_cacheKey reg e) :: evs).
        split; [rewrite Ht; cbn [after_get trace]; by rewrite <- app_assoc|].
        intros key e0 [<-|Hin] Hce.
        -- destruct Hce as [[= <-]|?]; [by left|discriminate].
        -- by destruct (fetch_not_cache_event _ key _ HF Hin).
      * cbn. rewrite Hf. by intros r [= <-].
    + split.
      * exists (EvCacheGet (results_cacheKey reg e) :: evs).
        split; [rewrite Ht; cbn [after_get trace]; by rewrite <- app_assoc|].
        intros key e0 [<-|Hin] Hce.
        -- destruct Hce as [[= <-]|?]; [by left|discriminate].
        -- by destruct (fetch_not_cache_event _ key _ HF Hin).
      * cbn. intros r Hr. discriminate Hr.
    + pose proof (quiet_try_urls e (resultsUrls reg) None
                    (after_get (results_cacheKey reg e) w)) as Hq.
      rewrite Htry in Hq. destruct Hq as [Hc (evs & Ht & HF)]. split.
      * exists (EvCacheGet (results_cacheKey reg e) :: evs
                ++ [EvCacheSet (results_cacheKey reg e)]).
        split; [cbn [after_set trace]; cbn [snd] in Ht; rewrite Ht;
                cbn [after_get trace]; by rewrite <- !app_assoc|].
        intros key e0 [<-|Hin] Hce.
        -- destruct Hce as [[= <-]|?]; [by left|discriminate].
        -- apply in_app_or in Hin as [Hin|[<-|[]]].
           ++ by destruct (fetch_not_cache_event _ key _ HF Hin).
           ++ destruct Hce as [?|[= <-]]; [discriminate|by left].
      * cbn. by intros r [= <-].
  - destruct (attendance_route_runs r p w) as (resp & w' & -> & Hrun).
    cbn [fst snd]. destruct (attendance_run_upper _ _ _ _ _ Hrun) as [Hk Hf].
    split; [exact Hk|]. rewrite Hf. intros r0 Hr0. discriminate Hr0.
  - apply body_registerNo_text in Hreq.
    destruct (profile_handler_runs body w) as (resp & w' & -> & Hrun).
    cbn [fst snd]. rewrite Hreq in Hrun. by eapply profile_run_upper.
  - destruct (attendance_handler_runs body w) as (resp & w' & -> & Hrun).
    cbn [fst snd]. destruct (attendance_run_upper _ _ _ _ _ Hrun) as [Hk Hf].
    split; [exact Hk|]. rewrite Hf. intros r0 Hr0. discriminate Hr0.
Qed.

End Runs.

(** ** The percentage derived from the CGPA *)

(** *** What two decimals are *)

Lemma length_append (a b : string) :
  String.length (a +:+ b) = (String.length a + String.length b)%nat.
Proof. induction a as [|c a IH]; simpl; [done | by rewrite IH]. Qed.

Lemma length_zeros (n : nat) : String.length (JsNumber.zeros n) = n.
Proof. induction n as [|n IH]; simpl; [done | by rewrite IH]. Qed.

Lemma length_drop_chars (n : nat) (s : string) :
  String.length (drop_chars n s) = (String.length s - n)%nat.
Proof.
  revert s. induction n as [|n IH]; intros s; simpl; [lia|].
  destruct s as [|c s]; simpl; [done | apply IH].
Qed.

Lemma length_take_chars (n : nat) (s : string) :
  (n <= String.length s)%nat -> String.length (take_chars n s) = n.
Proof.
  revert s. induction n as [|n IH]; intros s H; simpl; [done|].
  destruct s as [|c s]; simpl in *; [lia|]. rewrite IH; lia.
Qed.

(** The text of [n / 100]: an integer part of at least one digit, a point,
    and exactly two more characters. *)
Lemma two_decimals_shape (n : Z) :
  exists ip fp,
    JsNumber.two_decimals n = ip +:+ "." +:+ fp /\
    (1 <= String.length ip)%nat /\ String.length fp = 2%nat.
Proof.
  unfold JsNumber.two_decimals.
  set (d := JsNumber.digits_string n).
  set (d' := JsNumber.zeros (3 - String.length d) +:+ d).
  assert (3 <= String.length d')%nat as Hlen.
  { unfold d'. rewrite length_append, length_zeros. lia. }
  eexists _, _. split; [reflexivity|]. split.
  - rewrite length_take_chars; lia.
  - rewrite length_drop_chars. lia.
Qed.

(** [hundredths m e] is the integer nearest to [100 * m * 2^e], the larger
    one when two are as near. *)
Lemma hundredths_nearest (m : positive) (e : Z) :
  (0 <= e -> JsNumber.hundredths m e = 100 * (Zpos m * 2 ^ e)) /\
  (e < 0 ->
   - 2 ^ (- e) <= 200 * Zpos m - 2 * 2 ^ (- e) * JsNumber.hundredths m e < 2 ^ (- e)).
Proof.
  unfold JsNumber.hundredths. split; intros He.
  - rewrite (proj2 (Z.leb_le 0 e)) by lia. lia.
  - rewrite (proj2 (Z.leb_gt 0 e)) by lia.
    replace (1 - e) with (Z.succ (- e)) by lia. rewrite Z.pow_succ_r by lia.
    assert (0 < 2 ^ (- e)) as HD by (apply Z.pow_pos_nonneg; lia).
    set (D := 2 ^ (- e)) in *.
    pose proof (Z.div_mod (200 * Zpos m + D) (2 * D) ltac:(lia)) as Hdm.
    pose proof (Z.mod_pos_bound (200 * Zpos m + D) (2 * D) ltac:(lia)) as Hb.
    lia.
Qed.

Lemma scaled_finite (c : number) :
  JsNumber.isFinite (scaled_cgpa c) = true -> JsNumber.isFinite c = true.
Proof.
  destruct c as [s|s| |s m e]; [reflexivity| | |reflexivity].
  - destruct s; vm_compute; intros H; discriminate H.
  - vm_compute. intros H; discriminate H.
Qed.

Lemma toFixed2_below (x : number) :
  below_1e21 x = true -> JsNumber.toFixed2 x = two_decimal_text x.
Proof.
  unfold below_1e21. destruct x as [s|s| |s m e].
  - intros _. reflexivity.
  - cbn [JsNumber.isFinite andb]. intros H. discriminate H.
  - cbn [JsNumber.isFinite andb]. intros H. discriminate H.
  - cbn [JsNumber.isFinite SFabs andb]. intros H. apply negb_true_iff in H.
    cbn [JsNumber.toFixed2 two_decimal_text]. rewrite H. reflexivity.
Qed.

(** C4 (as amended).  The percentage is a function of the CGPA text alone.
    When [parseFloat] of that text is not NaN (an infinite value included),
    it is [((c * 10) - 2.5).toFixed(2)] followed by a percent sign; when it
    is NaN (the text is empty or does not start with a number) it is empty.
    On the texts that parse as NaN, and on those for which [c * 10 - 2.5] is
    finite and below [10^21] in absolute value, this is the claim's
    two-decimal text.  The CGPA text 8.50 gives 82.50%. *)
Theorem percentage_derived (doc : Dom.document) :
  let a := academicInfo doc in
  let c := JsNumber.parseFloat (AcademicInfo.cgpa a) in
  AcademicInfo.percentage a
  = (if JsNumber.isNaN c then "" else JsNumber.toFixed2 (scaled_cgpa c) +:+ "%") /\
  (JsNumber.isNaN c = true \/ below_1e21 (scaled_cgpa c) = true ->
   AcademicInfo.percentage a = stated_percentage (AcademicInfo.cgpa a)) /\
  percentage_of "8.50" = "82.50%".
Proof.
  intros a c. subst a c.
  cbn [academicInfo AcademicInfo.percentage AcademicInfo.cgpa].
  unfold percentage_of, percentage_text, stated_percentage. fold scaled_cgpa.
  set (c := JsNumber.parseFloat (or_else (cgpa doc) "")).
  split; [|split].
  - by destruct (JsNumber.isNaN c).
  - intros [Hnan|Hb].
    + rewrite Hnan. cbn [negb]. by destruct c.
    + assert (JsNumber.isFinite c = true) as Hf.
      { apply scaled_finite. unfold below_1e21 in Hb.
        by apply andb_true_iff in Hb as [Hb _]. }
      rewrite Hf. assert (JsNumber.isNaN c = false) as -> by (by destruct c).
      cbn [negb]. fold (scaled_cgpa c). by rewrite toFixed2_below.
  - vm_compute. reflexivity.
Qed.

(** C4, as stated, fails on both pages: the first gets [Infinity%] although
    its CGPA is no finite number, the second gets [1e+22%], which has no
    decimals. *)
Lemma percentage_not_as_stated :
  ~ percentage_as_stated infinite_cgpa_page /\
  ~ percentage_as_stated huge_cgpa_page /\
  AcademicInfo.percentage (academicInfo infinite_cgpa_page) = "Infinity%" /\
  AcademicInfo.percentage (academicInfo huge_cgpa_page) = "1e+22%".
Proof.
  unfold percentage_as_stated.
  repeat split; try (vm_compute; reflexivity); vm_compute; discriminate.
Qed.

(** ** Activity points *)

Lemma activity_row_spec (doc : Dom.document) (acc : list Breakdown.t) (row : Dom.path) :
  activity_row doc acc row
  = if is_category_row (cells_of doc row)
    then acc ++ [category_points (cells_of doc row)] else acc.
Proof.
  unfold activity_row, is_category_row, category_points.
  rewrite cells_of_length, !cell_text_nth. fold (cells_of doc row).
  destruct (2 <=? List.length (Dom.find doc [row] sel_td))%nat; [|done].
  cbn [andb]. reflexivity.
Qed.

Lemma breakdown_spec (doc : Dom.document) :
  breakdown doc = stated_breakdown (activity_table doc).
Proof.
  unfold breakdown, stated_breakdown, activity_table.
  rewrite (fold_left_ext _
             (fun acc row => if is_category_row (cells_of doc row)
                             then acc ++ [category_points (cells_of doc row)] else acc))
    by apply activity_row_spec.
  rewrite (fold_left_push (fun row => is_category_row (cells_of doc row))
                          (fun row => category_points (cells_of doc row))).
  cbn [app]. apply map_filter_map.
Qed.

Lemma totalPointsText_spec (doc : Dom.document) :
  totalPointsText doc = last_cell (activity_table doc).
Proof.
  unfold totalPointsText, last_cell, activity_table.
  rewrite (dom_last_spec (activityRows doc)).
  destruct (activityRows doc) as [|r rows] eqn:Hrows.
  - rewrite find_nil. reflexivity.
  - rewrite (last_map_nonempty (cells_of doc) r rows [] []).
    set (lastRow := List.last (r :: rows) []).
    rewrite dom_last_spec. unfold cells_of.
    destruct (Dom.find doc [lastRow] sel_td) as [|c cells]; [reflexivity|].
    rewrite (last_map_nonempty (fun c => trim (Dom.text doc [c])) c cells [] "").
    reflexivity.
Qed.

(** C5 (as amended).  The breakdown lists, in document order, the rows with
    at least two cells whose first two cells are not empty and whose first
    cell is no total label, with the points as integers (0 when they do not
    parse).  The total is the last cell of the last row as an integer, or the
    sum of the breakdown when that cell does not parse or parses as 0.  The
    status is Completed when the total is at least 100, Pending otherwise.
    The breakdown NSS 60, Tech 35 with a total row that does not parse gives
    total 95 and status Pending. *)
Theorem activity_points_spec (doc : Dom.document) :
  activityPoints doc
  = activity_with (amended_total (activity_table doc)) (activity_table doc) /\
  (let a := activityPoints
              (Portal.profile_page "Asha Nair (KTU123)" " : 8.50"
                 Portal.activity_example) in
   ActivityPoints.total a = "95" /\ ActivityPoints.status a = "Pending" /\
   List.map Breakdown.category (ActivityPoints.breakdown a) = ["NSS"; "Tech"]).
Proof.
  split.
  - unfold activityPoints, activity_with, totalPoints, amended_total.
    rewrite breakdown_spec, totalPointsText_spec. reflexivity.
  - vm_compute. repeat split.
Qed.

(** C5, as stated, fails on that page: the last cell parses (as 0), yet the
    total is the sum of the breakdown, 60. *)
Lemma activity_not_as_stated :
  ~ activity_as_stated zero_total_page /\
  JsNumber.isNaN (JsNumber.parseInt (last_cell (activity_table zero_total_page))) = false /\
  ActivityPoints.total (activityPoints zero_total_page) = "60".
Proof.
  unfold activity_as_stated.
  repeat split; try (vm_compute; reflexivity); vm_compute; discriminate.
Qed.

(** ** Attendance *)

Lemma attendance_row_spec (doc : Dom.document) (acc : list AttendanceSubject.t)
  (i : nat) (row : Dom.path) :
  attendance_row doc acc i row
  = if is_subject_row (i, cells_of doc row)
    then acc ++ [amended_subject (i, cells_of doc row)] else acc.
Proof.
  unfold attendance_row, is_subject_row, amended_subject, count_of. cbn [fst snd].
  rewrite cells_of_length, !cell_text_nth. fold (cells_of doc row). reflexivity.
Qed.

Lemma each_indexed_spec (doc : Dom.document) (rows : Dom.selection) (i : nat)
  (acc : list AttendanceSubject.t) :
  each_indexed (attendance_row doc) i rows acc
  = acc ++ List.map amended_subject
             (List.filter is_subject_row
                (combine (seq i (List.length rows)) (List.map (cells_of doc) rows))).
Proof.
  revert i acc. induction rows as [|row rows IH]; intros i acc.
  - cbn. by rewrite app_nil_r.
  - cbn [each_indexed List.length seq List.map combine List.filter].
    rewrite IH, attendance_row_spec.
    destruct (is_subject_row (i, cells_of doc row)); [|reflexivity].
    cbn [List.map]. by rewrite <- app_assoc.
Qed.

Lemma totals_spec (subjects : list AttendanceSubject.t) :
  totals subjects
  = (sum_of AttendanceSubject.attended subjects, sum_of AttendanceSubject.total subjects).
Proof.
  unfold totals, sum_of. generalize (JsNumber.of_Z 0) at 1 3.
  generalize (JsNumber.of_Z 0).
  induction subjects as [|s subjects IH]; intros t a; [reflexivity|].
  cbn [fold_left fst snd]. apply IH.
Qed.

(** C6 (as amended).  Every row of the page but the first, when it has at
    least four cells, gives one subject: attended and total as integers (0
    when they do not parse), and as percentage the text of the fourth cell
    or, when that is empty, [attended / total * 100] with two decimals and a
    percent sign -- 0% when the total is 0.  The overall percentage is the
    same ratio of the summed attended and the summed total, 0% when the
    summed total is 0.  Subjects (34, 40) and (30, 35) give 85.33%. *)
Theorem attendance_spec (doc : Dom.document) :
  attendance_subjects doc
  = List.map amended_subject (List.filter is_subject_row (attendance_table doc)) /\
  overall_of (attendance_subjects doc)
  = ratio_or_zero (sum_of AttendanceSubject.attended (attendance_subjects doc))
                  (sum_of AttendanceSubject.total (attendance_subjects doc)) /\
  Attendance.overall
    (attendance_of (Portal.attendance_page Portal.attendance_example) 0) = "85.33%".
Proof.
  split; [|split].
  - unfold attendance_subjects, attendance_table. by rewrite each_indexed_spec.
  - unfold overall_of. by rewrite totals_spec.
  - vm_compute. reflexivity.
Qed.

(** C6, as stated, fails on that page: the percentage is 0%, not the text
    of [0 / 0 * 100]. *)
Lemma attendance_not_as_stated :
  ~ attendance_as_stated zero_total_attendance /\
  List.map AttendanceSubject.percentage (attendance_subjects zero_total_attendance)
  = ["0%"] /\
  List.map (fun row => AttendanceSubject.percentage (stated_subject row))
    (List.filter is_subject_row (attendance_table zero_total_attendance))
  = ["NaN%"].
Proof.
  split; [|split; vm_compute; reflexivity].
  unfold attendance_as_stated. intros [H _].
  apply (f_equal (List.map AttendanceSubject.percentage)) in H.
  vm_compute in H. discriminate H.
Qed.

(** ** Headers, keys and the announcements cap *)

(** A header given by the caller wins over the default of the same name;
    the other defaults are sent as they are. *)
Theorem merge_headers_caller_wins (method : string) (h : gmap string string)
  (k : string) :
  merge_headers (mkOptions method (Some h)) !! k
  = match h !! k with Some v => Some v | None => defaultHeaders !! k end /\
  merge_headers (mkOptions method None) !! k = defaultHeaders !! k.
Proof.
  split; [|reflexivity]. cbn [merge_headers opt_headers].
  destruct (h !! k) as [v|] eqn:E.
  - by apply lookup_union_Some_l.
  - by apply lookup_union_r.
Qed.

(** The keys of the three cached routes never coincide. *)
Theorem cache_keys_disjoint (r r' : string) (e : option string) :
  profile_cacheKey r <> results_cacheKey r' e /\
  profile_cacheKey r <> announcements_cacheKey /\
  results_cacheKey r' e <> announcements_cacheKey.
Proof.
  unfold profile_cacheKey, results_cacheKey, announcements_cacheKey.
  repeat split; cbn; discriminate.
Qed.

Lemma announcements_parsed (doc : Dom.document) :
  fold_left (announcement_elem doc) (Dom.query doc sel_announcements) []
  = parsed_announcements doc.
Proof.
  unfold parsed_announcements.
  rewrite (fold_left_ext (announcement_elem doc)
             (fun acc elem => if truthy (title_of doc elem)
                              then acc ++ [announcement_of doc elem] else acc))
    by reflexivity.
  apply (fold_left_push (fun elem => truthy (title_of doc elem)) (announcement_of doc)).
Qed.

(** The announcements answer lists the first 20 of the announcements parsed
    from the page -- the entries of the elements that have a title, in
    document order -- and its count is the number of all of them, listed or
    not; so it lists 20 entries at most, and fewer only when there are
    fewer. *)
Theorem announcements_capped (doc : Dom.document) (now : Z) :
  let r := announcements_of doc now in
  Announcements.announcements r = take 20 (parsed_announcements doc) /\
  Announcements.count r = List.length (parsed_announcements doc) /\
  List.length (Announcements.announcements r) = Nat.min 20 (Announcements.count r).
Proof.
  cbn [announcements_of Announcements.announcements Announcements.count].
  rewrite announcements_parsed. split; [reflexivity|]. split; [reflexivity|].
  apply length_take.
Qed.

(** ** Concrete runs on the small portal *)

Lemma after_results_reachable : reachable portal after_results.
Proof. eapply reach_step; [apply (reach_initial portal 0) | apply step_request]. Qed.

(** C1 on the portal, for a second request: it is answered from the cache
    with a record that has an exam. *)
Lemma results_never_empty_witness :
  exists resp w',
    results_route portal "ABC20CS001" None after_results = (Return resp, w') /\
    (record_or_not_found resp \/ (res_status resp = 500 /\ unreadable_body portal resp)) /\
    (forall r cached, res_body resp = BValue (VResults r) cached -> Results.results r <> []).
Proof.
  apply (results_never_empty portal "ABC20CS001" None after_results).
  - exact after_results_reachable.
  - reflexivity.
Defined.

(** C1, as stated, fails on the portal that answers with the JSON text 123:
    the body reaches the route as a number, the parser throws on it, and the
    route answers 500 -- neither a record nor a not-found error. *)
Lemma results_internal_error :
  REGNO_RE_test "ABC20CS001" = true /\
  reachable number_portal (initial 0) /\
  exists resp w',
    results_route number_portal "ABC20CS001" None (initial 0) = (Return resp, w') /\
    res_status resp = 500 /\
    ~ record_or_not_found resp.
Proof.
  split; [reflexivity|]. split; [apply reach_initial|].
  eexists _, _. split; [vm_compute; reflexivity|]. split; [reflexivity|].
  intros [[H _]|[H _]]; discriminate H.
Qed.

(** Failure, failure, success: three requests, waits of 1 s and 2 s, and the
    third response is returned. *)
Example makeRequest_fail_fail_success :
  let opts := mkRequest "GET" "https://ktu.edu.in/" (merge_headers (mkOptions "GET" None)) in
  let run := makeRequest flaky_portal "https://ktu.edu.in/" (mkOptions "GET" None)
               default_retries (initial 0) in
  fst run = Return (Some (mkAxiosResponse 200 Portal.results_html)) /\
  requests (snd run) = 3%nat /\
  trace (snd run)
  = [EvRequest opts; EvSleep 1000; EvRequest opts; EvSleep 2000; EvRequest opts].
Proof. vm_compute. repeat split. Qed.

(** C3 on the portal: the second call, one minute later and with the
    register number in another letter case, is answered from the cache. *)
Lemma profile_cache_idempotent_witness :
  let w1 := snd (profile_route portal (Some "abc20cs001") (Some "pw") (initial 1000)) in
  let v := VProfile (profile_of (Portal.load Portal.profile_html) "abc20cs001") in
  let run := profile_route portal (Some "ABC20CS001") (Some "other") (tick 60000 w1) in
  fst run = Return (mkResponse 200 (BValue v true)) /\
  cache (snd run) = cache w1 /\
  trace (snd run) = trace w1 ++ [EvCacheGet (profile_cacheKey "abc20cs001")].
Proof.
  cbv zeta.
  apply (profile_cache_idempotent portal "abc20cs001" "pw" "ABC20CS001" "other"
           (VProfile (profile_of (Portal.load Portal.profile_html) "abc20cs001"))
           (initial 1000)
           (snd (profile_route portal (Some "abc20cs001") (Some "pw") (initial 1000)))
           60000).
  - vm_compute. reflexivity.
  - reflexivity.
  - reflexivity.
  - reflexivity.
  - unfold stdTTL. lia.
Defined.

(** C7 on the portal: the [Cookie] header of the attendance request is the
    text of the details page. *)
Lemma attendance_cookie_witness :
  (exists page, pp_content attendance_portal page = Some Portal.profile_html) /\
  exists r evs,
    trace (snd (attendance_route attendance_portal (Some "ABC20CS001") (Some "pw")
                  (initial 0)))
    = trace (snd (loginStudent attendance_portal "ABC20CS001" "pw" (initial 0)))
      ++ EvRequest r :: evs /\
    req_url r = KTU_ATTENDANCE_URL /\
    req_headers r !! "Cookie" = Some Portal.profile_html.
Proof.
  apply (attendance_cookie_is_page_content attendance_portal "ABC20CS001" "pw"
           Portal.profile_html (initial 0)
           (snd (loginStudent attendance_portal "ABC20CS001" "pw" (initial 0)))).
  - reflexivity.
  - reflexivity.
  - reflexivity.
  - vm_compute. reflexivity.
  - reflexivity.
Defined.

(** The cookie the browser holds after the login is another text. *)
Example page_content_is_no_cookie :
  pp_cookies attendance_portal KTU_DETAILS_URL = Portal.session_cookie /\
  Portal.session_cookie <> Portal.profile_html.
Proof. split; [reflexivity | discriminate]. Qed.

(** C8, as stated, fails for attendance: its first event is the launch of
    the browser, and no read of the cache comes before it. *)
Lemma attendance_skips_cache :
  ~ cache_checked_first
      (trace (snd (respond attendance_portal
                     (PostAttendance (Some "ABC20CS001") (Some "pw")) (initial 0)))).
Proof.
  intros H. vm_compute in H.
  destruct (H [] (EvBrowser Launch) _ eq_refl I) as (key & []).
Qed.

(** The register number goes out as it was given: the results route
    requests the URLs with the lower-case register number, and the profile
    route types it as given into the login form. *)
Example registerNo_outbound_as_given :
  ~ Forall (outbound_upper "abc20cs001")
      (trace (snd (respond portal (GetResults "abc20cs001" None) (initial 0)))) /\
  ~ Forall (outbound_upper "abc20cs001")
      (trace (snd (respond portal (PostProfile (Some "abc20cs001") (Some "pw"))
                     (initial 0)))).
Proof.
  split; intros H; vm_compute in H.
  - apply List.Forall_inv_tail, List.Forall_inv in H.
    destruct H as [H|[H|[H|[]]]]; discriminate H.
  - do 5 apply List.Forall_inv_tail in H. apply List.Forall_inv in H.
    specialize (H eq_refl). discriminate H.
Qed.

(** C9 on the portal, for a lower-case register number. *)
Lemma registerNo_upper_witness :
  let run := respond portal (GetResults "abc20cs001" None) after_results in
  no_lower "ABC20CS001" /\
  (exists evs,
     trace (snd run) = trace after_results ++ evs /\
     forall key e, In e evs -> is_cache_event key e ->
                   In key (keys_for (GetResults "abc20cs001" None) "ABC20CS001")) /\
  (forall r, registerNo_field (fst run) = Some r -> r = "ABC20CS001").
Proof.
  apply (registerNo_upper_in_keys_and_fields portal (GetResults "abc20cs001" None)
           "abc20cs001" after_results).
  - exact after_results_reachable.
  - reflexivity.
  - reflexivity.
Defined.

(** C10 on the portal with the plain title. *)
Lemma profile_title_without_parenthesis_witness :
  exists p w',
    profile_route plain_portal (Some "ABC20CS001") (Some "pw") (initial 0)
    = (Return (json (VProfile p)), w') /\
    PersonalInfo.name (Profile.personalInfo p) = "" /\
    PersonalInfo.admissionNo (Profile.personalInfo p) = "".
Proof.
  apply (profile_title_without_parenthesis plain_portal "ABC20CS001" "pw"
           Portal.plain_title_html (initial 0)
           (snd (loginStudent plain_portal "ABC20CS001" "pw"
                   (after_get (profile_cacheKey "ABC20CS001") (initial 0))))).
  - reflexivity.
  - reflexivity.
  - reflexivity.
  - vm_compute. reflexivity.
  - reflexivity.
  - unfold no_parenthesis, has_char. vm_compute.
    split; intros H; repeat (destruct H as [H|H]; [discriminate H|]); exact H.
Defined.

(** C4 on the portal's profile page: the CGPA text 8.50 is in the range of
    the claim, and the percentage is the claim's two-decimal text. *)
Lemma percentage_derived_witness :
  let a := academicInfo (Portal.load Portal.profile_html) in
  AcademicInfo.cgpa a = "8.50" /\
  AcademicInfo.percentage a = stated_percentage (AcademicInfo.cgpa a) /\
  AcademicInfo.percentage a = "82.50%".
Proof.
  cbv zeta. split; [vm_compute; reflexivity|]. split; [|vm_compute; reflexivity].
  apply (proj1 (proj2 (percentage_derived (Portal.load Portal.profile_html)))).
  right. vm_compute. reflexivity.
Defined.

(** On the portal, a login with a wrong password: the session stops at the
    wait for the navigation, and the browser is closed all the same. *)
Lemma loginStudent_closes_browser_witness :
  exists evs,
    trace (snd (loginStudent
                  (Portal.env (Portal.serve Portal.results_html 40) false
                     Portal.profile_html)
                  "ABC20CS001" "wrong" (initial 0)))
    = trace (initial 0) ++ EvBrowser Launch :: evs ++ [EvBrowser Close] /\
    Forall session_call evs.
Proof.
  apply (loginStudent_closes_browser
           (Portal.env (Portal.serve Portal.results_html 40) false Portal.profile_html)
           "ABC20CS001" "wrong" (initial 0) 0%nat 2500%N).
  reflexivity.
Defined.


End ServerProofs.


(* ===================================================================== *)
(** * What the routes promise: the properties *)
(* ===================================================================== *)

Module ContractProofs.
Import JsValue JsString Server ServerSpec ServerProofs Contract.

(** ** The format of register numbers *)

Lemma upper_char_classes (c : ascii) :
  isUpper (upper_char c) = isLetter c /\ isDigit (upper_char c) = isDigit c.
Proof. destruct c as [[] [] [] [] [] [] [] []]; split; reflexivity. Qed.

Lemma match_here_upper (cls cls' : list charclass) (s : string) :
  Forall2 (fun k k' => forall c, k' (upper_char c) = k c) cls cls' ->
  match_here cls' (toUpperCase s)
  = match match_here cls s with Some r => Some (toUpperCase r) | None => None end.
Proof.
  intros H. revert s. induction H as [|k k' cls cls' Hk _ IH]; intros s.
  - reflexivity.
  - destruct s as [|c s]; [reflexivity|]. cbn [toUpperCase map_chars match_here].
    rewrite Hk. destruct (k c); [apply IH | reflexivity].
Qed.

(** A text of ASCII characters is accepted as a register number exactly
    when its upper-case form is three capital letters, two digits, two
    capital letters and three digits: the check does not depend on the case of
    the letters, and the upper-case form of an accepted number is accepted
    too. *)
Theorem REGNO_RE_upper_form (s : string) :
  ascii_only s ->
  REGNO_RE_test s = match_whole REGNO_UPPER (toUpperCase s) /\
  REGNO_RE_test (toUpperCase s) = REGNO_RE_test s.
Proof.
  intros _.
  assert (forall s, REGNO_RE_test s = match_whole REGNO_UPPER (toUpperCase s)) as H1.
  { intros t. unfold REGNO_RE_test, match_whole.
    rewrite (match_here_upper REGNO_RE REGNO_UPPER).
    - destruct (match_here REGNO_RE t) as [[|c r]|]; reflexivity.
    - unfold REGNO_RE, REGNO_UPPER.
      repeat constructor; intros c; apply (upper_char_classes c). }
  split; [apply H1|].
  unfold REGNO_RE_test, match_whole.
  rewrite (match_here_upper REGNO_RE REGNO_RE).
  - destruct (match_here REGNO_RE s) as [[|c r]|]; reflexivity.
  - unfold REGNO_RE. repeat constructor; intros c;
      destruct c as [[] [] [] [] [] [] [] []]; reflexivity.
Qed.

Section Routes.

Context {Browser Page : Type}.
Variable env : Env Browser Page.

(** ** The head of the routes that read a body *)

(** On a body whose fields are texts or absent, the handlers are the
    routes. *)
Lemma profile_route_as_handler (registerNo password : option string) (w : World) :
  profile_route env registerNo password w
  = profile_handler env (fields_of registerNo password) w.
Proof.
  unfold profile_route, profile_handler, fields_of, try_catch, REGNO_RE_test_value.
  destruct registerNo as [r|], password as [p|];
    cbn [fmap option_fmap option_map body_registerNo body_password truthy_field
         truthy_opt JsValue.truthy default from_option id negb orb];
    try reflexivity.
  by destruct (truthy r).
Qed.

Lemma attendance_route_as_handler (registerNo password : option string) (w : World) :
  attendance_route env registerNo password w
  = attendance_handler env (fields_of registerNo password) w.
Proof.
  unfold attendance_route, attendance_handler, fields_of, try_catch,
    REGNO_RE_test_value.
  destruct registerNo as [r|], password as [p|];
    cbn [fmap option_fmap option_map body_registerNo body_password truthy_field
         truthy_opt JsValue.truthy default from_option id negb orb];
    try reflexivity.
  by destruct (truthy r).
Qed.

Lemma respond_profile_route (registerNo password : option string) (w : World) :
  respond env (PostProfile registerNo password) w
  = respond env (PostProfileBody (fields_of registerNo password)) w.
Proof. unfold respond. cbn [handle]. by rewrite profile_route_as_handler. Qed.

(** A request that passes goes on with the rest of the route; any other
    is answered at the head, before anything is done. *)
Lemma profile_handler_head (body : option Fields) :
  match body_verdict true body with
  | Passes =>
      exists reg pw,
        forall w,
          profile_handler env body w
          = try_catch (profile_fetch env reg pw)
              (fun err => ret (internal_error "Failed to fetch student profile" err)) w
  | v =>
      exists e,
        forall w, profile_handler env body w = (Return (status_json (early_status v) e), w)
  end.
Proof.
  unfold profile_handler, body_verdict.
  destruct body as [[r p]|]; cbn [body_registerNo body_password].
  2:{ eexists. intros w. reflexivity. }
  destruct (truthy_field r); cbn [negb orb andb]; [|eexists; intros w; reflexivity].
  destruct (truthy_field p); cbn [negb orb andb]; [|eexists; intros w; reflexivity].
  unfold REGNO_RE_test_value.
  destruct (JsValue.toString (default JNull r)) as [s|]; [|eexists; intros w; reflexivity].
  destruct (REGNO_RE_test s); [|eexists; intros w; reflexivity].
  destruct (default JNull r) as [|b|n|reg|items|fields];
    try (eexists; intros w; reflexivity).
  exists reg, (default JNull p). intros w. reflexivity.
Qed.

Lemma attendance_handler_head (body : option Fields) :
  match body_verdict false body with
  | Passes =>
      exists reg pw,
        forall w,
          attendance_handler env body w
          = try_catch (attendance_fetch env reg pw)
              (fun err => ret (internal_error "Failed to fetch attendance" err)) w
  | v =>
      exists e,
        forall w,
          attendance_handler env body w = (Return (status_json (early_status v) e), w)
  end.
Proof.
  unfold attendance_handler, body_verdict.
  destruct body as [[r p]|]; cbn [body_registerNo body_password].
  2:{ eexists. intros w. reflexivity. }
  destruct (truthy_field r); cbn [negb orb andb]; [|eexists; intros w; reflexivity].
  destruct (truthy_field p); cbn [negb orb andb]; [|eexists; intros w; reflexivity].
  unfold REGNO_RE_test_value.
  destruct (JsValue.toString (default JNull r)) as [s|]; [|eexists; intros w; reflexivity].
  destruct (REGNO_RE_test s); [|eexists; intros w; reflexivity].
  assert (exists reg pw, forall w,
            try_catch
              (let* valid := ret true in
               if negb valid
               then ret (status_json 400 (error_only "Invalid register number format"))
               else attendance_fetch env (default JNull r) (default JNull p))%js
              (fun err => ret (internal_error "Failed to fetch attendance" err)) w
            = try_catch (attendance_fetch env reg pw)
                (fun err => ret (internal_error "Failed to fetch attendance" err)) w) as H.
  { exists (default JNull r), (default JNull p). intros w. reflexivity. }
  by destruct (default JNull r).
Qed.

(** ** Status codes *)

Ltac answered :=
  eexists; (split; [reflexivity|]); cbn;
  repeat split; intros;
  repeat match goal with H : exists _, _ |- _ => destruct H end;
  try tauto; try lia; try discriminate; try congruence; eauto.

Lemma profile_fetch_answers (reg : string) (pw : Json) (w : World) :
  exists resp,
    fst (try_catch (profile_fetch env reg pw)
           (fun err => ret (internal_error "Failed to fetch student profile" err)) w)
    = Return resp /\
    In (res_status resp) [200; 401; 500] /\
    (res_status resp = 200 <-> exists v cached, res_body resp = BValue v cached).
Proof.
  unfold profile_fetch, try_catch.
  rewrite bind_run, cache_get_run.
  destruct (live (clock w) (cache w) _) as [v|]; [answered|].
  rewrite bind_run.
  destruct (loginStudent env _ _ _) as [[content|err] w1]; [|answered].
  destruct (truthy_opt content); cbn [negb]; [|answered].
  rewrite bind_run, cache_set_run. answered.
Qed.

Lemma attendance_fetch_answers (reg pw : Json) (w : World) :
  exists resp,
    fst (try_catch (attendance_fetch env reg pw)
           (fun err => ret (internal_error "Failed to fetch attendance" err)) w)
    = Return resp /\
    In (res_status resp) [200; 401; 500; 502] /\
    (res_status resp = 200 <-> exists v cached, res_body resp = BValue v cached).
Proof.
  unfold attendance_fetch, try_catch.
  rewrite bind_run.
  destruct (loginStudent env _ _ _) as [[content|err] w1]; [|answered].
  destruct (truthy_opt content); cbn [negb]; [|answered].
  rewrite bind_run.
  destruct (makeRequest env _ _ _ _) as [[response|err] w2]; [|answered].
  destruct (empty_response response); [answered|].
  rewrite bind_run, load_run.
  destruct (parse env _); [|answered].
  rewrite bind_run. answered.
Qed.

(** What the statement below says of one request, for a route whose head
    gives [v] and which answers with one of [codes]. *)
Lemma early_answer (v : Verdict) (e : ErrorBody.t) (codes : list Z) :
  v <> Passes -> In 400 codes -> In 500 codes ->
  let resp := status_json (early_status v) e in
  In (res_status resp) codes /\
  (res_status resp = 200 <-> exists v' cached, res_body resp = BValue v' cached) /\
  (res_status resp = 400 <-> v = Refused) /\
  (v = Breaks -> res_status resp = 500).
Proof.
  intros Hv H4 H5. destruct v; [done| |]; cbn; repeat split; intros;
    repeat match goal with H : exists _, _ |- _ => destruct H end;
    try done; try lia.
Qed.

(** Every handler answers, whatever happens: no exception leaves a route.
    Each route answers with one of its own status codes; 200 always comes
    with a data record, any other status with an error body; 400 is the
    answer to the requests that the head of the route refuses, and to no
    other; a request on which the head breaks is answered with 500. *)
Theorem handlers_always_answer (req : Request) (w : World) :
  exists resp,
    fst (handle env req w) = Return resp /\
    In (res_status resp) (statuses req) /\
    (res_status resp = 200 <-> exists v cached, res_body resp = BValue v cached) /\
    (res_status resp = 400 <-> verdict req = Refused) /\
    (verdict req = Breaks -> res_status resp = 500).
Proof.
  assert (forall body,
            exists resp,
              fst (profile_handler env body w) = Return resp /\
              In (res_status resp) [200; 400; 401; 500] /\
              (res_status resp = 200 <-> exists v cached, res_body resp = BValue v cached) /\
              (res_status resp = 400 <-> body_verdict true body = Refused) /\
              (body_verdict true body = Breaks -> res_status resp = 500)) as Hprofile.
  { intros body. pose proof (profile_handler_head body) as Hhead.
    destruct (body_verdict true body) eqn:Hv.
    - destruct Hhead as (reg & pw & ->).
      destruct (profile_fetch_answers reg pw w) as (resp & -> & Hin & H200).
      exists resp. split; [reflexivity|].
      cbn [In] in Hin. cbn [In]. repeat split; intros; try tauto; try lia; try discriminate.
    - destruct Hhead as (e & ->). eexists. split; [reflexivity|].
      apply (early_answer Refused e); cbn; auto; discriminate.
    - destruct Hhead as (e & ->). eexists. split; [reflexivity|].
      apply (early_answer Breaks e); cbn; auto; discriminate. }
  assert (forall body,
            exists resp,
              fst (attendance_handler env body w) = Return resp /\
              In (res_status resp) [200; 400; 401; 500; 502] /\
              (res_status resp = 200 <-> exists v cached, res_body resp = BValue v cached) /\
              (res_status resp = 400 <-> body_verdict false body = Refused) /\
              (body_verdict false body = Breaks -> res_status resp = 500)) as Hattendance.
  { intros body. pose proof (attendance_handler_head body) as Hhead.
    destruct (body_verdict false body) eqn:Hv.
    - destruct Hhead as (reg & pw & ->).
      destruct (attendance_fetch_answers reg pw w) as (resp & -> & Hin & H200).
      exists resp. split; [reflexivity|].
      cbn [In] in Hin. cbn [In]. repeat split; intros; try tauto; try lia; try discriminate.
    - destruct Hhead as (e & ->). eexists. split; [reflexivity|].
      apply (early_answer Refused e); cbn; auto 10; discriminate.
    - destruct Hhead as (e & ->). eexists. split; [reflexivity|].
      apply (early_answer Breaks e); cbn; auto 10; discriminate. }
  destruct req as [r p|r e|r p| |body|body]; cbn [handle verdict statuses].
  - rewrite profile_route_as_handler. apply Hprofile.
  - unfold results_route, try_catch.
    destruct (REGNO_RE_test r) eqn:Hre.
    2:{ rewrite orb_true_r. answered. }
    assert (truthy r = true) as -> by (by destruct r).
    cbn [negb orb]. rewrite bind_run, cache_get_run.
    destruct (live (clock w) (cache w) _) as [v|]; [answered|].
    rewrite bind_run.
    destruct (try_urls_returns env e (resultsUrls r) None
                (after_get (results_cacheKey r e) w)) as (resp & s & w1 & -> & Hs).
    destruct resp as [resp|], s as [s|]; try answered.
    rewrite bind_run, load_run.
    destruct (parse env _); [|answered].
    destruct (0 <? _)%nat; cbn [negb]; [|answered].
    rewrite bind_run, cache_set_run. answered.
  - rewrite attendance_route_as_handler. apply Hattendance.
  - unfold announcements_route, try_catch.
    rewrite bind_run, cache_get_run.
    destruct (live (clock w) (cache w) _) as [v|]; [answered|].
    rewrite bind_run.
    destruct (makeRequest env _ _ _ _) as [[response|err] w1]; [|answered].
    destruct (empty_response response); [answered|].
    rewrite bind_run, load_run.
    destruct (parse env _); [|answered].
    rewrite bind_run. cbn [now]. rewrite bind_run, cache_set_run. answered.
  - apply Hprofile.
  - apply Hattendance.
Qed.

(** A request that does not pass the head of its route is answered at
    once, with status 400 when it is refused and with status 500 when the
    head breaks on it: the world is as it was -- no read of the cache, no
    browser, no request to the portal. *)
Theorem bad_request_untouched (req : Request) (w : World) :
  verdict req <> Passes ->
  exists e,
    handle env req w = (Return (status_json (early_status (verdict req)) e), w).
Proof.
  assert (forall body, body_verdict true body <> Passes ->
            exists e,
              profile_handler env body w
              = (Return (status_json (early_status (body_verdict true body)) e), w))
    as Hprofile.
  { intros body Hv. pose proof (profile_handler_head body) as Hhead.
    destruct (body_verdict true body); [done| |]; destruct Hhead as (e & He);
      exists e; apply He. }
  assert (forall body, body_verdict false body <> Passes ->
            exists e,
              attendance_handler env body w
              = (Return (status_json (early_status (body_verdict false body)) e), w))
    as Hattendance.
  { intros body Hv. pose proof (attendance_handler_head body) as Hhead.
    destruct (body_verdict false body); [done| |]; destruct Hhead as (e & He);
      exists e; apply He. }
  destruct req as [r p|r e|r p| |body|body]; cbn [handle verdict]; intros H.
  - rewrite profile_route_as_handler. by apply Hprofile.
  - unfold results_route, try_catch.
    destruct (REGNO_RE_test r); [done|]. rewrite orb_true_r. by eexists.
  - rewrite attendance_route_as_handler. by apply Hattendance.
  - done.
  - by apply Hprofile.
  - by apply Hattendance.
Qed.

(** ** Requests and browsers spent *)

Lemma spends_ret {A : Type} (r l : nat) (a : A) : spends r l (ret a).
Proof. intros w. cbn. lia. Qed.

Lemma spends_throw {A : Type} (r l : nat) (e : JsError) : spends r l (@throw A e).
Proof. intros w. cbn. lia. Qed.

Lemma spends_bind {A B : Type} (r1 l1 r2 l2 r l : nat) (m : M A) (k : A -> M B) :
  spends r1 l1 m -> (forall a, spends r2 l2 (k a)) ->
  (r1 + r2 <= r)%nat -> (l1 + l2 <= l)%nat ->
  spends r l (bind m k).
Proof.
  intros Hm Hk Hr Hl w. unfold bind. specialize (Hm w).
  destruct (m w) as [[a|e] w1]; cbn [snd] in *; [|lia].
  specialize (Hk a w1). lia.
Qed.

Lemma spends_try_catch {A : Type} (r1 l1 r2 l2 r l : nat) (m : M A)
  (h : JsError -> M A) :
  spends r1 l1 m -> (forall e, spends r2 l2 (h e)) ->
  (r1 + r2 <= r)%nat -> (l1 + l2 <= l)%nat ->
  spends r l (try_catch m h).
Proof.
  intros Hm Hh Hr Hl w. unfold try_catch. specialize (Hm w).
  destruct (m w) as [[a|e] w1]; cbn [snd] in *; [lia|].
  specialize (Hh e w1). lia.
Qed.

Lemma spends_finally {A : Type} (r1 l1 r2 l2 r l : nat) (m : M A) (f : M unit) :
  spends r1 l1 m -> spends r2 l2 f ->
  (r1 + r2 <= r)%nat -> (l1 + l2 <= l)%nat ->
  spends r l (finally m f).
Proof.
  intros Hm Hf Hr Hl w. unfold finally. specialize (Hm w).
  destruct (m w) as [x w1]. specialize (Hf w1).
  destruct (f w1) as [[u|e] w2]; cbn [snd] in *; lia.
Qed.

Lemma spends_log (r l : nat) (e : Event) : spends r l (log e).
Proof. intros w. cbn. lia. Qed.

Lemma spends_sleep (r l : nat) (ms : Z) : 0 <= ms -> spends r l (sleep ms).
Proof. intros H w. cbn. lia. Qed.

Lemma spends_cache_get (r l : nat) (key : string) : spends r l (cache_get key).
Proof. intros w. rewrite cache_get_run. cbn. lia. Qed.

Lemma spends_cache_set (r l : nat) (key : string) (v : Value) :
  spends r l (cache_set key v).
Proof. intros w. cbn. lia. Qed.

Lemma spends_load (r l : nat) (content : Json) : spends r l (load env content).
Proof. intros w. rewrite load_run. destruct (parse env content); cbn; lia. Qed.

Lemma spends_REGNO_RE_test_value (r l : nat) (v : Json) :
  spends r l (REGNO_RE_test_value v).
Proof.
  unfold REGNO_RE_test_value.
  destruct (JsValue.toString v); [apply spends_ret | apply spends_throw].
Qed.

Lemma spends_axios_request (r l : nat) (opts : AxiosRequest) :
  (1 <= r)%nat -> spends r l (axios_request env opts).
Proof.
  intros H w. unfold axios_request. rewrite bind_run. cbn [log].
  destruct (axios env _ opts) as [[x|e] ms]; cbn; lia.
Qed.

Lemma spends_makeRequest_loop (opts : AxiosRequest) (retries todo i l : nat) :
  spends todo l (makeRequest_loop env opts retries i todo).
Proof.
  revert i. induction todo as [|todo IH]; intros i; cbn [makeRequest_loop].
  - apply spends_ret.
  - apply (spends_try_catch 1 0 todo l).
    + apply (spends_bind 1 0 0 0); [by apply spends_axios_request | | lia | lia].
      intros a. apply spends_ret.
    + intros e. destruct (Nat.eqb i (retries - 1)); [apply spends_throw|].
      apply (spends_bind 0 0 todo l); [apply spends_sleep; lia | | lia | lia].
      intros _. apply IH.
    + lia.
    + lia.
Qed.

Lemma spends_makeRequest (url : string) (options : Options) (retries l : nat) :
  spends retries l (makeRequest env url options retries).
Proof. apply spends_makeRequest_loop. Qed.

Lemma spends_puppeteer_call {A : Type} (r l : nat) (c : BrowserCall) (x : option A) :
  spends r l (puppeteer_call c x).
Proof. intros w. destruct x; cbn; lia. Qed.

Lemma spends_launch (r l : nat) : (1 <= l)%nat -> spends r l (launch env).
Proof.
  intros H w. unfold launch. rewrite bind_run. cbn [log].
  destruct (pp_launch env _) as [[b|] ms]; cbn; lia.
Qed.

Lemma spends_close (r l : nat) (b : Browser) : spends r l (close env b).
Proof. intros w. unfold close. rewrite bind_run. destruct (pp_close env b); cbn; lia. Qed.

Lemma spends_login_session (r l : nat) (b : Browser) (registerNo password : Json) :
  spends r l (login_session env b registerNo password).
Proof.
  unfold login_session.
  repeat (apply (spends_bind 0 0 0 0);
          [apply spends_puppeteer_call | intros ? | lia | lia]).
  apply spends_ret.
Qed.

(** A login makes no request and launches one browser at most. *)
Lemma spends_loginStudent (r l : nat) (registerNo password : Json) :
  (1 <= l)%nat -> spends r l (loginStudent env registerNo password).
Proof.
  intros H. unfold loginStudent.
  apply (spends_bind 0 1 0 0); [| |lia|lia].
  - apply (spends_try_catch 0 1 0 0); [| |lia|lia].
    + apply (spends_bind 0 1 0 0); [by apply spends_launch| |lia|lia].
      intros b. apply spends_ret.
    + intros _. apply spends_ret.
  - intros [b|]; [|apply spends_ret].
    apply (spends_finally 0 0 0 0); [| apply spends_close |lia|lia].
    apply (spends_try_catch 0 0 0 0); [apply spends_login_session| |lia|lia].
    intros _. apply spends_ret.
Qed.

Lemma spends_try_urls (examId : option string) (urls : list string)
  (response : option AxiosResponse) (l : nat) :
  spends (3 * List.length urls) l (try_urls env examId urls response).
Proof.
  revert response. induction urls as [|url urls IH]; intros response;
    cbn [try_urls List.length].
  - apply spends_ret.
  - apply (spends_bind 3 0 (3 * List.length urls) l); [| |lia|lia].
    + apply (spends_try_catch 3 0 0 0); [| |lia|lia].
      * apply (spends_bind 3 0 0 0); [apply spends_makeRequest| |lia|lia].
        intros a. apply spends_ret.
      * intros _. apply spends_ret.
    + intros [x|]; [|apply IH]. destruct (usable x); [apply spends_ret | apply IH].
Qed.

Lemma spends_profile_fetch (reg : string) (pw : Json) :
  spends 0 1 (profile_fetch env reg pw).
Proof.
  unfold profile_fetch.
  apply (spends_bind 0 0 0 1); [apply spends_cache_get| |lia|lia].
  intros [v|]; [apply spends_ret|].
  apply (spends_bind 0 1 0 0); [by apply spends_loginStudent| |lia|lia].
  intros content. destruct (negb _); [apply spends_ret|].
  apply (spends_bind 0 0 0 0); [apply spends_cache_set| |lia|lia].
  intros _. apply spends_ret.
Qed.

Lemma spends_attendance_fetch (reg pw : Json) :
  spends 3 1 (attendance_fetch env reg pw).
Proof.
  unfold attendance_fetch.
  apply (spends_bind 0 1 3 0); [by apply spends_loginStudent| |lia|lia].
  intros content. destruct (negb _); [apply spends_ret|].
  apply (spends_bind 3 0 0 0); [apply spends_makeRequest| |lia|lia].
  intros response. destruct (empty_response response); [apply spends_ret|].
  apply (spends_bind 0 0 0 0); [apply spends_load| |lia|lia].
  intros doc.
  apply (spends_bind 0 0 0 0); [| intros; apply spends_ret |lia|lia].
  intros w. cbn. lia.
Qed.

(** One call of a route makes at most three attempts for each URL it
    fetches (nine for the results, which tries three URLs; none for the
    profile, which only drives the browser) and launches at most one browser,
    and only for the two routes that log in.  The counters and the clock never
    go back. *)
Theorem route_budget (req : Request) :
  spends (max_requests req) (max_launches req) (handle env req).
Proof.
  destruct req as [r p|r e|r p| |body|body]; cbn [handle max_requests max_launches].
  - unfold profile_route.
    apply (spends_try_catch 0 1 0 0); [| intros; apply spends_ret |lia|lia].
    destruct (_ || _); [apply spends_ret|].
    destruct (negb _); [apply spends_ret|]. apply spends_profile_fetch.
  - unfold results_route.
    apply (spends_try_catch 9 0 0 0); [| intros; apply spends_ret |lia|lia].
    destruct (_ || _); [apply spends_ret|].
    apply (spends_bind 0 0 9 0); [apply spends_cache_get| |lia|lia].
    intros [v|]; [apply spends_ret|].
    apply (spends_bind 9 0 0 0);
      [apply (spends_try_urls e (resultsUrls r) None 0)| |lia|lia].
    intros [[response|] [successUrl|]]; try apply spends_ret.
    apply (spends_bind 0 0 0 0); [apply spends_load| |lia|lia].
    intros doc. destruct (negb _); [apply spends_ret|].
    apply (spends_bind 0 0 0 0); [apply spends_cache_set| |lia|lia].
    intros _. apply spends_ret.
  - unfold attendance_route.
    apply (spends_try_catch 3 1 0 0); [| intros; apply spends_ret |lia|lia].
    destruct (_ || _); [apply spends_ret|].
    destruct (negb _); [apply spends_ret|]. apply spends_attendance_fetch.
  - unfold announcements_route.
    apply (spends_try_catch 3 0 0 0); [| intros; apply spends_ret |lia|lia].
    apply (spends_bind 0 0 3 0); [apply spends_cache_get| |lia|lia].
    intros [v|]; [apply spends_ret|].
    apply (spends_bind 3 0 0 0); [apply spends_makeRequest| |lia|lia].
    intros response. destruct (empty_response response); [apply spends_ret|].
    apply (spends_bind 0 0 0 0); [apply spends_load| |lia|lia].
    intros doc.
    apply (spends_bind 0 0 0 0); [intros w; cbn; lia| |lia|lia].
    intros t.
    apply (spends_bind 0 0 0 0); [apply spends_cache_set| |lia|lia].
    intros _. apply spends_ret.
  - unfold profile_handler.
    apply (spends_try_catch 0 1 0 0); [| intros; apply spends_ret |lia|lia].
    destruct body as [fields|]; [|apply spends_throw].
    destruct (_ || _); [apply spends_ret|].
    apply (spends_bind 0 0 0 1); [apply spends_REGNO_RE_test_value| |lia|lia].
    intros valid. destruct (negb valid); [apply spends_ret|].
    destruct (default JNull _); try apply spends_throw. apply spends_profile_fetch.
  - unfold attendance_handler.
    apply (spends_try_catch 3 1 0 0); [| intros; apply spends_ret |lia|lia].
    destruct body as [fields|]; [|apply spends_throw].
    destruct (_ || _); [apply spends_ret|].
    apply (spends_bind 0 0 3 1); [apply spends_REGNO_RE_test_value| |lia|lia].
    intros valid. destruct (negb valid); [apply spends_ret|].
    apply spends_attendance_fetch.
Qed.

(** ** What goes out *)

Lemma emits_ret {A : Type} (P : Event -> Prop) (a : A) : emits P (ret a).
Proof. intros w. exists []. by rewrite app_nil_r. Qed.

Lemma emits_throw {A : Type} (P : Event -> Prop) (e : JsError) : emits P (@throw A e).
Proof. intros w. exists []. by rewrite app_nil_r. Qed.

Lemma emits_trans (P : Event -> Prop) (w1 w2 w3 : World) :
  (exists evs, trace w2 = trace w1 ++ evs /\ Forall P evs) ->
  (exists evs, trace w3 = trace w2 ++ evs /\ Forall P evs) ->
  exists evs, trace w3 = trace w1 ++ evs /\ Forall P evs.
Proof.
  intros (e1 & T1 & F1) (e2 & T2 & F2). exists (e1 ++ e2).
  split; [by rewrite T2, T1, app_assoc | by apply Forall_app].
Qed.

Lemma emits_bind {A B : Type} (P : Event -> Prop) (m : M A) (k : A -> M B) :
  emits P m -> (forall a, emits P (k a)) -> emits P (bind m k).
Proof.
  intros Hm Hk w. unfold bind. specialize (Hm w).
  destruct (m w) as [[a|e] w1]; cbn [snd] in *; [|done].
  eapply emits_trans; [exact Hm | apply Hk].
Qed.

Lemma emits_try_catch {A : Type} (P : Event -> Prop) (m : M A) (h : JsError -> M A) :
  emits P m -> (forall e, emits P (h e)) -> emits P (try_catch m h).
Proof.
  intros Hm Hh w. unfold try_catch. specialize (Hm w).
  destruct (m w) as [[a|e] w1]; cbn [snd] in *; [done|].
  eapply emits_trans; [exact Hm | apply Hh].
Qed.

Lemma emits_finally {A : Type} (P : Event -> Prop) (m : M A) (f : M unit) :
  emits P m -> emits P f -> emits P (finally m f).
Proof.
  intros Hm Hf w. unfold finally. specialize (Hm w).
  destruct (m w) as [x w1]. specialize (Hf w1).
  destruct (f w1) as [[u|e] w2]; cbn [snd] in *; by eapply emits_trans.
Qed.

Lemma emits_log (P : Event -> Prop) (e : Event) : P e -> emits P (log e).
Proof. intros H w. exists [e]. split; [done | by constructor]. Qed.

Lemma emits_silent {A : Type} (P : Event -> Prop) (m : M A) :
  (forall w, trace (snd (m w)) = trace w) -> emits P m.
Proof. intros H w. exists []. by rewrite app_nil_r. Qed.

Lemma emits_sleep (P : Event -> Prop) (ms : Z) : P (EvSleep ms) -> emits P (sleep ms).
Proof.
  intros H. unfold sleep. apply emits_bind; [by apply emits_log|].
  intros _. by apply emits_silent.
Qed.

Lemma emits_cache_get (P : Event -> Prop) (key : string) :
  P (EvCacheGet key) -> emits P (cache_get key).
Proof.
  intros H w. rewrite cache_get_run. exists [EvCacheGet key].
  split; [done | by constructor].
Qed.

Lemma emits_cache_set (P : Event -> Prop) (key : string) (v : Value) :
  P (EvCacheSet key) -> emits P (cache_set key v).
Proof.
  intros H w. exists [EvCacheSet key]. split; [done | by constructor].
Qed.

Lemma emits_load (P : Event -> Prop) (content : Json) : emits P (load env content).
Proof.
  apply emits_silent. intros w. rewrite load_run. by destruct (parse env content).
Qed.

Lemma emits_REGNO_RE_test_value (P : Event -> Prop) (v : Json) :
  emits P (REGNO_RE_test_value v).
Proof.
  unfold REGNO_RE_test_value.
  destruct (JsValue.toString v); [apply emits_ret | apply emits_throw].
Qed.

Lemma emits_axios_request (P : Event -> Prop) (opts : AxiosRequest) :
  P (EvRequest opts) -> emits P (axios_request env opts).
Proof.
  intros H. unfold axios_request. apply emits_bind; [by apply emits_log|].
  intros _. apply emits_silent. intros w.
  by destruct (axios env _ opts) as [[x|e] ms].
Qed.

Lemma emits_makeRequest_loop (P : Event -> Prop) (opts : AxiosRequest)
  (retries : nat) :
  P (EvRequest opts) ->
  (forall j, (S j < retries)%nat -> P (EvSleep (1000 * (Z.of_nat j + 1)))) ->
  forall todo i, (i + todo = retries)%nat ->
    emits P (makeRequest_loop env opts retries i todo).
Proof.
  intros Hreq Hsleep. induction todo as [|todo IH]; intros i Hsum;
    cbn [makeRequest_loop].
  - apply emits_ret.
  - apply emits_try_catch.
    + apply emits_bind; [by apply emits_axios_request|]. intros a. apply emits_ret.
    + intros e. destruct (Nat.eqb_spec i (retries - 1)) as [|Hne]; [apply emits_throw|].
      apply emits_bind; [apply emits_sleep, Hsleep; lia|].
      intros _. apply IH. lia.
Qed.

(** A call of [makeRequest] with the default three attempts. *)
Lemma emits_makeRequest (P : Event -> Prop) (url : string) (options : Options) :
  P (EvRequest (mkRequest (opt_method options) url (merge_headers options))) ->
  P (EvSleep 1000) -> P (EvSleep 2000) ->
  emits P (makeRequest env url options default_retries).
Proof.
  intros Hreq H1 H2. apply emits_makeRequest_loop; [exact Hreq| |reflexivity].
  intros [|[|j]] Hj; [exact H1 | exact H2 | unfold default_retries in Hj; lia].
Qed.

Lemma emits_puppeteer_call {A : Type} (P : Event -> Prop) (c : BrowserCall)
  (x : option A) :
  P (EvBrowser c) -> emits P (puppeteer_call c x).
Proof.
  intros H. unfold puppeteer_call. apply emits_bind; [by apply emits_log|].
  intros _. destruct x; [apply emits_ret | apply emits_throw].
Qed.

Lemma emits_loginStudent (P : Event -> Prop) (registerNo password : Json) :
  (forall c, P (EvBrowser c)) -> emits P (loginStudent env registerNo password).
Proof.
  intros H. unfold loginStudent. apply emits_bind.
  - apply emits_try_catch; [|intros _; apply emits_ret].
    apply emits_bind; [|intros b; apply emits_ret].
    unfold launch. apply emits_bind; [by apply emits_log|].
    intros _. apply emits_silent. intros w.
    by destruct (pp_launch env _) as [[b|] ms].
  - intros [b|]; [|apply emits_ret]. apply emits_finally.
    + apply emits_try_catch; [|intros _; apply emits_ret].
      unfold login_session.
      repeat (apply emits_bind; [by apply emits_puppeteer_call | intros ?]).
      apply emits_ret.
    + unfold close. apply emits_bind; [by apply emits_log|].
      intros _. destruct (pp_close env b); [apply emits_throw | apply emits_ret].
Qed.

Lemma emits_try_urls (P : Event -> Prop) (examId : option string)
  (urls : list string) (response : option AxiosResponse) :
  (forall url, In url urls ->
     P (EvRequest (mkRequest "GET" (with_examId url examId) defaultHeaders))) ->
  P (EvSleep 1000) -> P (EvSleep 2000) ->
  emits P (try_urls env examId urls response).
Proof.
  intros Hreq H1 H2. revert response.
  induction urls as [|url urls IH]; intros response; cbn [try_urls].
  - apply emits_ret.
  - apply emits_bind.
    + apply emits_try_catch; [|intros _; apply emits_ret].
      apply emits_bind; [|intros a; apply emits_ret].
      apply emits_makeRequest; [|exact H1|exact H2]. apply Hreq. by left.
    + assert (forall r, emits P (try_urls env examId urls r)) as IH'.
      { apply IH. intros u Hu. apply Hreq. by right. }
      intros [x|]; [|apply IH']. destruct (usable x); [apply emits_ret | apply IH'].
Qed.

(** The rest of the profile route reads and writes the cache and drives
    the browser. *)
Lemma emits_profile_fetch (P : Event -> Prop) (reg : string) (pw : Json) :
  (forall key, P (EvCacheGet key)) -> (forall key, P (EvCacheSet key)) ->
  (forall c, P (EvBrowser c)) ->
  emits P (profile_fetch env reg pw).
Proof.
  intros Hget Hset Hb. unfold profile_fetch.
  apply emits_bind; [by apply emits_cache_get|].
  intros [v|]; [apply emits_ret|].
  apply emits_bind; [by apply emits_loginStudent|].
  intros content. destruct (negb _); [apply emits_ret|].
  apply emits_bind; [by apply emits_cache_set|]. intros _. apply emits_ret.
Qed.

(** The rest of the attendance route drives the browser and requests the
    attendance page, with the page content as cookie. *)
Lemma emits_attendance_fetch (P : Event -> Prop) (reg pw : Json) :
  (forall c, P (EvBrowser c)) ->
  (forall cookie,
     P (EvRequest (mkRequest "GET" KTU_ATTENDANCE_URL
                     ({[ "Cookie" := cookie ]} ∪ defaultHeaders)))) ->
  P (EvSleep 1000) -> P (EvSleep 2000) ->
  emits P (attendance_fetch env reg pw).
Proof.
  intros Hb Hreq H1 H2. unfold attendance_fetch.
  apply emits_bind; [by apply emits_loginStudent|].
  intros content. destruct (negb _); [apply emits_ret|].
  apply emits_bind.
  - apply emits_makeRequest; [apply Hreq | exact H1 | exact H2].
  - intros response. destruct (empty_response response); [apply emits_ret|].
    apply emits_bind; [apply emits_load|]. intros doc.
    apply emits_bind; [by apply emits_silent|]. intros t. apply emits_ret.
Qed.

(** What a call of a route sends out: nothing but GET requests to the URLs
    of that route (the three result URLs with the exam identifier appended,
    the attendance page, the announcements page; none for the profile), with
    the default headers (and a [Cookie] header for attendance); waits of one
    or two seconds; and browser calls, for the two routes that log in. *)
Theorem route_outbound (req : Request) : emits (outbound req) (handle env req).
Proof.
  destruct req as [r p|r e|r p| |body|body]; cbn [handle].
  - unfold profile_route.
    apply emits_try_catch; [|intros; apply emits_ret].
    destruct (_ || _); [apply emits_ret|].
    destruct (negb _); [apply emits_ret|]. by apply emits_profile_fetch.
  - unfold results_route.
    apply emits_try_catch; [|intros; apply emits_ret].
    destruct (_ || _); [apply emits_ret|].
    apply emits_bind; [by apply emits_cache_get|].
    intros [v|]; [apply emits_ret|].
    apply emits_bind.
    + apply emits_try_urls; [|by left|by right].
      intros url Hin. cbn [outbound req_method req_url req_headers urls_of headers_of].
      split; [done|]. split; [|done].
      apply in_map_iff. by exists url.
    + intros [[response|] [successUrl|]]; try apply emits_ret.
      apply emits_bind; [apply emits_load|]. intros doc.
      destruct (negb _); [apply emits_ret|].
      apply emits_bind; [by apply emits_cache_set|]. intros _. apply emits_ret.
  - unfold attendance_route.
    apply emits_try_catch; [|intros; apply emits_ret].
    destruct (_ || _); [apply emits_ret|].
    destruct (negb _); [apply emits_ret|].
    apply emits_attendance_fetch; [done| |by left|by right].
    intros cookie. cbn. split; [done|]. split; [by left|]. by eexists.
  - unfold announcements_route.
    apply emits_try_catch; [|intros; apply emits_ret].
    apply emits_bind; [by apply emits_cache_get|].
    intros [v|]; [apply emits_ret|].
    apply emits_bind.
    + apply emits_makeRequest; [|by left|by right].
      cbn. split; [done|]. split; [by left|]. done.
    + intros response. destruct (empty_response response); [apply emits_ret|].
      apply emits_bind; [apply emits_load|]. intros doc.
      apply emits_bind; [by apply emits_silent|]. intros t.
      apply emits_bind; [by apply emits_cache_set|]. intros _. apply emits_ret.
  - unfold profile_handler.
    apply emits_try_catch; [|intros; apply emits_ret].
    destruct body as [fields|]; [|apply emits_throw].
    destruct (_ || _); [apply emits_ret|].
    apply emits_bind; [apply emits_REGNO_RE_test_value|].
    intros valid. destruct (negb valid); [apply emits_ret|].
    destruct (default JNull _); try apply emits_throw. by apply emits_profile_fetch.
  - unfold attendance_handler.
    apply emits_try_catch; [|intros; apply emits_ret].
    destruct body as [fields|]; [|apply emits_throw].
    destruct (_ || _); [apply emits_ret|].
    apply emits_bind; [apply emits_REGNO_RE_test_value|].
    intros valid. destruct (negb valid); [apply emits_ret|].
    apply emits_attendance_fetch; [done| |by left|by right].
    intros cookie. cbn. split; [done|]. split; [by left|]. by eexists.
Qed.

(** ** Time spent waiting *)

Lemma slept_app (a b : list Event) : slept (a ++ b) = slept a + slept b.
Proof.
  induction a as [|e a IH]; [reflexivity|].
  destruct e; cbn [app slept]; rewrite IH; lia.
Qed.

Lemma slept_no_wait (evs : list Event) : Forall no_wait evs -> slept evs = 0.
Proof.
  induction 1 as [|e evs He _ IH]; [reflexivity|].
  destruct e; cbn [slept]; [exact IH | destruct He | exact IH..].
Qed.

(** A call without any wait. *)
Lemma waits_none {A : Type} (b : Z) (m : M A) : 0 <= b -> emits no_wait m -> waits b m.
Proof.
  intros Hb Hm w. destruct (Hm w) as (evs & Ht & HF). exists evs.
  split; [exact Ht|]. rewrite (slept_no_wait _ HF). lia.
Qed.

Lemma waits_ret {A : Type} (b : Z) (a : A) : 0 <= b -> waits b (ret a).
Proof. intros Hb. apply waits_none; [exact Hb | apply emits_ret]. Qed.

Lemma waits_then (b1 b2 b : Z) (w1 w2 w3 : World) :
  (exists evs, trace w2 = trace w1 ++ evs /\ 0 <= slept evs <= b1) ->
  (exists evs, trace w3 = trace w2 ++ evs /\ 0 <= slept evs <= b2) ->
  b1 + b2 <= b ->
  exists evs, trace w3 = trace w1 ++ evs /\ 0 <= slept evs <= b.
Proof.
  intros (e1 & T1 & S1) (e2 & T2 & S2) Hb. exists (e1 ++ e2).
  split; [by rewrite T2, T1, app_assoc|]. rewrite slept_app. lia.
Qed.

Lemma waits_more (b1 b : Z) (w1 w2 : World) :
  (exists evs, trace w2 = trace w1 ++ evs /\ 0 <= slept evs <= b1) ->
  b1 <= b ->
  exists evs, trace w2 = trace w1 ++ evs /\ 0 <= slept evs <= b.
Proof. intros (e1 & T1 & S1) Hb. exists e1. split; [exact T1 | lia]. Qed.

Lemma waits_bind {A B : Type} (b1 b2 b : Z) (m : M A) (k : A -> M B) :
  waits b1 m -> (forall a, waits b2 (k a)) -> 0 <= b2 -> b1 + b2 <= b ->
  waits b (bind m k).
Proof.
  intros Hm Hk H2 Hb w. unfold bind. specialize (Hm w).
  destruct (m w) as [[a|e] w1]; cbn [snd] in *.
  - eapply waits_then; [exact Hm | apply Hk | exact Hb].
  - eapply waits_more; [exact Hm | lia].
Qed.

Lemma waits_try_catch {A : Type} (b1 b2 b : Z) (m : M A) (h : JsError -> M A) :
  waits b1 m -> (forall e, waits b2 (h e)) -> 0 <= b2 -> b1 + b2 <= b ->
  waits b (try_catch m h).
Proof.
  intros Hm Hh H2 Hb w. unfold try_catch. specialize (Hm w).
  destruct (m w) as [[a|e] w1]; cbn [snd] in *.
  - eapply waits_more; [exact Hm | lia].
  - eapply waits_then; [exact Hm | apply Hh | exact Hb].
Qed.

Lemma waits_sleep (b ms : Z) : 0 <= ms <= b -> waits b (sleep ms).
Proof.
  intros H w. exists [EvSleep ms]. split; [reflexivity|]. cbn. lia.
Qed.

Lemma loop_wait_nonneg (todo i : nat) : 0 <= loop_wait i todo.
Proof.
  revert i. induction todo as [|todo IH]; intros i; cbn [loop_wait]; [lia|].
  destruct todo as [|todo']; [lia|]. specialize (IH (S i)). lia.
Qed.

Lemma waits_makeRequest_loop (opts : AxiosRequest) (retries : nat) :
  forall todo i, (i + todo = retries)%nat ->
    waits (loop_wait i todo) (makeRequest_loop env opts retries i todo).
Proof.
  induction todo as [|todo IH]; intros i Hsum; cbn [makeRequest_loop].
  - by apply waits_ret.
  - pose proof (loop_wait_nonneg (S todo) i) as Hnn.
    apply (waits_try_catch 0 (loop_wait i (S todo))); [| |exact Hnn|lia].
    + apply waits_none; [lia|].
      apply emits_bind; [by apply emits_axios_request | intros a; apply emits_ret].
    + intros e. destruct (Nat.eqb_spec i (retries - 1)) as [Hi|Hi].
      * apply waits_none; [exact Hnn | apply emits_throw].
      * destruct todo as [|todo']; [lia|].
        pose proof (loop_wait_nonneg (S todo') (S i)) as Hnn'.
        apply (waits_bind (1000 * (Z.of_nat i + 1)) (loop_wait (S i) (S todo')));
          [apply waits_sleep; lia | | exact Hnn' | cbn [loop_wait]; lia].
        intros _. apply IH. lia.
Qed.

(** One call of [makeRequest] with the default three attempts waits three
    seconds at most. *)
Lemma waits_makeRequest (url : string) (options : Options) :
  waits 3000 (makeRequest env url options default_retries).
Proof. apply (waits_makeRequest_loop _ 3 3 0). reflexivity. Qed.

Lemma waits_try_urls (examId : option string) (urls : list string)
  (response : option AxiosResponse) :
  waits (3000 * Z.of_nat (List.length urls)) (try_urls env examId urls response).
Proof.
  revert response. induction urls as [|url urls IH]; intros response;
    cbn [try_urls List.length].
  - by apply waits_ret.
  - apply (waits_bind 3000 (3000 * Z.of_nat (List.length urls))); [| |lia|lia].
    + apply (waits_try_catch 3000 0); [| |lia|lia].
      * apply (waits_bind 3000 0); [apply waits_makeRequest| |lia|lia].
        intros a. by apply waits_ret.
      * intros _. by apply waits_ret.
    + intros [x|]; [|apply IH].
      destruct (usable x); [apply waits_ret; lia | apply IH].
Qed.

Lemma waits_attendance_fetch (reg pw : Json) :
  waits 3000 (attendance_fetch env reg pw).
Proof.
  unfold attendance_fetch.
  apply (waits_bind 0 3000); [| |lia|lia].
  { apply waits_none; [lia | by apply emits_loginStudent]. }
  intros content. destruct (negb _); [by apply waits_ret|].
  apply (waits_bind 3000 0); [apply waits_makeRequest| |lia|lia].
  intros response. destruct (empty_response response); [by apply waits_ret|].
  apply waits_none; [lia|].
  apply emits_bind; [apply emits_load|]. intros doc.
  apply emits_bind; [by apply emits_silent|]. intros t. apply emits_ret.
Qed.

(** The waits between the retries of one call add up to three seconds at
    most for each URL the route fetches: nine seconds for the results, three
    for attendance and for the announcements; the profile route never
    waits. *)
Theorem route_waits (req : Request) : waits (max_wait req) (handle env req).
Proof.
  destruct req as [r p|r e|r p| |body|body]; unfold max_wait; cbn [handle max_requests].
  - apply waits_none; [lia|]. unfold profile_route.
    apply emits_try_catch; [|intros; apply emits_ret].
    destruct (_ || _); [apply emits_ret|].
    destruct (negb _); [apply emits_ret|]. by apply emits_profile_fetch.
  - unfold results_route.
    apply (waits_try_catch 9000 0); [|intros; by apply waits_ret|lia|lia].
    destruct (_ || _); [by apply waits_ret|].
    apply (waits_bind 0 9000); [| |lia|lia].
    { apply waits_none; [lia | by apply emits_cache_get]. }
    intros [v|]; [by apply waits_ret|].
    apply (waits_bind 9000 0);
      [apply (waits_try_urls e (resultsUrls r) None)| |lia|lia].
    intros [[response|] [successUrl|]]; try by apply waits_ret.
    apply waits_none; [lia|].
    apply emits_bind; [apply emits_load|]. intros doc.
    destruct (negb _); [apply emits_ret|].
    apply emits_bind; [by apply emits_cache_set|]. intros _. apply emits_ret.
  - unfold attendance_route.
    apply (waits_try_catch 3000 0); [|intros; by apply waits_ret|lia|lia].
    destruct (_ || _); [by apply waits_ret|].
    destruct (negb _); [by apply waits_ret|]. apply waits_attendance_fetch.
  - unfold announcements_route.
    apply (waits_try_catch 3000 0); [|intros; by apply waits_ret|lia|lia].
    apply (waits_bind 0 3000); [| |lia|lia].
    { apply waits_none; [lia | by apply emits_cache_get]. }
    intros [v|]; [by apply waits_ret|].
    apply (waits_bind 3000 0); [apply waits_makeRequest| |lia|lia].
    intros response. destruct (empty_response response); [by apply waits_ret|].
    apply waits_none; [lia|].
    apply emits_bind; [apply emits_load|]. intros doc.
    apply emits_bind; [by apply emits_silent|]. intros t.
    apply emits_bind; [by apply emits_cache_set|]. intros _. apply emits_ret.
  - apply waits_none; [lia|]. unfold profile_handler.
    apply emits_try_catch; [|intros; apply emits_ret].
    destruct body as [fields|]; [|apply emits_throw].
    destruct (_ || _); [apply emits_ret|].
    apply emits_bind; [apply emits_REGNO_RE_test_value|].
    intros valid. destruct (negb valid); [apply emits_ret|].
    destruct (default JNull _); try apply emits_throw. by apply emits_profile_fetch.
  - unfold attendance_handler.
    apply (waits_try_catch 3000 0); [|intros; by apply waits_ret|lia|lia].
    destruct body as [fields|]; [|apply waits_none; [lia | apply emits_throw]].
    destruct (_ || _); [by apply waits_ret|].
    apply (waits_bind 0 3000); [| |lia|lia].
    { apply waits_none; [lia | apply emits_REGNO_RE_test_value]. }
    intros valid. destruct (negb valid); [by apply waits_ret|].
    apply waits_attendance_fetch.
Qed.

(** ** The login, call by call *)

Lemma login_session_script (b : Browser) (registerNo password : Json) (w : World) :
  let script := login_script registerNo password (default "" (token_read env b)) in
  let run := try_catch (login_session env b registerNo password) (fun _ => ret None) w in
  trace (snd run) = trace w ++ List.map EvBrowser (made env b script None) /\
  fst run = Return (match final_page env b script None with
                    | Some (Some page) => pp_content env page
                    | _ => None
                    end).
Proof.
  unfold login_session, login_script, token_read, try_catch.
  cbn [made final_page perform].
  repeat (rewrite bind_run;
          match goal with
          | |- context [puppeteer_call ?c ?r] =>
              let E := fresh "E" in
              destruct r eqn:E;
              [rewrite puppeteer_call_some | rewrite puppeteer_call_none];
              cbn [made final_page perform default from_option id]
          end).
  all: unfold logged; cbn [log snd fst trace ret List.map];
    rewrite <- ?app_assoc; try rewrite E7; split; reflexivity.
Qed.

(** The launch, and what follows it. *)
Lemma loginStudent_run (registerNo password : Json) (w : World) :
  loginStudent env registerNo password w
  = let w1 := mkWorld (clock w + Z.of_N (snd (pp_launch env (launches w))))
                (cache w) (requests w) (S (launches w))
                (trace w ++ [EvBrowser Launch]) in
    match fst (pp_launch env (launches w)) with
    | Some b =>
        finally (try_catch (login_session env b registerNo password)
                   (fun _ => ret None)) (close env b) w1
    | None => (Return None, w1)
    end.
Proof.
  unfold loginStudent. rewrite bind_run. unfold try_catch at 1.
  rewrite bind_run. unfold launch. rewrite bind_run. cbn [log launches].
  by destruct (pp_launch env (launches w)) as [[b|] ms].
Qed.

(** The browser calls of [loginStudent] follow one script.  When the launch
    fails, the launch is the only call and the login returns null.  When a
    browser is launched, the calls are the launch, then the calls of the
    script up to and including the first one that fails (new page, login
    page, CSRF token, register number into the user name field, password into
    the password field, submission of the token read from the form, wait,
    details page, content), then the close.  The login rejects with the error
    of the close when the close fails; otherwise it returns the content of
    the page on which the script ends, and null when a call of the script
    failed.  When it returns a page, all nine calls were made. *)
Theorem loginStudent_follows_script (registerNo password : Json) (w : World) :
  let run := loginStudent env registerNo password w in
  match fst (pp_launch env (launches w)) with
  | None => fst run = Return None /\ trace (snd run) = trace w ++ [EvBrowser Launch]
  | Some b =>
      let script := login_script registerNo password (default "" (token_read env b)) in
      trace (snd run)
      = trace w ++ EvBrowser Launch ::
          List.map EvBrowser (made env b script None) ++ [EvBrowser Close] /\
      fst run
      = match pp_close env b with
        | Some e => Throw e
        | None => Return (match final_page env b script None with
                          | Some (Some page) => pp_content env page
                          | _ => None
                          end)
        end /\
      (forall content, fst run = Return (Some content) ->
         made env b script None = script)
  end.
Proof.
  intros run. subst run. rewrite loginStudent_run. cbv zeta.
  destruct (pp_launch env (launches w)) as [[b|] ms] eqn:Hl; cbn [fst snd];
    [|by split].
  set (w1 := mkWorld (clock w + Z.of_N ms) (cache w) (requests w) (S (launches w))
                     (trace w ++ [EvBrowser Launch])).
  set (script := login_script registerNo password (default "" (token_read env b))).
  unfold finally.
  destruct (login_session_script b registerNo password w1) as [Ht Hr].
  cbv zeta in Ht, Hr. fold script in Ht, Hr.
  destruct (try_catch (login_session env b registerNo password) (fun _ => ret None) w1)
    as [r w2]. cbn [fst snd] in Ht, Hr. subst r.
  unfold close. rewrite bind_run. cbn [log].
  split; [|split].
  - destruct (pp_close env b); cbn [snd throw ret trace]; rewrite Ht; subst w1;
      cbn [trace]; by rewrite <- !app_assoc.
  - by destruct (pp_close env b).
  - intros content Hc.
    assert (exists page, final_page env b script None = Some page) as [page Hp].
    { destruct (pp_close env b); [discriminate Hc|]. cbn [fst ret] in Hc.
      destruct (final_page env b script None) as [page|]; [by exists page|].
      discriminate Hc. }
    clear - Hp. revert Hp. generalize (@None Page). generalize script.
    induction script0 as [|c rest IH]; intros start Hp; [reflexivity|].
    cbn [made final_page] in *.
    destruct (perform env b c start) as [page'|]; [|discriminate Hp].
    f_equal. by apply IH.
Qed.

(** ** How a login ends *)

(** What [loginStudent] throws is what [browser.close()] threw. *)
Lemma loginStudent_throw (registerNo password : Json) (w w' : World) (e : JsError) :
  loginStudent env registerNo password w = (Throw e, w') ->
  exists b, pp_close env b = Some e.
Proof.
  rewrite loginStudent_run. cbv zeta.
  destruct (fst (pp_launch env (launches w))) as [b|]; [|discriminate].
  unfold finally.
  destruct (try_catch _ _ _) as [r w1] eqn:Hs.
  unfold close. rewrite bind_run. cbn [log].
  destruct (pp_close env b) as [e'|] eqn:Hc; cbn [throw ret].
  - intros [= <- _]. by exists b.
  - intros [= -> _]. unfold try_catch in Hs.
    destruct (login_session env b registerNo password _) as [[x|e'] w2];
      discriminate Hs.
Qed.

(** One call of [loginStudent] launches exactly one browser, makes no
    request and leaves the cache alone.  It returns the text that
    [page.content()] gave, or null; it never rejects because the login failed:
    the only exception that leaves it is the one of [browser.close()]. *)
Theorem loginStudent_outcomes (registerNo password : string) (w : World) :
  let run := loginStudent env registerNo password w in
  launches (snd run) = S (launches w) /\
  requests (snd run) = requests w /\
  cache (snd run) = cache w /\
  match fst run with
  | Return (Some content) => exists page, pp_content env page = Some content
  | Return None => True
  | Throw e => exists b, pp_close env b = Some e
  end.
Proof.
  intros run.
  assert (launches (snd run) = S (launches w) /\ requests (snd run) = requests w) as [Hl Hr].
  { subst run. rewrite loginStudent_run. cbv zeta.
    destruct (fst (pp_launch env (launches w))) as [b|]; [|by split].
    match goal with |- context [finally ?m ?f ?w0] =>
      pose proof (spends_finally 0 0 0 0 0 0 m f
                    (spends_try_catch 0 0 0 0 0 0 _ _
                       (spends_login_session 0 0 b registerNo password)
                       (fun _ => spends_ret 0 0 None) (le_n _) (le_n _))
                    (spends_close 0 0 b) (le_n _) (le_n _) w0) as H
    end.
    cbn [requests launches] in H. lia. }
  split; [exact Hl|]. split; [exact Hr|]. split.
  - apply (quiet_loginStudent env registerNo password w).
  - destruct run as [[[content|]|e] w'] eqn:Hrun; cbn [fst].
    + by eapply loginStudent_content.
    + exact I.
    + by eapply loginStudent_throw.
Qed.

(** The profile route answers 500 only when the head of the route breaks
    on the request (no body, or a register number that is no text), or when
    [browser.close()] failed, and then it reports the error of the close; a
    login that fails is answered with 401. *)
Theorem profile_error_is_close_error (req : Request) (w : World) :
  to_profile req ->
  let resp := fst (respond env req w) in
  res_status resp = 500 ->
  verdict req = Breaks \/
  exists b e,
    pp_close env b = Some e /\
    res_body resp
    = BError (ErrorBody.mk "Failed to fetch student profile" (Some (error_text e))
                None None None).
Proof.
  assert (forall body,
            res_status (fst (respond env (PostProfileBody body) w)) = 500 ->
            body_verdict true body = Breaks \/
            exists b e,
              pp_close env b = Some e /\
              res_body (fst (respond env (PostProfileBody body) w))
              = BError (ErrorBody.mk "Failed to fetch student profile"
                          (Some (error_text e)) None None None)) as Hprofile.
  { intros body. unfold respond. cbn [handle].
    pose proof (profile_handler_head body) as Hhead.
    destruct (body_verdict true body).
    - destruct Hhead as (reg & pw & ->). unfold profile_fetch, try_catch.
      rewrite bind_run, cache_get_run.
      destruct (live _ _ _) as [v|]; [intros H; discriminate H|].
      rewrite bind_run.
      destruct (loginStudent env _ _ _) as [[content|err] w1] eqn:Hlogin.
      + destruct (negb _); [intros H; discriminate H|].
        rewrite bind_run, cache_set_run. intros H. discriminate H.
      + intros _. right.
        apply loginStudent_throw in Hlogin as (b & Hb). by exists b, err.
    - destruct Hhead as (e & ->). intros H. discriminate H.
    - intros; by left. }
  destruct req as [r p|r e|r p| |body|body]; try done; intros _; cbv zeta;
    cbn [verdict].
  - rewrite respond_profile_route. apply Hprofile.
  - apply Hprofile.
Qed.

(** ** When the portal does not answer *)

(** Three rejected attempts: the third error is thrown after waits of one
    and two seconds. *)
Lemma makeRequest_rejected (url : string) (options : Options) (w : World) :
  let opts := mkRequest (opt_method options) url (merge_headers options) in
  (forall k, (k < 3)%nat ->
     exists e, fst (axios env (requests w + k) opts) = Rejected e) ->
  exists e w',
    makeRequest env url options default_retries w = (Throw e, w') /\
    fst (axios env (requests w + 2) opts) = Rejected e /\
    requests w' = (requests w + 3)%nat /\ cache w' = cache w /\
    trace w' = trace w ++ backoff opts 0 2 ++ [EvRequest opts].
Proof.
  intros opts Hfail.
  destruct (Hfail 0%nat ltac:(lia)) as (e0 & H0).
  destruct (Hfail 1%nat ltac:(lia)) as (e1 & H1).
  destruct (Hfail 2%nat ltac:(lia)) as (e2 & H2).
  rewrite Nat.add_0_r in H0.
  replace (requests w + 1)%nat with (S (requests w)) in H1 by lia.
  replace (requests w + 2)%nat with (S (S (requests w))) in H2 |- * by lia.
  unfold makeRequest, default_retries. fold opts.
  cbn [makeRequest_loop Nat.eqb Nat.sub].
  unfold try_catch, bind, axios_request, sleep, log, elapse, ret, throw.
  cbn [requests trace bind].
  destruct (axios env (requests w) opts) as [out0 ms0]. cbn [fst] in H0. subst out0.
  cbn [requests].
  destruct (axios env (S (requests w)) opts) as [out1 ms1]. cbn [fst] in H1. subst out1.
  cbn [requests].
  destruct (axios env (S (S (requests w))) opts) as [out2 ms2]. cbn [fst] in H2.
  subst out2.
  eexists _, _. split; [reflexivity|]. cbn.
  repeat split; [lia | by rewrite <- !app_assoc].
Qed.

Lemma try_urls_all_rejected (examId : option string) (urls : list string)
  (response : option AxiosResponse) (w : World) :
  (forall k r, (k < 3 * List.length urls)%nat ->
     exists e, fst (axios env (requests w + k) r) = Rejected e) ->
  exists w',
    try_urls env examId urls response w = (Return (response, None), w') /\
    requests w' = (requests w + 3 * List.length urls)%nat /\
    cache w' = cache w /\
    trace w' = trace w ++ concat (List.map (failed_probe examId) urls).
Proof.
  revert w. induction urls as [|url urls IH]; intros w Hfail.
  - exists w. cbn. rewrite app_nil_r. repeat split; lia.
  - cbn [try_urls]. rewrite bind_run. unfold try_catch at 1. rewrite bind_run.
    destruct (makeRequest_rejected (with_examId url examId) (mkOptions "GET" None) w)
      as (e & w1 & -> & _ & Hr1 & Hc1 & Ht1).
    { intros k Hk. apply Hfail. cbn [List.length]. lia. }
    cbn [ret].
    destruct (IH w1) as (w2 & -> & Hr2 & Hc2 & Ht2).
    { intros k r Hk. rewrite Hr1.
      replace (requests w + 3 + k)%nat with (requests w + (3 + k))%nat by lia.
      apply Hfail. cbn [List.length]. lia. }
    exists w2. split; [reflexivity|]. split; [|split].
    + rewrite Hr2, Hr1. cbn [List.length]. lia.
    + congruence.
    + rewrite Ht2, Ht1. cbn [List.map concat]. unfold failed_probe at 2.
      by rewrite <- !app_assoc.
Qed.

(** When the portal rejects every request, the results route tries each of
    its three URLs three times, with waits of one and two seconds between
    the attempts for one URL -- nine requests in all -- and answers 404, not
    500; nothing is stored, so the next call tries again. *)
Theorem results_portal_down (registerNo : string) (examId : option string) (w : World) :
  REGNO_RE_test registerNo = true ->
  live (clock w) (cache w) (results_cacheKey registerNo examId) = None ->
  (forall k r, (k < 9)%nat ->
     exists e, fst (axios env (requests w + k) r) = Rejected e) ->
  let run := results_route env registerNo examId w in
  fst run
  = Return (status_json 404
              (ErrorBody.mk "Could not fetch results from KTU portal" None None
                 (Some (toUpperCase registerNo)) None)) /\
  requests (snd run) = (requests w + 9)%nat /\
  trace (snd run)
  = trace w ++ EvCacheGet (results_cacheKey registerNo examId)
      :: concat (List.map (failed_probe examId) (resultsUrls registerNo)) /\
  live (clock (snd run)) (cache (snd run)) (results_cacheKey registerNo examId) = None.
Proof.
  intros Hre Hlive Hfail run. subst run.
  unfold results_route, try_catch. rewrite Hre.
  assert (truthy registerNo = true) as -> by (by destruct registerNo).
  cbn [negb orb]. rewrite bind_run, cache_get_run, Hlive. rewrite bind_run.
  destruct (try_urls_all_rejected examId (resultsUrls registerNo) None
              (after_get (results_cacheKey registerNo examId) w))
    as (w1 & -> & Hr & Hc & Ht).
  { intros k r Hk. cbn [after_get requests]. apply Hfail.
    cbn [resultsUrls List.length] in Hk. lia. }
  cbn [fst snd ret]. split; [reflexivity|]. split; [|split].
  - rewrite Hr. cbn [after_get requests resultsUrls List.length]. lia.
  - rewrite Ht. cbn [after_get trace]. by rewrite <- app_assoc.
  - unfold live in *. rewrite Hc. cbn [after_get cache].
    destruct (cache w !! results_cacheKey registerNo examId) as [entry|] eqn:E.
    + destruct (expired (clock w) entry) eqn:Hx; [|discriminate Hlive].
      by rewrite lookup_delete_eq.
    + by rewrite E.
Qed.

(** When the portal rejects the three attempts for the announcements page,
    the route answers 500 with the message of the third error; nothing is
    stored. *)
Theorem announcements_portal_down (w : World) :
  let opts := mkRequest "GET" KTU_ANNOUNCEMENTS_URL defaultHeaders in
  live (clock w) (cache w) announcements_cacheKey = None ->
  (forall k, (k < 3)%nat ->
     exists e, fst (axios env (requests w + k) opts) = Rejected e) ->
  let run := announcements_route env w in
  exists e,
    fst (axios env (requests w + 2) opts) = Rejected e /\
    fst run
    = Return (status_json 500
                (ErrorBody.mk "Failed to fetch announcements" (Some (error_text e))
                   None None None)) /\
    requests (snd run) = (requests w + 3)%nat /\
    trace (snd run)
    = trace w ++ EvCacheGet announcements_cacheKey :: backoff opts 0 2 ++ [EvRequest opts] /\
    live (clock (snd run)) (cache (snd run)) announcements_cacheKey = None.
Proof.
  intros opts Hlive Hfail run. subst run.
  unfold announcements_route, try_catch.
  rewrite bind_run, cache_get_run, Hlive. rewrite bind_run.
  destruct (makeRequest_rejected KTU_ANNOUNCEMENTS_URL (mkOptions "GET" None)
              (after_get announcements_cacheKey w))
    as (e & w1 & -> & He & Hr & Hc & Ht).
  { intros k Hk. cbn [after_get requests]. by apply Hfail. }
  exists e. cbn [fst snd ret]. split; [exact He|]. split; [reflexivity|].
  split; [|split].
  - rewrite Hr. reflexivity.
  - rewrite Ht. cbn [after_get trace]. by rewrite <- app_assoc.
  - unfold live in *. rewrite Hc. cbn [after_get cache].
    destruct (cache w !! announcements_cacheKey) as [entry|] eqn:E.
    + destruct (expired (clock w) entry) eqn:Hx; [|discriminate Hlive].
      by rewrite lookup_delete_eq.
    + by rewrite E.
Qed.

(** ** The attempts of makeRequest *)

(** [makeRequest] makes at least one attempt and at most [retries] of them.
    It falls out of its loop, resolving to [undefined], only when [retries]
    is 0 -- then without any request; with one attempt or more it resolves to
    a response or rejects. *)
Theorem makeRequest_attempts (url : string) (options : Options) (retries : nat)
  (w : World) :
  let run := makeRequest env url options retries w in
  (requests w + Nat.min 1 retries <= requests (snd run) <= requests w + retries)%nat /\
  (fst run = Return None <-> retries = 0%nat).
Proof.
  unfold makeRequest.
  set (opts := mkRequest (opt_method options) url (merge_headers options)).
  (* the loop, from any counter [i] with [todo] turns left *)
  assert (forall (todo i : nat) (w0 : World),
            (i + todo = retries)%nat ->
            (requests w0 + Nat.min 1 todo
             <= requests (snd (makeRequest_loop env opts retries i todo w0))
             <= requests w0 + todo)%nat /\
            (fst (makeRequest_loop env opts retries i todo w0) = Return None
             <-> todo = 0%nat)) as Hloop.
  { induction todo as [|todo IH]; intros i w0 Hsum; cbn [makeRequest_loop].
    - cbn. split; [lia | done].
    - unfold try_catch. rewrite bind_run. unfold axios_request. rewrite bind_run.
      cbn [log requests].
      destruct (axios env (requests w0) opts) as [[r|e] ms];
        cbn [ret fst snd requests].
      + split; [lia|]. split; [intros H; discriminate H | lia].
      + destruct (Nat.eqb_spec i (retries - 1)) as [Hi|Hi];
          cbn [throw fst snd requests].
        * split; [lia|]. split; [intros H; discriminate H | lia].
        * rewrite bind_run. unfold sleep. rewrite bind_run. cbn [log elapse].
          match goal with
          | |- context [makeRequest_loop env opts retries (S i) todo ?w2] =>
              set (w1 := w2)
          end.
          assert (requests w1 = S (requests w0)) as Hw1 by reflexivity.
          destruct (IH (S i) w1 ltac:(lia)) as [Hreq Hnone].
          split; [lia|]. split; [|lia]. intros H. apply Hnone in H. lia. }
  cbv zeta. apply Hloop. reflexivity.
Qed.

(** ** How long a stored answer lives *)

Lemma live_after_set (key : string) (v : Value) (w : World) (d : Z) :
  0 <= clock w ->
  live (clock (tick d (after_set key v w))) (cache (tick d (after_set key v w))) key
  = if d <=? stdTTL * 1000 then Some v else None.
Proof.
  intros Hc. unfold live. cbn [tick after_set cache clock].
  rewrite lookup_insert_eq. unfold expired. cbn [fst snd].
  assert ((clock w + stdTTL * 1000 =? 0) = false) as ->
    by (apply Z.eqb_neq; unfold stdTTL; lia).
  cbn [negb andb].
  destruct (Z.leb_spec d (stdTTL * 1000)) as [H|H].
  - by rewrite (proj2 (Z.ltb_ge _ _)) by lia.
  - by rewrite (proj2 (Z.ltb_lt _ _)) by lia.
Qed.

Ltac refused H := cbn in H; discriminate H.

Ltac not_cached := cbn [fst]; intros ? Hj; unfold json_cached, status_json, json in Hj;
                   discriminate Hj.

(** An answer that the profile, results or announcements route has built
    and stored is served again, marked [cached: true], to the same request
    for 1800 seconds -- the last millisecond included -- without any request
    or browser; after that it is never served from the cache again. *)
Theorem stored_answer_lifetime (req : Request) (v : Value) (w w1 : World) (d : Z) :
  uses_cache req ->
  respond env req w = (json v, w1) ->
  0 <= clock w1 -> 0 <= d ->
  let run := respond env req (tick d w1) in
  (d <= stdTTL * 1000 ->
   fst run = json_cached v /\
   requests (snd run) = requests w1 /\ launches (snd run) = launches w1) /\
  (stdTTL * 1000 < d -> forall v', fst run <> json_cached v').
Proof.
  intros Huse Hfirst Hclock Hd run. subst run.
  assert (forall body,
            respond env (PostProfileBody body) w = (json v, w1) ->
            (d <= stdTTL * 1000 ->
             fst (respond env (PostProfileBody body) (tick d w1)) = json_cached v /\
             requests (snd (respond env (PostProfileBody body) (tick d w1)))
             = requests w1 /\
             launches (snd (respond env (PostProfileBody body) (tick d w1)))
             = launches w1) /\
            (stdTTL * 1000 < d ->
             forall v',
               fst (respond env (PostProfileBody body) (tick d w1)) <> json_cached v'))
    as Hprofile.
  { intros body. unfold respond. cbn [handle].
    pose proof (profile_handler_head body) as Hhead.
    destruct (body_verdict true body).
    2,3: destruct Hhead as (e0 & He); rewrite !He; intros H; refused H.
    destruct Hhead as (reg & pw & He). rewrite !He. clear He.
    unfold profile_fetch, try_catch. intros H.
    rewrite bind_run, cache_get_run in H.
    destruct (live (clock w) (cache w) _) as [v0|]; [refused H|].
    rewrite bind_run in H.
    destruct (loginStudent env _ _ _) as [[content|err] w0]; [|refused H].
    destruct (truthy_opt content); cbn [negb] in H; [|refused H].
    rewrite bind_run, cache_set_run in H. cbn [ret] in H.
    injection H as <- <-.
    rewrite bind_run, cache_get_run, live_after_set by exact Hclock.
    split; intros Hd'.
    + rewrite (proj2 (Z.leb_le _ _)) by exact Hd'. by cbn.
    + rewrite (proj2 (Z.leb_gt _ _)) by exact Hd'. rewrite bind_run.
      destruct (loginStudent env _ _ _) as [[content'|err] w2]; [|not_cached].
      destruct (truthy_opt content'); cbn [negb]; [|not_cached].
      rewrite bind_run, cache_set_run. not_cached. }
  destruct req as [r p|r e|r p| |body|body]; try done.
  - rewrite !respond_profile_route in *. by apply Hprofile.
  - unfold respond in *. cbn [handle] in *. unfold results_route, try_catch in *.
    destruct (negb (truthy r) || negb (REGNO_RE_test r)) eqn:Hv; [refused Hfirst|].
    rewrite bind_run, cache_get_run in Hfirst.
    destruct (live (clock w) (cache w) _) as [v0|]; [refused Hfirst|].
    rewrite bind_run in Hfirst.
    destruct (try_urls_returns env e (resultsUrls r) None
                (after_get (results_cacheKey r e) w)) as (resp & s & w0 & E & _).
    rewrite E in Hfirst.
    destruct resp as [resp|], s as [s|]; try refused Hfirst.
    rewrite bind_run, load_run in Hfirst.
    destruct (parse env _); [|refused Hfirst].
    destruct (0 <? _)%nat; cbn [negb] in Hfirst; [|refused Hfirst].
    rewrite bind_run, cache_set_run in Hfirst. cbn [ret] in Hfirst.
    injection Hfirst as <- <-.
    rewrite bind_run, cache_get_run, live_after_set by exact Hclock.
    split; intros Hd'.
    + rewrite (proj2 (Z.leb_le _ _)) by exact Hd'. by cbn.
    + rewrite (proj2 (Z.leb_gt _ _)) by exact Hd'. rewrite bind_run.
      match goal with |- context [try_urls env e (resultsUrls r) None ?w2] =>
        destruct (try_urls_returns env e (resultsUrls r) None w2)
          as (resp' & s' & w3 & -> & _)
      end.
      destruct resp' as [resp'|], s' as [s'|]; try not_cached.
      rewrite bind_run, load_run.
      destruct (parse env _); [|not_cached].
      destruct (0 <? _)%nat; cbn [negb]; [|not_cached].
      rewrite bind_run, cache_set_run. not_cached.
  - unfold respond in *. cbn [handle] in *.
    unfold announcements_route, try_catch in *.
    rewrite bind_run, cache_get_run in Hfirst.
    destruct (live (clock w) (cache w) _) as [v0|]; [refused Hfirst|].
    rewrite bind_run in Hfirst.
    destruct (makeRequest env _ _ _ _) as [[response|err] w0]; [|refused Hfirst].
    destruct (empty_response response); [refused Hfirst|].
    rewrite bind_run, load_run in Hfirst.
    destruct (parse env _); [|refused Hfirst].
    rewrite bind_run in Hfirst. cbn [now] in Hfirst.
    rewrite bind_run, cache_set_run in Hfirst. cbn [ret] in Hfirst.
    injection Hfirst as <- <-.
    rewrite bind_run, cache_get_run, live_after_set by exact Hclock.
    split; intros Hd'.
    + rewrite (proj2 (Z.leb_le _ _)) by exact Hd'. by cbn.
    + rewrite (proj2 (Z.leb_gt _ _)) by exact Hd'. rewrite bind_run.
      destruct (makeRequest env _ _ _ _) as [[response'|err] w2]; [|not_cached].
      destruct (empty_response response'); [not_cached|].
      rewrite bind_run, load_run.
      destruct (parse env _); [|not_cached].
      rewrite bind_run. cbn [now]. rewrite bind_run, cache_set_run. not_cached.
  - by apply Hprofile.
Qed.

(** ** A login that fails *)

(** When the login gives no page (null, or an empty text), the attendance
    route answers 401 at once: the attendance page is not requested. *)
Theorem failed_login_is_401 (reg pw : string) (content : option string)
  (w w1 : World) :
  truthy pw = true -> REGNO_RE_test reg = true ->
  loginStudent env reg pw w = (Return content, w1) ->
  truthy_opt content = false ->
  attendance_route env (Some reg) (Some pw) w
  = (Return (status_json 401 (error_only "Invalid credentials")), w1) /\
  requests w1 = requests w.
Proof.
  intros Hp Hre Hlogin Hc. split.
  - unfold attendance_route, try_catch. cbn [truthy_opt].
    assert (truthy reg = true) as -> by (by destruct reg).
    rewrite Hp. cbn [negb orb from_option id]. rewrite Hre. cbn [negb].
    unfold attendance_fetch. rewrite bind_run, Hlogin, Hc. reflexivity.
  - pose proof (spends_loginStudent 0 1 reg pw (le_n _) w) as H.
    rewrite Hlogin in H. cbn [snd] in H. lia.
Qed.

(** ** The URL that answered *)




End Routes.

(** ** The keys of the cache *)

(** Two accepted register numbers share a profile entry, or a results
    entry, exactly when their upper-case forms are the same (and, for
    results, the exam parts of the keys are the same): the entry of one
    student is never served for another. *)
Theorem cache_keys_injective (r r' : string) (e e' : option string) :
  REGNO_RE_test r = true -> REGNO_RE_test r' = true ->
  (profile_cacheKey r = profile_cacheKey r' <-> toUpperCase r = toUpperCase r') /\
  (results_cacheKey r e = results_cacheKey r' e'
   <-> toUpperCase r = toUpperCase r' /\ exam_key e = exam_key e').
Proof.
  intros Hr Hr'. unfold profile_cacheKey, results_cacheKey. split; split.
  - apply append_inj_l.
  - by intros ->.
  - intros H. apply append_inj_l in H.
    assert (toUpperCase r = toUpperCase r') as Hu.
    { eapply append_same_length; [exact H|].
      rewrite !toUpperCase_length, (REGNO_RE_length _ Hr), (REGNO_RE_length _ Hr').
      reflexivity. }
    split; [exact Hu|]. rewrite Hu in H. by do 2 apply append_inj_l in H.
  - by intros [-> ->].
Qed.

(** ** The records the routes build *)

Lemma fold_left_Forall {A B : Type} (P : A -> Prop) (step : list A -> B -> list A)
  (l : list B) (init : list A) :
  (forall acc x, Forall P acc -> Forall P (step acc x)) ->
  Forall P init -> Forall P (fold_left step l init).
Proof.
  intros Hstep. revert init. induction l as [|x l IH]; intros init Hi; cbn; [done|].
  apply IH. by apply Hstep.
Qed.

Lemma Forall_push {A : Type} (P : A -> Prop) (acc : list A) (x : A) :
  Forall P acc -> P x -> Forall P (acc ++ [x]).
Proof. intros Ha Hx. apply Forall_app. split; [done | by constructor]. Qed.

Lemma truthy_nonempty (s : string) : truthy s = true -> s <> "".
Proof. by destruct s. Qed.

Lemma or_else_nonempty (a b : string) : b <> "" -> or_else a b <> "".
Proof.
  intros Hb. unfold or_else. destruct (truthy a) eqn:E; [by apply truthy_nonempty | done].
Qed.

Lemma length_positive {A : Type} (l : list A) : (0 <? List.length l)%nat = true -> l <> [].
Proof. by destruct l. Qed.

Lemma exam_rows_named (doc : Dom.document) (rows : Dom.selection) :
  Forall subject_named (fold_left (exam_row doc) rows []).
Proof.
  apply fold_left_Forall; [|constructor]. intros acc row Hacc. unfold exam_row.
  destruct (3 <=? _)%nat; [|done].
  destruct (truthy _ && truthy _) eqn:E; [|done].
  apply andb_true_iff in E as [Hc Hn]. cbn [Subject.code Subject.name] in Hc, Hn.
  apply Forall_push; [done|]. split; by apply truthy_nonempty.
Qed.

(** Every results record has a student name (the placeholder when the page
    has none), and every exam in it has a name, both averages (or the
    placeholder N/A) and at least one subject; every subject has a code and a
    name. *)
Theorem results_record_complete (doc : Dom.document) (registerNo successUrl : string) :
  let r := results_of doc registerNo successUrl in
  Results.studentName r <> "" /\ Forall exam_complete (Results.results r).
Proof.
  cbn [results_of Results.studentName Results.results]. split.
  - unfold studentName. repeat apply or_else_nonempty. discriminate.
  - apply fold_left_Forall; [|constructor]. intros acc elem Hacc. unfold exam_elem.
    destruct (truthy _ && _) eqn:E; [|done].
    apply andb_true_iff in E as [Hn Hs].
    apply Forall_push; [done|]. unfold exam_complete.
    split; [by apply truthy_nonempty|].
    split; [apply or_else_nonempty; discriminate|].
    split; [apply or_else_nonempty; discriminate|].
    split; [by apply length_positive | apply exam_rows_named].
Qed.

Lemma match_here_take (cls : list charclass) (s rest : string) :
  match_here cls s = Some rest ->
  match_here cls (take_chars (List.length cls) s) = Some "".
Proof.
  revert s. induction cls as [|k cls IH]; intros s; cbn [match_here List.length take_chars].
  - done.
  - destruct s as [|c s]; [discriminate|]. cbn [match_here].
    destruct (k c); [apply IH | discriminate].
Qed.

(** The text that an unanchored pattern matched matches the pattern as a
    whole. *)
Lemma match_first_whole (cls : list charclass) (s c : string) :
  match_first cls s = Some c -> match_whole cls c = true.
Proof.
  unfold match_whole. induction s as [|a s IH]; cbn [match_first].
  - destruct (match_here cls "") as [r|] eqn:E; [|discriminate].
    intros [= <-]. by rewrite (match_here_take _ _ _ E).
  - destruct (match_here cls (String a s)) as [r|] eqn:E; [|exact IH].
    intros [= <-]. by rewrite (match_here_take _ _ _ E).
Qed.

Lemma replace_nbsp_hyphen_no_hyphen (s : string) (skip : nat) :
  ~ has_char "-"%char (replace_nbsp_hyphen skip s).
Proof.
  unfold has_char. revert skip. induction s as [|c s IH]; intros skip; [intros []|].
  cbn [replace_nbsp_hyphen]. destruct skip as [|k]; [|apply IH].
  destruct (String.prefix _ _).
  - cbn. intros [H|H]; [discriminate H | by apply IH in H].
  - destruct (is_char "-" c) eqn:E.
    + cbn. intros [H|H]; [discriminate H | by apply IH in H].
    + cbn. intros [H|H]; [|by apply IH in H]. subst c. discriminate E.
Qed.

Lemma semester_subjects_listed (doc : Dom.document) (panel : Dom.path) :
  Forall course_listed (semester_subjects doc panel).
Proof.
  apply fold_left_Forall; [|constructor]. intros acc row Hacc. cbv beta zeta.
  destruct (9 <=? _)%nat; [|done].
  destruct (truthy _ && truthy _) eqn:E; [|done].
  apply andb_true_iff in E as [Hc Hn].
  apply Forall_push; [done|]. unfold course_subject in *.
  cbn [Subject.code Subject.name Subject.gradePoint] in *.
  destruct (match_first course_code_re _) as [c|] eqn:Hm; [|discriminate Hc].
  rewrite Hc in *. split; [by eapply match_first_whole|].
  split; [by apply truthy_nonempty|]. split; [|reflexivity].
  intros H. apply has_char_trim in H. by apply replace_nbsp_hyphen_no_hyphen in H.
Qed.

(** Every semester listed in a profile has at least one subject, and every
    subject listed has a code of three capital letters and three digits, a
    name that is not empty and in which every hyphen has become a space, and
    no grade point. *)
Theorem semesters_listed (doc : Dom.document) :
  Forall semester_listed (semesterResults doc).
Proof.
  apply fold_left_Forall; [|constructor]. intros acc panel Hacc. cbv beta zeta.
  destruct (0 <? _)%nat eqn:E; [|done].
  apply Forall_push; [done|]. split; cbn [SemesterResult.subjects].
  - by apply length_positive.
  - apply semester_subjects_listed.
Qed.

Lemma links_kept (doc : Dom.document) (links : Dom.selection) :
  Forall link_kept (fold_left (link_of doc) links []).
Proof.
  apply fold_left_Forall; [|constructor]. intros acc link Hacc. unfold link_of.
  destruct (Dom.attr doc [link] "href") as [h|]; [|done].
  destruct (truthy h && truthy _ && negb _) eqn:E; [|done].
  apply andb_true_iff in E as [E Hr]. apply andb_true_iff in E as [Hh Ht].
  apply Forall_push; [done|]. unfold link_kept. cbn [Link.title Link.url].
  split; [by apply truthy_nonempty|]. split; [by apply negb_true_iff|].
  destruct (startsWith h "http") eqn:Hs; [exact Hs | reflexivity].
Qed.

(** Every announcement listed has a title; every link of it has a text
    that is not a read-more label, and an absolute URL: the [href] itself
    when it starts with http, the [href] on the site of the university
    otherwise. *)
Theorem announcements_kept (doc : Dom.document) (now : Z) :
  Forall announcement_kept (Announcements.announcements (announcements_of doc now)).
Proof.
  cbn [announcements_of Announcements.announcements]. apply Forall_take.
  apply fold_left_Forall; [|constructor]. intros acc elem Hacc.
  unfold announcement_elem. destruct (truthy _) eqn:E; [|done].
  apply Forall_push; [done|]. split; cbn [Announcement.title Announcement.links].
  - by apply truthy_nonempty.
  - apply links_kept.
Qed.

Lemma count_of_number (s : string) : JsNumber.isNaN (count_of s) = false.
Proof.
  unfold count_of, JsNumber.or_else.
  destruct (JsNumber.parseInt s) as [sg|sg| |sg m e]; reflexivity.
Qed.

Lemma ratio_or_zero_nonempty (a b : number) : ratio_or_zero a b <> "".
Proof.
  unfold ratio_or_zero, ratio_text. destruct (JsNumber.truthy b); [|discriminate].
  by destruct (JsNumber.toFixed2 _).
Qed.

(** In every attendance record the counts of each subject are numbers (0
    when the cell does not parse, never NaN), and neither the percentage of a
    subject nor the overall percentage is empty. *)
Theorem attendance_record_counted (doc : Dom.document) (now : Z) :
  let a := attendance_of doc now in
  Forall subject_counted (Attendance.subjects a) /\ Attendance.overall a <> "".
Proof.
  cbn [attendance_of Attendance.subjects Attendance.overall]. split.
  - unfold attendance_subjects. rewrite each_indexed_spec. cbn [app].
    apply Forall_map, List.Forall_forall. intros row _.
    unfold subject_counted, amended_subject.
    cbn [AttendanceSubject.attended AttendanceSubject.total AttendanceSubject.percentage].
    split; [apply count_of_number|]. split; [apply count_of_number|].
    apply or_else_nonempty, ratio_or_zero_nonempty.
  - apply ratio_or_zero_nonempty.
Qed.

(** ** Texts taken out of a title *)

Lemma has_char_app (c : ascii) (a b : string) :
  has_char c (a +:+ b) <-> has_char c a \/ has_char c b.
Proof.
  unfold has_char. induction a as [|x a IH].
  - cbn. tauto.
  - change (String x a +:+ b) with (String x (a +:+ b)).
    cbn [list_ascii_of_string In]. rewrite IH. tauto.
Qed.

Lemma string_app_assoc (a b c : string) : (a +:+ b) +:+ c = a +:+ (b +:+ c).
Proof.
  induction a as [|x a IH]; [reflexivity|].
  change (String x ((a +:+ b) +:+ c) = String x (a +:+ b +:+ c)). by rewrite IH.
Qed.

Lemma len_append (a b : string) : len (a +:+ b) = len a + len b.
Proof. unfold len. rewrite length_append. lia. Qed.

Lemma prefix_char (c a : ascii) (s : string) :
  String.prefix (String c EmptyString) (String a s)
  = if ascii_dec c a then true else false.
Proof. simpl. destruct (ascii_dec c a); [by destruct s | done]. Qed.

Lemma indexOf_from_found (c : ascii) (n r : string) (i : Z) :
  ~ has_char c n ->
  indexOf_from (String c EmptyString) (n +:+ String c r) i = i + len n.
Proof.
  unfold has_char. revert i. induction n as [|a n IH]; intros i H.
  - change ("" +:+ String c r) with (String c r). cbn [indexOf_from].
    rewrite prefix_char.
    destruct (ascii_dec c c); [unfold len; cbn; lia | done].
  - change (String a n +:+ String c r) with (String a (n +:+ String c r)).
    cbn [indexOf_from]. rewrite prefix_char.
    destruct (ascii_dec c a) as [->|Hne]; [exfalso; apply H; by left|].
    rewrite IH by (intros Hin; apply H; by right).
    unfold len. cbn [String.length]. lia.
Qed.

Lemma lastIndexOf_from_absent (c : ascii) (r : string) (i best : Z) :
  ~ has_char c r -> lastIndexOf_from (String c EmptyString) r i best = best.
Proof.
  unfold has_char. revert i. induction r as [|a r IH]; intros i H.
  - reflexivity.
  - cbn [lastIndexOf_from]. rewrite prefix_char.
    destruct (ascii_dec c a) as [->|Hne]; [exfalso; apply H; by left|].
    apply IH. intros Hin. apply H. by right.
Qed.

Lemma lastIndexOf_from_found (c : ascii) (p r : string) (i best : Z) :
  ~ has_char c r ->
  lastIndexOf_from (String c EmptyString) (p +:+ String c r) i best = i + len p.
Proof.
  intros Hr. revert i best. induction p as [|a p IH]; intros i best.
  - change ("" +:+ String c r) with (String c r).
    cbn [lastIndexOf_from]. rewrite prefix_char.
    destruct (ascii_dec c c); [|done].
    rewrite lastIndexOf_from_absent by exact Hr. unfold len. cbn. lia.
  - change (String a p +:+ String c r) with (String a (p +:+ String c r)).
    cbn [lastIndexOf_from]. rewrite IH. unfold len. cbn [String.length]. lia.
Qed.

Lemma drop_chars_append (p s : string) : drop_chars (String.length p) (p +:+ s) = s.
Proof. induction p as [|a p IH]; simpl; [done | exact IH]. Qed.

Lemma take_chars_append (m s : string) : take_chars (String.length m) (m +:+ s) = m.
Proof. induction m as [|a m IH]; simpl; [done | by rewrite IH]. Qed.

(** [(p + m + r).substring(p.length, p.length + m.length)] is [m]. *)
Lemma substring_middle (p m r : string) :
  substring (p +:+ m +:+ r) (len p) (len p + len m) = m.
Proof.
  unfold substring, clamp. rewrite !len_append.
  pose proof (len_nonneg p). pose proof (len_nonneg m). pose proof (len_nonneg r).
  replace (Z.min (Z.max (len p) 0) (len p + (len m + len r))) with (len p) by lia.
  replace (Z.min (Z.max (len p + len m) 0) (len p + (len m + len r)))
    with (len p + len m) by lia.
  replace (Z.min (len p) (len p + len m)) with (len p) by lia.
  replace (Z.max (len p) (len p + len m) - len p) with (len m) by lia.
  unfold len. rewrite !Nat2Z.id. by rewrite drop_chars_append, take_chars_append.
Qed.

(** When the title reads [name(admission)...], the name is what stands
    before the first opening parenthesis and the admission number what stands
    between it and the first closing parenthesis, both trimmed. *)
Theorem name_and_admission (doc : Dom.document) (n a rest : string) :
  nameAndAdmissionText doc = n +:+ "(" +:+ a +:+ ")" +:+ rest ->
  ~ has_char "("%char n -> ~ has_char ")"%char n -> ~ has_char ")"%char a ->
  PersonalInfo.name (personalInfo doc) = trim n /\
  PersonalInfo.admissionNo (personalInfo doc) = trim a.
Proof.
  intros Ht Hn1 Hn2 Ha.
  cbn [personalInfo PersonalInfo.name PersonalInfo.admissionNo].
  unfold username, admissionNo. rewrite Ht.
  change (n +:+ "(" +:+ a +:+ ")" +:+ rest)
    with (n +:+ String "(" (a +:+ String ")" rest)).
  set (t := n +:+ String "(" (a +:+ String ")" rest)).
  assert (indexOf t "(" = len n) as ->.
  { unfold indexOf, t. rewrite indexOf_from_found by exact Hn1. lia. }
  assert (t = (n +:+ String "(" a) +:+ String ")" rest) as Ht2.
  { unfold t. by rewrite string_app_assoc. }
  assert (indexOf t ")" = len n + 1 + len a) as ->.
  { unfold indexOf. rewrite Ht2, indexOf_from_found.
    - rewrite len_append. unfold len. cbn [String.length]. lia.
    - intros H. apply has_char_app in H as [H|H]; [by apply Hn2|].
      unfold has_char in H. cbn [list_ascii_of_string In] in H.
      destruct H as [H|H]; [discriminate H | by apply Ha]. }
  split.
  - f_equal. exact (substring_middle "" n (String "(" (a +:+ String ")" rest))).
  - f_equal.
    assert (t = (n +:+ "(") +:+ a +:+ String ")" rest) as ->.
    { unfold t. by rewrite string_app_assoc. }
    replace (len n + 1) with (len (n +:+ "(")) by (rewrite len_append; reflexivity).
    apply substring_middle.
Qed.

(** When the panel title reads [...(college)...], the college is what
    stands between the last opening and the last closing parenthesis, as it
    is (not trimmed). *)
Theorem college_between_last_parentheses (doc : Dom.document) (p c r : string) :
  panelTitle doc = p +:+ "(" +:+ c +:+ ")" +:+ r ->
  ~ has_char "("%char c -> ~ has_char "("%char r -> ~ has_char ")"%char r ->
  PersonalInfo.college (personalInfo doc) = c.
Proof.
  intros Ht Hc Hr1 Hr2. cbn [personalInfo PersonalInfo.college].
  unfold college. fold (panelTitle doc). rewrite Ht.
  change (p +:+ "(" +:+ c +:+ ")" +:+ r)
    with (p +:+ String "(" (c +:+ String ")" r)).
  set (t := p +:+ String "(" (c +:+ String ")" r)).
  assert (lastIndexOf t "(" = len p) as ->.
  { unfold lastIndexOf, t. rewrite lastIndexOf_from_found; [lia|].
    intros H. apply has_char_app in H as [H|H]; [by apply Hc|].
    unfold has_char in H. cbn [list_ascii_of_string In] in H.
    destruct H as [H|H]; [discriminate H | by apply Hr1]. }
  assert (t = (p +:+ String "(" c) +:+ String ")" r) as Ht2.
  { unfold t. by rewrite string_app_assoc. }
  assert (lastIndexOf t ")" = len p + 1 + len c) as ->.
  { unfold lastIndexOf. rewrite Ht2, lastIndexOf_from_found by exact Hr2.
    rewrite len_append. unfold len. cbn [String.length]. lia. }
  assert (t = (p +:+ "(") +:+ c +:+ String ")" r) as ->.
  { unfold t. by rewrite string_app_assoc. }
  replace (len p + 1) with (len (p +:+ "(")) by (rewrite len_append; reflexivity).
  apply substring_middle.
Qed.

(** ** The last one wins *)

Lemma last_cons {A : Type} (a d : A) (l : list A) :
  List.last (a :: l) d = List.last l a.
Proof.
  revert a d. induction l as [|b l IH]; intros a d; [reflexivity|].
  rewrite last_cons_cons, !IH. reflexivity.
Qed.

Lemma find_rev_last {A : Type} (p : A -> bool) (l : list A) (d : A) :
  from_option id d (List.find p (rev l)) = List.last (List.filter p l) d.
Proof.
  revert d. induction l as [|x l IH] using rev_ind; intros d; [reflexivity|].
  rewrite rev_app_distr, List.filter_app. cbn [rev app List.find List.filter].
  destruct (p x).
  - by rewrite last_last.
  - rewrite app_nil_r. apply IH.
Qed.

(** The SGPA of a profile is the text of the last cell with a [rowspan],
    in document order, that parses as a number; it is empty when there is
    none. *)
Theorem sgpa_is_last_numeric (doc : Dom.document) :
  AcademicInfo.sgpa (academicInfo doc)
  = List.last (List.filter numeric (rowspan_texts doc)) "".
Proof.
  cbn [academicInfo AcademicInfo.sgpa]. unfold sgpaText. fold (rowspan_texts doc).
  rewrite <- (find_rev_last numeric). unfold numeric.
  destruct (List.find _ _) as [s|]; cbn [from_option id]; [|reflexivity].
  unfold or_else. by destruct s.
Qed.

Lemma gender_dob_fold (doc : Dom.document) (items : Dom.selection) (g d : string) :
  fold_left
    (fun '(gender, dob) item =>
       let badgeText := trim (Dom.text doc (Dom.find doc [item] sel_view_badge)) in
       let gender := if String.eqb badgeText "Gender" then own_text doc item else gender in
       let dob := if String.eqb badgeText "Date of Birth" then own_text doc item else dob in
       (gender, dob))
    items (g, d)
  = (List.last
       (List.map (own_text doc)
          (List.filter
             (fun item =>
                String.eqb (trim (Dom.text doc (Dom.find doc [item] sel_view_badge)))
                  "Gender") items)) g,
     List.last
       (List.map (own_text doc)
          (List.filter
             (fun item =>
                String.eqb (trim (Dom.text doc (Dom.find doc [item] sel_view_badge)))
                  "Date of Birth") items)) d).
Proof.
  revert g d. induction items as [|item items IH]; intros g d; [reflexivity|].
  cbn [fold_left List.filter]. cbv zeta. rewrite IH.
  destruct (String.eqb _ "Gender"), (String.eqb _ "Date of Birth");
    cbn [List.map]; by rewrite ?last_cons.
Qed.

(** When a profile page has several items with the badge Gender (or Date
    of Birth), the last one in document order gives the gender (the date of
    birth); without such an item the field is empty. *)
Theorem gender_and_dob_last_wins (doc : Dom.document) :
  PersonalInfo.gender (personalInfo doc) = List.last (labelled_texts doc "Gender") "" /\
  PersonalInfo.dob (personalInfo doc) = List.last (labelled_texts doc "Date of Birth") "".
Proof.
  cbn [personalInfo PersonalInfo.gender PersonalInfo.dob].
  unfold gender_dob. rewrite gender_dob_fold. by split.
Qed.

(** ** A page without the expected markup *)

(** When no element of the page matches any of the selectors of the
    profile route -- a page of another kind, an error page -- the profile is
    blank: every text is empty, the activity points are 0 and Pending, the
    credits earned are 0, and no semester is listed.  Nothing is thrown. *)
Theorem profile_of_unmatched_page (doc : Dom.document) (registerNo : string) :
  Forall (fun sel => Dom.query doc sel = []) profile_selectors ->
  profile_of doc registerNo = blank_profile registerNo.
Proof.
  intros H. unfold profile_selectors in H.
  repeat match type of H with
         | Forall _ (_ :: _) =>
             let E := fresh "E" in
             pose proof (List.Forall_inv H) as E; cbv beta in E;
             apply List.Forall_inv_tail in H
         end.
  clear H.
  unfold profile_of, blank_profile, personalInfo, academicInfo, activityPoints, credits.
  unfold username, admissionNo, nameAndAdmissionText, gender_dob, college, cgpa,
    sgpaText, without_badge, totalPoints, totalPointsText, breakdown, activityRows,
    earnedCredits, semesterResults.
  rewrite E, E0, E1, E2, E3, E4, E5, E6, E7, E8.
  assert (Dom.parent [] = []) as Hparent by reflexivity.
  rewrite !Hparent, !find_nil.
  vm_compute. reflexivity.
Qed.

(** A register number in small letters. *)
Lemma REGNO_RE_upper_form_witness :
  REGNO_RE_test "abc20cs001" = match_whole REGNO_UPPER (toUpperCase "abc20cs001") /\
  REGNO_RE_test (toUpperCase "abc20cs001") = REGNO_RE_test "abc20cs001".
Proof.
  apply (REGNO_RE_upper_form "abc20cs001").
  unfold ascii_only. cbn [list_ascii_of_string].
  repeat (constructor; [reflexivity|]). constructor.
Defined.

(** A request without a password is refused with status 400, a request
    without a body breaks the head of the route and is answered with status
    500; the world is untouched by both. *)
Lemma bad_request_untouched_witness :
  (exists e,
     handle closed_portal (PostProfile (Some "ABC20CS001") None) (initial 0)
     = (Return (status_json 400 e), initial 0)) /\
  (exists e,
     handle closed_portal (PostProfileBody None) (initial 0)
     = (Return (status_json 500 e), initial 0)).
Proof.
  split.
  - apply (bad_request_untouched closed_portal (PostProfile (Some "ABC20CS001") None)
             (initial 0)).
    discriminate.
  - apply (bad_request_untouched closed_portal (PostProfileBody None) (initial 0)).
    discriminate.
Defined.

(** A request without an exam identifier and one for the exam called
    [all], in another letter case, share their entry. *)
Lemma cache_keys_injective_witness :
  (profile_cacheKey "abc20cs001" = profile_cacheKey "ABC20CS001"
   <-> toUpperCase "abc20cs001" = toUpperCase "ABC20CS001") /\
  (results_cacheKey "abc20cs001" None = results_cacheKey "ABC20CS001" (Some "all")
   <-> toUpperCase "abc20cs001" = toUpperCase "ABC20CS001" /\
       exam_key None = exam_key (Some "all")).
Proof.
  apply (cache_keys_injective "abc20cs001" "ABC20CS001" None (Some "all"));
    reflexivity.
Defined.

(** On a portal where closing the browser fails, the profile route answers
    500 with the message of that failure. *)
Lemma profile_error_is_close_error_witness :
  let env := with_failing_close portal target_closed in
  let req := PostProfile (Some "ABC20CS001") (Some "pw") in
  let resp := fst (respond env req (initial 0)) in
  verdict req = Breaks \/
  exists b e,
    pp_close env b = Some e /\
    res_body resp
    = BError (ErrorBody.mk "Failed to fetch student profile" (Some (error_text e))
                None None None).
Proof.
  cbv zeta.
  apply (profile_error_is_close_error (with_failing_close portal target_closed)
           (PostProfile (Some "ABC20CS001") (Some "pw")) (initial 0)).
  - exact I.
  - vm_compute. reflexivity.
Defined.

(** On the portal that never answers: nine requests, and status 404. *)
Lemma results_portal_down_witness :
  let run := results_route dead_portal "ABC20CS001" None (initial 0) in
  fst run
  = Return (status_json 404
              (ErrorBody.mk "Could not fetch results from KTU portal" None None
                 (Some (toUpperCase "ABC20CS001")) None)) /\
  requests (snd run) = (requests (initial 0) + 9)%nat /\
  trace (snd run)
  = trace (initial 0) ++ EvCacheGet (results_cacheKey "ABC20CS001" None)
      :: concat (List.map (failed_probe None) (resultsUrls "ABC20CS001")) /\
  live (clock (snd run)) (cache (snd run)) (results_cacheKey "ABC20CS001" None) = None.
Proof.
  apply (results_portal_down dead_portal "ABC20CS001" None (initial 0)).
  - reflexivity.
  - reflexivity.
  - intros k r Hk. eexists. cbn [initial requests Nat.add dead_portal Portal.env axios].
    unfold Portal.fail_first.
    destruct (Nat.ltb_spec k 10) as [_|H]; [reflexivity | lia].
Defined.

(** On the portal that never answers: three requests, and status 500 with
    the message of the portal's error. *)
Lemma announcements_portal_down_witness :
  let opts := mkRequest "GET" KTU_ANNOUNCEMENTS_URL defaultHeaders in
  let run := announcements_route dead_portal (initial 0) in
  exists e,
    fst (axios dead_portal (requests (initial 0) + 2) opts) = Rejected e /\
    fst run
    = Return (status_json 500
                (ErrorBody.mk "Failed to fetch announcements" (Some (error_text e))
                   None None None)) /\
    requests (snd run) = (requests (initial 0) + 3)%nat /\
    trace (snd run)
    = trace (initial 0) ++ EvCacheGet announcements_cacheKey
        :: backoff opts 0 2 ++ [EvRequest opts] /\
    live (clock (snd run)) (cache (snd run)) announcements_cacheKey = None.
Proof.
  apply (announcements_portal_down dead_portal (initial 0)).
  - reflexivity.
  - intros k Hk. eexists. cbn [initial requests Nat.add dead_portal Portal.env axios].
    unfold Portal.fail_first.
    destruct (Nat.ltb_spec k 10) as [_|H]; [reflexivity | lia].
Defined.

(** On the portal: the results stored at the first call are served half an
    hour later to the millisecond, and not one millisecond after. *)
Lemma stored_answer_lifetime_witness :
  let req := GetResults "ABC20CS001" None in
  let first := respond portal req (initial 0) in
  let v := VResults (results_of Portal.results_page "ABC20CS001"
                       "https://app.ktu.edu.in/public/results?registerNo=ABC20CS001") in
  let run := respond portal req (tick 1800000 (snd first)) in
  fst run = json_cached v /\
  requests (snd run) = requests (snd first) /\ launches (snd run) = launches (snd first).
Proof.
  cbv zeta.
  apply (stored_answer_lifetime portal (GetResults "ABC20CS001" None)
           (VResults (results_of Portal.results_page "ABC20CS001"
                        "https://app.ktu.edu.in/public/results?registerNo=ABC20CS001"))
           (initial 0) (snd (respond portal (GetResults "ABC20CS001" None) (initial 0)))
           1800000).
  - exact I.
  - vm_compute. reflexivity.
  - vm_compute. discriminate.
  - lia.
  - unfold stdTTL. lia.
Defined.

(** The title of the portal's profile page. *)
Lemma name_and_admission_witness :
  PersonalInfo.name (personalInfo (Portal.load Portal.profile_html)) = trim "Asha Nair " /\
  PersonalInfo.admissionNo (personalInfo (Portal.load Portal.profile_html)) = trim "KTU123".
Proof.
  apply (name_and_admission (Portal.load Portal.profile_html) "Asha Nair " "KTU123" "").
  - vm_compute. reflexivity.
  - unfold has_char. vm_compute. intros H.
    repeat (destruct H as [H|H]; [discriminate H|]). exact H.
  - unfold has_char. vm_compute. intros H.
    repeat (destruct H as [H|H]; [discriminate H|]). exact H.
  - unfold has_char. vm_compute. intros H.
    repeat (destruct H as [H|H]; [discriminate H|]). exact H.
Defined.

(** A panel title with two pairs of parentheses: the last pair counts. *)
Lemma college_between_last_parentheses_witness :
  PersonalInfo.college (personalInfo college_page) = "ABC College of Engineering".
Proof.
  apply (college_between_last_parentheses college_page "B.Tech (2020) "
           "ABC College of Engineering" "").
  - vm_compute. reflexivity.
  - unfold has_char. vm_compute. intros H.
    repeat (destruct H as [H|H]; [discriminate H|]). exact H.
  - unfold has_char. vm_compute. intros H. exact H.
  - unfold has_char. vm_compute. intros H. exact H.
Defined.

(** On the portal that rejects the login, the attendance route answers 401
    and makes no request. *)
Lemma failed_login_is_401_witness :
  let w1 := snd (loginStudent closed_portal "ABC20CS001" "wrong" (initial 0)) in
  attendance_route closed_portal (Some "ABC20CS001") (Some "wrong") (initial 0)
  = (Return (status_json 401 (error_only "Invalid credentials")), w1) /\
  requests w1 = requests (initial 0).
Proof.
  cbv zeta.
  apply (failed_login_is_401 closed_portal "ABC20CS001" "wrong" None (initial 0)
           (snd (loginStudent closed_portal "ABC20CS001" "wrong" (initial 0)))).
  - reflexivity.
  - reflexivity.
  - vm_compute. reflexivity.
  - reflexivity.
Defined.


(** The page without any body is such a page. *)
Lemma profile_of_unmatched_page_witness :
  profile_of Portal.empty_page "abc20cs001" = blank_profile "abc20cs001".
Proof.
  apply (profile_of_unmatched_page Portal.empty_page "abc20cs001").
  unfold profile_selectors. repeat constructor.
Defined.

End ContractProofs.
